(** * The software mixer of audio/mixer.cpp: channels, slots and handles

    A shallow embedding of [Audio::Channel] and [Audio::MixerImpl].  The
    audio stream, the rate converter, the timestamp arithmetic and the
    system clock are collaborators that live outside mixer.cpp; they are
    taken as interfaces (type classes) or as explicit arguments.

    Conventions:
    - a C++ unsigned 32-bit value is a [Z] reduced with [wrap_uint32];
    - C++ [/] and [%] on integers are [Z.quot] and [Z.rem];
    - a pointer that may be null is an [option];
    - [delete] and [warning] are recorded in an event log;
    - a failed [assert] ends the call with [AssertionFailed];
    - [g_system->getMillis(true)] is an argument of the call that reads it;
    - the [_mixer] back pointer of a channel is the engine that owns it, so
      every channel method that dereferences it takes that engine. *)

From Stdlib Require Import ZArith Lia String.
From stdpp Require Import base list.

Local Open Scope Z_scope.

(** ** Machine integers *)

Definition wrap_uint32 (z : Z) : Z := z mod 2 ^ 32.

(** The conversion to [st_volume_t], the unsigned 16-bit volume type that
    audio/rate.h declares.  The gains computed from settings in their
    ranges lie in 0..256, where the conversion changes nothing. *)
Definition st_volume_t (z : Z) : Z := z mod 2 ^ 16.

(** [int]: the signed 32-bit range, an overflow wrapping around. *)
Definition INT_MAX : Z := 2 ^ 31 - 1.
Definition wrap_int (z : Z) : Z := (z + 2 ^ 31) mod 2 ^ 32 - 2 ^ 31.

(** ** Control flow *)

(** [for (int i = start; i != start + n; i++) body] *)
Fixpoint for_loop {St : Type} (n : nat) (i : nat)
    (body : nat -> St -> St) (s : St) : St :=
  match n with
  | O => s
  | S n' => for_loop n' (S i) body (body i s)
  end.

(** A loop body either falls through to the next iteration or leaves the
    loop ([break], or [return] out of the enclosing function). *)
Inductive Flow (St Ret : Type) : Type :=
  | Next (s : St)
  | Exit (r : Ret).
Arguments Next {St Ret} s.
Arguments Exit {St Ret} r.

Fixpoint for_loop_exit {St Ret : Type} (n : nat) (i : nat)
    (body : nat -> St -> Flow St Ret) (s : St) : Flow St Ret :=
  match n with
  | O => Next s
  | S n' =>
      match body i s with
      | Next s' => for_loop_exit n' (S i) body s'
      | Exit r => Exit r
      end
  end.

(** The outcome of a call that contains [assert]s. *)
Inductive Result (A : Type) : Type :=
  | Ok (a : A)
  | AssertionFailed.
Arguments Ok {A} a.
Arguments AssertionFailed {A}.

(** ** Types of audio/mixer.h *)

(** Modelled from the spec: the enumeration [Mixer::SoundType] is declared
    in audio/mixer.h; the spec names a small fixed set (plain, music, sfx,
    speech). *)
Inductive SoundType : Type :=
  | kPlainSoundType
  | kMusicSoundType
  | kSFXSoundType
  | kSpeechSoundType.

#[global] Instance SoundType_eq_dec : EqDecision SoundType.
Proof. solve_decision. Defined.

(** [DisposeAfterUse::Flag] *)
Inductive DisposeFlag : Type := NO | YES.

(** Modelled from the spec: [Mixer::kMaxChannelVolume] and
    [Mixer::kMaxMixerVolume] are declared in audio/mixer.h.  The channel
    volume is a byte whose maximal value is 255 (so says the comment in
    [Channel::updateChannelVolumes]); category volumes range over 0..256. *)
Definition kMaxChannelVolume : Z := 255.
Definition kMaxMixerVolume : Z := 256.

(** One entry of [MixerImpl::_soundTypeSettings]. *)
Record SoundTypeSettings : Type := mkSoundTypeSettings {
  mute : bool;
  volume : Z
}.

(** Compile-time constants that mixer.cpp takes from its headers: the
    number of slots and the settings of a sound type before any is set
    (audio/mixer_intern.h), the [AUDIO_REVERSE_STEREO] switch and the value
    of a default-constructed [SoundHandle] (audio/mixer.h). *)
Class MixerConfig : Type := {
  NUM_CHANNELS : nat;
  AUDIO_REVERSE_STEREO : bool;
  SoundHandle_default : Z;
  SoundTypeSettings_default : SoundTypeSettings
}.

(** ** Collaborators *)

(** The pull interface of [AudioStream] that mixer.cpp uses.
    [isRewindable] is the dynamic cast to [RewindableAudioStream];
    [makeLoopingAudioStream s d] is
    [new LoopingAudioStream(DisposablePtr(s, d), 0, false)]. *)
Class AudioStream (S : Type) : Type := {
  endOfData : S -> bool;
  endOfStream : S -> bool;
  streamRate : S -> Z;
  isStereo : S -> bool;
  isRewindable : S -> bool;
  makeLoopingAudioStream : S -> DisposeFlag -> S
}.

(** The interface of [RateConverter].  [convert r s buf len volL volR]
    pulls from [s], mixes into [buf] and returns the new converter, the
    new stream, the new buffer and the number of sample pairs produced. *)
Class RateConverter (S R : Type) : Type := {
  makeRateConverter : Z -> Z -> bool -> bool -> bool -> R;
  needsDraining : R -> bool;
  setInputRate : R -> Z -> R;
  getInputRate : R -> Z;
  convert : R -> S -> list Z -> Z -> Z -> Z -> R * S * list Z * Z
}.

(** The part of [Audio::Timestamp] that mixer.cpp uses:
    [Timestamp(msecs, framerate)], [addFrames], [addMsecs], [msecs]. *)
Class TimestampOps (T : Type) : Type := {
  Timestamp : Z -> Z -> T;
  addFrames : T -> Z -> T;
  addMsecs : T -> Z -> T;
  msecs : T -> Z
}.

(** ** Effects *)

Inductive Event (S R : Type) : Type :=
  | EvWarning (msg : string)
  | EvDeleteStream (s : S)
  | EvDeleteConverter (r : R).
Arguments EvWarning {S R} msg.
Arguments EvDeleteStream {S R} s.
Arguments EvDeleteConverter {S R} r.

(** ** The state of a channel and of the engine *)

Record Channel (S R : Type) : Type := mkChannel {
  _type : SoundType;
  _handle : Z;
  _permanent : bool;
  _pauseLevel : Z;
  _id : Z;
  _volume : Z;
  _balance : Z;
  _faderL : Z;
  _faderR : Z;
  _volL : Z;
  _volR : Z;
  _samplesConsumed : Z;
  _samplesDecoded : Z;
  _mixerTimeStamp : Z;
  _pauseStartTime : Z;
  _pauseTime : Z;
  _converter : R;
  _stream : S;
  _streamDispose : DisposeFlag
}.
Arguments mkChannel {S R}.
Arguments _type {S R} c.
Arguments _handle {S R} c.
Arguments _permanent {S R} c.
Arguments _pauseLevel {S R} c.
Arguments _id {S R} c.
Arguments _volume {S R} c.
Arguments _balance {S R} c.
Arguments _faderL {S R} c.
Arguments _faderR {S R} c.
Arguments _volL {S R} c.
Arguments _volR {S R} c.
Arguments _samplesConsumed {S R} c.
Arguments _samplesDecoded {S R} c.
Arguments _mixerTimeStamp {S R} c.
Arguments _pauseStartTime {S R} c.
Arguments _pauseTime {S R} c.
Arguments _converter {S R} c.
Arguments _stream {S R} c.
Arguments _streamDispose {S R} c.

Record MixerImpl (S R : Type) : Type := mkMixerImpl {
  _sampleRate : Z;
  _stereo : bool;
  _outBufSize : Z;
  _mixerReady : bool;
  _handleSeed : Z;
  _soundTypeSettings : SoundType -> SoundTypeSettings;
  _channels : list (option (Channel S R))
}.
Arguments mkMixerImpl {S R}.
Arguments _sampleRate {S R} m.
Arguments _stereo {S R} m.
Arguments _outBufSize {S R} m.
Arguments _mixerReady {S R} m.
Arguments _handleSeed {S R} m.
Arguments _soundTypeSettings {S R} m.
Arguments _channels {S R} m.

(** Field updates. *)
Section Updates.
Context {S R : Type}.
Implicit Types (c : Channel S R) (m : MixerImpl S R).

Definition set_handle c h :=
  mkChannel (_type c) h (_permanent c) (_pauseLevel c) (_id c)
    (_volume c) (_balance c) (_faderL c) (_faderR c) (_volL c) (_volR c)
    (_samplesConsumed c) (_samplesDecoded c) (_mixerTimeStamp c)
    (_pauseStartTime c) (_pauseTime c) (_converter c) (_stream c)
    (_streamDispose c).

Definition set_pause c level start time :=
  mkChannel (_type c) (_handle c) (_permanent c) level (_id c)
    (_volume c) (_balance c) (_faderL c) (_faderR c) (_volL c) (_volR c)
    (_samplesConsumed c) (_samplesDecoded c) (_mixerTimeStamp c)
    start time (_converter c) (_stream c) (_streamDispose c).

Definition set_volume c v :=
  mkChannel (_type c) (_handle c) (_permanent c) (_pauseLevel c) (_id c)
    v (_balance c) (_faderL c) (_faderR c) (_volL c) (_volR c)
    (_samplesConsumed c) (_samplesDecoded c) (_mixerTimeStamp c)
    (_pauseStartTime c) (_pauseTime c) (_converter c) (_stream c)
    (_streamDispose c).

Definition set_balance c b :=
  mkChannel (_type c) (_handle c) (_permanent c) (_pauseLevel c) (_id c)
    (_volume c) b (_faderL c) (_faderR c) (_volL c) (_volR c)
    (_samplesConsumed c) (_samplesDecoded c) (_mixerTimeStamp c)
    (_pauseStartTime c) (_pauseTime c) (_converter c) (_stream c)
    (_streamDispose c).

Definition set_faderL c f :=
  mkChannel (_type c) (_handle c) (_permanent c) (_pauseLevel c) (_id c)
    (_volume c) (_balance c) f (_faderR c) (_volL c) (_volR c)
    (_samplesConsumed c) (_samplesDecoded c) (_mixerTimeStamp c)
    (_pauseStartTime c) (_pauseTime c) (_converter c) (_stream c)
    (_streamDispose c).

Definition set_faderR c f :=
  mkChannel (_type c) (_handle c) (_permanent c) (_pauseLevel c) (_id c)
    (_volume c) (_balance c) (_faderL c) f (_volL c) (_volR c)
    (_samplesConsumed c) (_samplesDecoded c) (_mixerTimeStamp c)
    (_pauseStartTime c) (_pauseTime c) (_converter c) (_stream c)
    (_streamDispose c).

Definition set_vols c l r :=
  mkChannel (_type c) (_handle c) (_permanent c) (_pauseLevel c) (_id c)
    (_volume c) (_balance c) (_faderL c) (_faderR c) l r
    (_samplesConsumed c) (_samplesDecoded c) (_mixerTimeStamp c)
    (_pauseStartTime c) (_pauseTime c) (_converter c) (_stream c)
    (_streamDispose c).

Definition set_converter c (r : R) : Channel S R :=
  mkChannel (_type c) (_handle c) (_permanent c) (_pauseLevel c) (_id c)
    (_volume c) (_balance c) (_faderL c) (_faderR c) (_volL c) (_volR c)
    (_samplesConsumed c) (_samplesDecoded c) (_mixerTimeStamp c)
    (_pauseStartTime c) (_pauseTime c) r (_stream c) (_streamDispose c).

Definition set_stream c (s : S) (d : DisposeFlag) : Channel S R :=
  mkChannel (_type c) (_handle c) (_permanent c) (_pauseLevel c) (_id c)
    (_volume c) (_balance c) (_faderL c) (_faderR c) (_volL c) (_volR c)
    (_samplesConsumed c) (_samplesDecoded c) (_mixerTimeStamp c)
    (_pauseStartTime c) (_pauseTime c) (_converter c) s d.

(** The writes of a mix that does real work. *)
Definition set_mixed c consumed decoded stamp ptime (r : R) (s : S)
    : Channel S R :=
  mkChannel (_type c) (_handle c) (_permanent c) (_pauseLevel c) (_id c)
    (_volume c) (_balance c) (_faderL c) (_faderR c) (_volL c) (_volR c)
    consumed decoded stamp (_pauseStartTime c) ptime r s
    (_streamDispose c).

Definition set_channels m (l : list (option (Channel S R)))
    : MixerImpl S R :=
  mkMixerImpl (_sampleRate m) (_stereo m) (_outBufSize m) (_mixerReady m)
    (_handleSeed m) (_soundTypeSettings m) l.

Definition set_mixerReady m b :=
  mkMixerImpl (_sampleRate m) (_stereo m) (_outBufSize m) b
    (_handleSeed m) (_soundTypeSettings m) (_channels m).

Definition set_handleSeed m seed :=
  mkMixerImpl (_sampleRate m) (_stereo m) (_outBufSize m) (_mixerReady m)
    seed (_soundTypeSettings m) (_channels m).

Definition set_soundTypeSettings m st :=
  mkMixerImpl (_sampleRate m) (_stereo m) (_outBufSize m) (_mixerReady m)
    (_handleSeed m) st (_channels m).

(** [_channels[i]], a null pointer being [None]. *)
Definition chanAt m (i : nat) : option (Channel S R) :=
  match _channels m !! i with
  | Some (Some c) => Some c
  | _ => None
  end.

(** [_channels[i] = p] *)
Definition setSlot m (i : nat) (p : option (Channel S R)) :=
  set_channels m (<[i := p]> (_channels m)).
End Updates.

(** ** The engine as a channel sees it through [_mixer] *)

Module Mixer.
Section Getters.
Context {S R : Type}.
Implicit Types (m : MixerImpl S R).

Definition getOutputRate m : Z := _sampleRate m.

Definition getOutputStereo m : bool := _stereo m.

Definition isSoundTypeMuted m (type : SoundType) : bool :=
  mute (_soundTypeSettings m type).

Definition getVolumeForSoundType m (type : SoundType) : Z :=
  volume (_soundTypeSettings m type).
End Getters.
End Mixer.

(** ** Channel *)

Module Channel.
Section Methods.
Context {cfg : MixerConfig} {S R T : Type}.
Context `{!AudioStream S} `{!RateConverter S R} `{!TimestampOps T}.
Implicit Types (c : Channel S R) (mixer : MixerImpl S R).

(** [Channel::Channel] *)
Definition ctor mixer (type : SoundType) (stream : S)
    (autofreeStream : DisposeFlag) (reverseStereo : bool) (id : Z)
    (permanent : bool) : Channel S R :=
  {| _type := type;
     _handle := SoundHandle_default;
     _permanent := permanent;
     _pauseLevel := 0;
     _id := id;
     _volume := kMaxChannelVolume;
     _balance := 0;
     _faderL := 255;
     _faderR := 255;
     _volL := 0;
     _volR := 0;
     _samplesConsumed := 0;
     _samplesDecoded := 0;
     _mixerTimeStamp := 0;
     _pauseStartTime := 0;
     _pauseTime := 0;
     _converter :=
       makeRateConverter (streamRate stream) (Mixer.getOutputRate mixer)
         (isStereo stream) (Mixer.getOutputStereo mixer) reverseStereo;
     _stream := stream;
     _streamDispose := autofreeStream |}.

(** [Channel::~Channel]: the converter is deleted, then the
    [DisposablePtr] releases the stream according to its flag. *)
Definition dtor c : list (Event S R) :=
  EvDeleteConverter (_converter c) ::
  match _streamDispose c with
  | YES => [EvDeleteStream (_stream c)]
  | NO => []
  end.

Definition isFinished c : bool :=
  endOfStream (_stream c) && negb (needsDraining (_converter c)).

Definition isPermanent c : bool := _permanent c.

Definition getId c : Z := _id c.

Definition isPaused c : bool := negb (_pauseLevel c =? 0).

Definition getType c : SoundType := _type c.

Definition setHandle c (handle : Z) : Channel S R := set_handle c handle.

Definition getHandle c : Z := _handle c.

(** [Channel::updateChannelVolumes].  The products are computed in [int];
    with a category volume of at most 256 and byte-sized operands they
    stay below 2^31, so no reduction is written for them. *)
Definition updateChannelVolumes mixer c : Channel S R :=
  if negb (Mixer.isSoundTypeMuted mixer (_type c)) then
    let vol := Mixer.getVolumeForSoundType mixer (_type c) * _volume c in
    let '(volL, volR) :=
      if _balance c =? 0 then
        (st_volume_t (vol `quot` kMaxChannelVolume),
         st_volume_t (vol `quot` kMaxChannelVolume))
      else if _balance c <? 0 then
        (st_volume_t (vol `quot` kMaxChannelVolume),
         st_volume_t
           (((127 + _balance c) * vol) `quot` (kMaxChannelVolume * 127)))
      else
        (st_volume_t
           (((127 - _balance c) * vol) `quot` (kMaxChannelVolume * 127)),
         st_volume_t (vol `quot` kMaxChannelVolume)) in
    set_vols c
      (st_volume_t ((volL * _faderL c) `quot` 255))
      (st_volume_t ((volR * _faderR c) `quot` 255))
  else
    set_vols c 0 0.

Definition notifyGlobalVolChange mixer c : Channel S R :=
  updateChannelVolumes mixer c.

Definition setVolume mixer c (volume : Z) : Channel S R :=
  updateChannelVolumes mixer (set_volume c volume).

Definition getVolume c : Z := _volume c.

Definition setBalance mixer c (balance : Z) : Channel S R :=
  updateChannelVolumes mixer (set_balance c balance).

Definition getBalance c : Z := _balance c.

Definition setFaderL mixer c (faderL : Z) : Channel S R :=
  updateChannelVolumes mixer (set_faderL c faderL).

Definition getFaderL c : Z := _faderL c.

Definition setFaderR mixer c (faderR : Z) : Channel S R :=
  updateChannelVolumes mixer (set_faderR c faderR).

Definition getFaderR c : Z := _faderR c.

(** The constructor always installs a converter and a stream, so the
    null tests of [setRate], [getRate] and [resetRate] succeed. *)
Definition setRate c (rate : Z) : Channel S R :=
  set_converter c (setInputRate (_converter c) rate).

Definition getRate c : Z := getInputRate (_converter c).

Definition resetRate c : Channel S R :=
  set_converter c (setInputRate (_converter c) (streamRate (_stream c))).

(** [Channel::pause]; [now] is what [getMillis] returns if it is read. *)
Definition pause c (paused : bool) (now : Z) : Channel S R :=
  if paused then
    let level := wrap_int (_pauseLevel c + 1) in
    if level =? 1 then set_pause c level now (_pauseTime c)
    else set_pause c level (_pauseStartTime c) (_pauseTime c)
  else if _pauseLevel c >? 0 then
    let level := wrap_int (_pauseLevel c - 1) in
    if level =? 0 then
      set_pause c level 0 (wrap_uint32 (now - _pauseStartTime c))
    else set_pause c level (_pauseStartTime c) (_pauseTime c)
  else c.

Definition getElapsedTime mixer c (now : Z) : T :=
  let rate := Mixer.getOutputRate mixer in
  let ts := Timestamp 0 rate in
  if _mixerTimeStamp c =? 0 then ts
  else
    let delta :=
      if isPaused c then
        wrap_uint32 (_pauseStartTime c - _mixerTimeStamp c)
      else wrap_uint32 (now - _mixerTimeStamp c - _pauseTime c) in
    let ts := addFrames ts (_samplesConsumed c) in
    addMsecs ts delta.

Definition loop c : Channel S R :=
  if isRewindable (_stream c) then
    set_stream c (makeLoopingAudioStream (_stream c) (_streamDispose c)) YES
  else c.

(** [Channel::mix]: the new channel, the new buffer and the number of
    sample pairs processed. *)
Definition mix c (data : list Z) (len : Z) (now : Z)
    : Channel S R * list Z * Z :=
  if negb (endOfData (_stream c)) || needsDraining (_converter c) then
    let '(r, s, data', res) :=
      convert (_converter c) (_stream c) data len (_volL c) (_volR c) in
    (set_mixed c (_samplesDecoded c)
       (wrap_uint32 (_samplesDecoded c + res)) now 0 r s,
     data', res)
  else (c, data, 0).
End Methods.
End Channel.

(** ** MixerImpl *)

Module MixerImpl.
Section Methods.
Context {cfg : MixerConfig} {S R T : Type}.
Context `{!AudioStream S} `{!RateConverter S R} `{!TimestampOps T}.
Implicit Types (m : MixerImpl S R) (chan : Channel S R).

(** [MixerImpl::MixerImpl] *)
Definition ctor (sampleRate : Z) (stereo : bool) (outBufSize : Z)
    : Result (MixerImpl S R) :=
  if sampleRate >? 0 then
    Ok {| _sampleRate := sampleRate;
          _stereo := stereo;
          _outBufSize := outBufSize;
          _mixerReady := false;
          _handleSeed := 0;
          _soundTypeSettings := fun _ => SoundTypeSettings_default;
          _channels := replicate NUM_CHANNELS None |}
  else AssertionFailed.

Definition setReady m (ready : bool) : MixerImpl S R :=
  set_mixerReady m ready.

Definition getOutputBufSize m : Z := _outBufSize m.

(** [insertChannel(handle, chan)]: [handle] is the caller's variable
    behind the pointer ([None] for a null pointer); the result carries
    its content after the call. *)
Definition insertChannel m (handle : option Z) chan
    : MixerImpl S R * option Z * list (Event S R) :=
  let index :=
    match
      for_loop_exit NUM_CHANNELS 0
        (fun i (index : Z) =>
           match chanAt m i with
           | None => Exit (Z.of_nat i)
           | Some _ => Next index
           end) (-1)
    with
    | Next index => index
    | Exit index => index
    end in
  if index =? -1 then
    (m, handle,
     EvWarning "MixerImpl::out of mixer slots" :: Channel.dtor chan)
  else
    let chanHandle :=
      wrap_uint32 (index + _handleSeed m * Z.of_nat NUM_CHANNELS) in
    let chan := Channel.setHandle chan chanHandle in
    let m := setSlot m (Z.to_nat index) (Some chan) in
    let m := set_handleSeed m (wrap_uint32 (_handleSeed m + 1)) in
    (m, match handle with Some _ => Some chanHandle | None => None end,
     []).

Definition playStream m (type : SoundType) (handle : option Z)
    (stream : option S) (id : Z) (volume : Z) (balance : Z)
    (autofreeStream : DisposeFlag) (permanent : bool)
    (reverseStereo : bool)
    : Result (MixerImpl S R * option Z * list (Event S R)) :=
  match stream with
  | None => Ok (m, handle, [EvWarning "stream is 0"])
  | Some stream =>
      if negb (_mixerReady m) then AssertionFailed
      else
        let duplicate : Flow unit unit :=
          if negb (id =? -1) then
            for_loop_exit NUM_CHANNELS 0
              (fun i _ =>
                 match chanAt m i with
                 | Some c =>
                     if Channel.getId c =? id then Exit tt else Next tt
                 | None => Next tt
                 end) tt
          else Next tt in
        match duplicate with
        | Exit _ =>
            Ok (m, handle,
                match autofreeStream with
                | YES => [EvDeleteStream stream]
                | NO => []
                end)
        | Next _ =>
            let reverseStereo :=
              if AUDIO_REVERSE_STEREO then negb reverseStereo
              else reverseStereo in
            let chan :=
              Channel.ctor m type stream autofreeStream reverseStereo id
                permanent in
            let chan := Channel.setVolume m chan volume in
            let chan := Channel.setBalance m chan balance in
            Ok (insertChannel m handle chan)
        end
  end.

(** [memset(buf, 0, len)] on a buffer of 16-bit samples. *)
Definition memset_zero (buf : list Z) (len : Z) : list Z :=
  replicate (Z.to_nat (len `quot` 2)) 0 ++ drop (Z.to_nat (len `quot` 2)) buf.

(** [mixCallback(samples, len)]; [millis i] is the clock reading taken
    when slot [i] is mixed.  The result is the engine, the buffer, the
    return value and the log. *)
Definition mixCallback m (samples : option (list Z)) (len : Z)
    (millis : nat -> Z)
    : Result (MixerImpl S R * list Z * Z * list (Event S R)) :=
  match samples with
  | None => AssertionFailed
  | Some buf =>
      let m := set_mixerReady m true in
      let buf := memset_zero buf len in
      let aligned := if _stereo m then len `rem` 4 =? 0 else len `rem` 2 =? 0 in
      if negb aligned then AssertionFailed
      else
        let len := if _stereo m then Z.shiftr len 2 else Z.shiftr len 1 in
        Ok (for_loop NUM_CHANNELS 0
              (fun i '(m, buf, res, log) =>
                 match chanAt m i with
                 | Some c =>
                     if Channel.isFinished c then
                       (setSlot m i None, buf, res, log ++ Channel.dtor c)
                     else if negb (Channel.isPaused c) then
                       let '(c', buf', tmp) :=
                         Channel.mix c buf len (millis i) in
                       (setSlot m i (Some c'), buf',
                        if tmp >? res then tmp else res, log)
                     else (m, buf, res, log)
                 | None => (m, buf, res, log)
                 end)
              (m, buf, 0, []))
  end.

Definition stopAll m : MixerImpl S R * list (Event S R) :=
  for_loop NUM_CHANNELS 0
    (fun i '(m, log) =>
       match chanAt m i with
       | Some c =>
           if negb (Channel.isPermanent c) then
             (setSlot m i None, log ++ Channel.dtor c)
           else (m, log)
       | None => (m, log)
       end)
    (m, []).

Definition stopID m (id : Z) : MixerImpl S R * list (Event S R) :=
  for_loop NUM_CHANNELS 0
    (fun i '(m, log) =>
       match chanAt m i with
       | Some c =>
           if Channel.getId c =? id then
             (setSlot m i None, log ++ Channel.dtor c)
           else (m, log)
       | None => (m, log)
       end)
    (m, []).

(** [handle._val % NUM_CHANNELS] *)
Definition handleIndex (handle : Z) : nat :=
  Z.to_nat (handle `rem` Z.of_nat NUM_CHANNELS).

(** The channel that [handle] names, when the test
    [!_channels[index] || _channels[index]->getHandle()._val != handle._val]
    is false. *)
Definition lookupHandle m (handle : Z) : option (Channel S R) :=
  match chanAt m (handleIndex handle) with
  | Some c => if Channel.getHandle c =? handle then Some c else None
  | None => None
  end.

Definition stopHandle m (handle : Z) : MixerImpl S R * list (Event S R) :=
  match lookupHandle m handle with
  | None => (m, [])
  | Some c => (setSlot m (handleIndex handle) None, Channel.dtor c)
  end.

(** Every channel of [type] recomputes its gains from the engine. *)
Definition notifyType m (type : SoundType) : MixerImpl S R :=
  for_loop NUM_CHANNELS 0
    (fun i m =>
       match chanAt m i with
       | Some c =>
           if decide (Channel.getType c = type) then
             setSlot m i (Some (Channel.notifyGlobalVolChange m c))
           else m
       | None => m
       end)
    m.

Definition muteSoundType m (type : SoundType) (mute : bool)
    : MixerImpl S R :=
  let m :=
    set_soundTypeSettings m
      (fun t =>
         if decide (t = type) then
           mkSoundTypeSettings mute (volume (_soundTypeSettings m t))
         else _soundTypeSettings m t) in
  notifyType m type.

Definition isSoundTypeMuted m (type : SoundType) : bool :=
  Mixer.isSoundTypeMuted m type.

Definition setChannelVolume m (handle : Z) (volume : Z) : MixerImpl S R :=
  match lookupHandle m handle with
  | None => m
  | Some c =>
      setSlot m (handleIndex handle) (Some (Channel.setVolume m c volume))
  end.

Definition getChannelVolume m (handle : Z) : Z :=
  match lookupHandle m handle with
  | None => 0
  | Some c => Channel.getVolume c
  end.

Definition setChannelBalance m (handle : Z) (balance : Z)
    : MixerImpl S R :=
  match lookupHandle m handle with
  | None => m
  | Some c =>
      setSlot m (handleIndex handle) (Some (Channel.setBalance m c balance))
  end.

Definition getChannelBalance m (handle : Z) : Z :=
  match lookupHandle m handle with
  | None => 0
  | Some c => Channel.getBalance c
  end.

Definition setChannelFaderL m (handle : Z) (faderL : Z) : MixerImpl S R :=
  match lookupHandle m handle with
  | None => m
  | Some c =>
      setSlot m (handleIndex handle) (Some (Channel.setFaderL m c faderL))
  end.

Definition getChannelFaderL m (handle : Z) : Z :=
  match lookupHandle m handle with
  | None => 0
  | Some c => Channel.getFaderL c
  end.

Definition setChannelFaderR m (handle : Z) (faderR : Z) : MixerImpl S R :=
  match lookupHandle m handle with
  | None => m
  | Some c =>
      setSlot m (handleIndex handle) (Some (Channel.setFaderR m c faderR))
  end.

Definition getChannelFaderR m (handle : Z) : Z :=
  match lookupHandle m handle with
  | None => 0
  | Some c => Channel.getFaderR c
  end.

Definition setChannelRate m (handle : Z) (rate : Z) : MixerImpl S R :=
  match lookupHandle m handle with
  | None => m
  | Some c => setSlot m (handleIndex handle) (Some (Channel.setRate c rate))
  end.

Definition getChannelRate m (handle : Z) : Z :=
  match lookupHandle m handle with
  | None => 0
  | Some c => Channel.getRate c
  end.

Definition resetChannelRate m (handle : Z) : MixerImpl S R :=
  match lookupHandle m handle with
  | None => m
  | Some c => setSlot m (handleIndex handle) (Some (Channel.resetRate c))
  end.

Definition getElapsedTime m (handle : Z) (now : Z) : T :=
  match lookupHandle m handle with
  | None => Timestamp 0 (_sampleRate m)
  | Some c => Channel.getElapsedTime m c now
  end.

Definition getSoundElapsedTime m (handle : Z) (now : Z) : Z :=
  msecs (getElapsedTime m handle now).

Definition loopChannel m (handle : Z) : MixerImpl S R :=
  match lookupHandle m handle with
  | None => m
  | Some c => setSlot m (handleIndex handle) (Some (Channel.loop c))
  end.

(** [millis i] is the clock reading for the channel of slot [i]. *)
Definition pauseAll m (paused : bool) (millis : nat -> Z)
    : MixerImpl S R :=
  for_loop NUM_CHANNELS 0
    (fun i m =>
       match chanAt m i with
       | Some c => setSlot m i (Some (Channel.pause c paused (millis i)))
       | None => m
       end)
    m.

Definition pauseID m (id : Z) (paused : bool) (now : Z) : MixerImpl S R :=
  match
    for_loop_exit NUM_CHANNELS 0
      (fun i (_ : unit) =>
         match chanAt m i with
         | Some c =>
             if Channel.getId c =? id then
               Exit (setSlot m i (Some (Channel.pause c paused now)))
             else Next tt
         | None => Next tt
         end) tt
  with
  | Exit m' => m'
  | Next _ => m
  end.

Definition pauseHandle m (handle : Z) (paused : bool) (now : Z)
    : MixerImpl S R :=
  match lookupHandle m handle with
  | None => m
  | Some c =>
      setSlot m (handleIndex handle) (Some (Channel.pause c paused now))
  end.

Definition isSoundIDActive m (id : Z) : bool :=
  match
    for_loop_exit NUM_CHANNELS 0
      (fun i (_ : unit) =>
         match chanAt m i with
         | Some c => if Channel.getId c =? id then Exit true else Next tt
         | None => Next tt
         end) tt
  with
  | Exit b => b
  | Next _ => false
  end.

Definition getSoundID m (handle : Z) : Z :=
  match lookupHandle m handle with
  | Some c => Channel.getId c
  | None => 0
  end.

Definition isSoundHandleActive m (handle : Z) : bool :=
  match chanAt m (handleIndex handle) with
  | Some c => Channel.getHandle c =? handle
  | None => false
  end.

Definition hasActiveChannelOfType m (type : SoundType) : bool :=
  match
    for_loop_exit NUM_CHANNELS 0
      (fun i (_ : unit) =>
         match chanAt m i with
         | Some c =>
             if decide (Channel.getType c = type) then Exit true
             else Next tt
         | None => Next tt
         end) tt
  with
  | Exit b => b
  | Next _ => false
  end.

(** [CLIP<int>(v, lo, hi)] of common/util.h. *)
Definition CLIP (v lo hi : Z) : Z :=
  if v <? lo then lo else if v >? hi then hi else v.

Definition setVolumeForSoundType m (type : SoundType) (vol : Z)
    : MixerImpl S R :=
  let vol := CLIP vol 0 kMaxMixerVolume in
  let m :=
    set_soundTypeSettings m
      (fun t =>
         if decide (t = type) then
           mkSoundTypeSettings (mute (_soundTypeSettings m t)) vol
         else _soundTypeSettings m t) in
  notifyType m type.

Definition getVolumeForSoundType m (type : SoundType) : Z :=
  Mixer.getVolumeForSoundType m type.
End Methods.
End MixerImpl.

(** ** A small concrete engine

    Two slots, streams that count the sample pairs they still hold, a
    converter that passes them through, and timestamps in milliseconds.
    The examples at the end of the file run the engine on it. *)

Module Demo.
Definition config : MixerConfig :=
  {| NUM_CHANNELS := 2;
     AUDIO_REVERSE_STEREO := false;
     SoundHandle_default := 4294967295;
     SoundTypeSettings_default := mkSoundTypeSettings false 256 |}.

Record TestStream : Type := mkTestStream {
  pairsLeft : Z;
  nativeRate : Z
}.

Definition stream_ops : AudioStream TestStream :=
  {| endOfData := fun s => pairsLeft s <=? 0;
     endOfStream := fun s => pairsLeft s <=? 0;
     streamRate := nativeRate;
     isStereo := fun _ => false;
     isRewindable := fun _ => false;
     makeLoopingAudioStream := fun s _ => s |}.

(** The converter is its input rate; it never buffers. *)
Definition converter_ops : RateConverter TestStream Z :=
  {| makeRateConverter := fun inrate _ _ _ _ => inrate;
     needsDraining := fun _ => false;
     setInputRate := fun _ rate => rate;
     getInputRate := fun r => r;
     convert := fun r s buf len _ _ =>
       let n := Z.min len (pairsLeft s) in
       (r, mkTestStream (pairsLeft s - n) (nativeRate s), buf, n) |}.

(** A timestamp is a number of milliseconds and a frame rate. *)
Definition timestamp_ops : TimestampOps (Z * Z) :=
  {| Timestamp := fun ms rate => (ms, rate);
     addFrames := fun t n => (fst t + (n * 1000) `quot` snd t, snd t);
     addMsecs := fun t ms => (fst t + ms, snd t);
     msecs := fst |}.

Definition settings (muted : bool) (vol : Z) : SoundType -> SoundTypeSettings :=
  fun _ => mkSoundTypeSettings muted vol.

(** An engine without channels, after its first callback. *)
Definition engine : MixerImpl TestStream Z :=
  {| _sampleRate := 1000;
     _stereo := false;
     _outBufSize := 0;
     _mixerReady := true;
     _handleSeed := 0;
     _soundTypeSettings := settings false 256;
     _channels := [None; None] |}.

Definition channel (handle id level : Z) (s : TestStream)
    : Channel TestStream Z :=
  {| _type := kSFXSoundType;
     _handle := handle;
     _permanent := false;
     _pauseLevel := level;
     _id := id;
     _volume := 255;
     _balance := 0;
     _faderL := 255;
     _faderR := 255;
     _volL := 256;
     _volR := 256;
     _samplesConsumed := 0;
     _samplesDecoded := 0;
     _mixerTimeStamp := 0;
     _pauseStartTime := 0;
     _pauseTime := 0;
     _converter := 1000;
     _stream := s;
     _streamDispose := YES |}.

(** The engine with a finished channel (handle 0, id 7) in slot 0 and a
    channel that still holds ten sample pairs (handle 1, no id) in slot 1. *)
Definition busy : MixerImpl TestStream Z :=
  set_channels engine
    [Some (channel 0 7 0 (mkTestStream 0 1000));
     Some (channel 1 (-1) 0 (mkTestStream 10 1000))].

(** Two channels without id, in slots 0 and 1. *)
Definition twins : MixerImpl TestStream Z :=
  set_channels engine
    [Some (channel 0 (-1) 0 (mkTestStream 10 1000));
     Some (channel 1 (-1) 0 (mkTestStream 10 1000))].

(** A second kind of stream: a reel holds [ready] sample pairs at hand and
    [pending] pairs that arrive later, and may be rewindable; [Endless] is
    the looping stream built around another one. *)
Inductive Tape : Type :=
  | Reel (ready pending : Z) (rewindable : bool)
  | Endless (inner : Tape) (dispose : DisposeFlag).

Definition tape_ops : AudioStream Tape :=
  {| endOfData := fun s =>
       match s with
       | Reel ready _ _ => ready <=? 0
       | Endless _ _ => false
       end;
     endOfStream := fun s =>
       match s with
       | Reel ready pending _ => (ready <=? 0) && (pending <=? 0)
       | Endless _ _ => false
       end;
     streamRate := fun _ => 1000;
     isStereo := fun _ => false;
     isRewindable := fun s =>
       match s with
       | Reel _ _ rewindable => rewindable
       | Endless _ _ => false
       end;
     makeLoopingAudioStream := Endless |}.

Definition tape_converter_ops : RateConverter Tape Z :=
  {| makeRateConverter := fun inrate _ _ _ _ => inrate;
     needsDraining := fun _ => false;
     setInputRate := fun _ rate => rate;
     getInputRate := fun r => r;
     convert := fun r s buf len _ _ =>
       match s with
       | Reel ready pending rewindable =>
           let n := Z.min len ready in
           (r, Reel (ready - n) pending rewindable, buf, n)
       | Endless _ _ => (r, s, buf, len)
       end |}.

Definition tape_channel (handle level : Z) (s : Tape) (d : DisposeFlag)
    : Channel Tape Z :=
  {| _type := kMusicSoundType;
     _handle := handle;
     _permanent := false;
     _pauseLevel := level;
     _id := -1;
     _volume := 255;
     _balance := 0;
     _faderL := 255;
     _faderR := 255;
     _volL := 255;
     _volR := 255;
     _samplesConsumed := 0;
     _samplesDecoded := 0;
     _mixerTimeStamp := 0;
     _pauseStartTime := 0;
     _pauseTime := 0;
     _converter := 1000;
     _stream := s;
     _streamDispose := d |}.

(** An engine whose slot 0 holds a caller-owned rewindable reel that waits
    for data (handle 0) and whose slot 1 holds a paused reel (handle 1). *)
Definition waiting : MixerImpl Tape Z :=
  {| _sampleRate := 1000;
     _stereo := false;
     _outBufSize := 0;
     _mixerReady := false;
     _handleSeed := 1;
     _soundTypeSettings := settings false 256;
     _channels :=
       [Some (tape_channel 0 0 (Reel 0 5 true) NO);
        Some (tape_channel 1 1 (Reel 4 0 false) YES)] |}.

(** A permanent channel that still holds ten sample pairs (handle 1). *)
Definition keeper : Channel TestStream Z :=
  {| _type := kSFXSoundType;
     _handle := 1;
     _permanent := true;
     _pauseLevel := 0;
     _id := -1;
     _volume := 255;
     _balance := 0;
     _faderL := 255;
     _faderR := 255;
     _volL := 255;
     _volR := 255;
     _samplesConsumed := 0;
     _samplesDecoded := 0;
     _mixerTimeStamp := 0;
     _pauseStartTime := 0;
     _pauseTime := 0;
     _converter := 1000;
     _stream := mkTestStream 10 1000;
     _streamDispose := YES |}.

(** The engine with a finished channel in slot 0 and [keeper] in slot 1. *)
Definition guarded : MixerImpl TestStream Z :=
  set_channels engine
    [Some (channel 0 7 0 (mkTestStream 0 1000)); Some keeper].

(** An engine that has handed out three handles: the channel played last
    sits in slot 0 (handle 4 = 0 + 2 * 2) and slot 1 is free again. *)
Definition recycled : MixerImpl TestStream Z :=
  set_handleSeed
    (set_channels engine
       [Some (channel 4 (-1) 0 (mkTestStream 10 1000)); None])
    3.

(** A channel after two mixes of four sample pairs each, the second one
    when the clock read 100. *)
Definition played : Channel TestStream Z :=
  {| _type := kSFXSoundType;
     _handle := 1;
     _permanent := false;
     _pauseLevel := 0;
     _id := -1;
     _volume := 255;
     _balance := 0;
     _faderL := 255;
     _faderR := 255;
     _volL := 256;
     _volR := 256;
     _samplesConsumed := 4;
     _samplesDecoded := 8;
     _mixerTimeStamp := 100;
     _pauseStartTime := 0;
     _pauseTime := 0;
     _converter := 1000;
     _stream := mkTestStream 2 1000;
     _streamDispose := YES |}.
End Demo.

(** ** Reference formulas for the gains

    [gains] composes balance and fader over the divisor
    [kMaxChannelVolume]; [gains_over_256] is the same composition with the
    divisor 256. Both use the floor division of [Z]. *)

Definition gains_with (divisor : Z) (muted : bool)
    (categoryVolume channelVolume balance faderL faderR : Z) : Z * Z :=
  if muted then (0, 0)
  else
    let base := categoryVolume * channelVolume in
    let full := base / divisor in
    let left :=
      if 0 <? balance then ((127 - balance) * base) / (divisor * 127)
      else full in
    let right :=
      if balance <? 0 then ((127 + balance) * base) / (divisor * 127)
      else full in
    (left * faderL / 255, right * faderR / 255).

Definition gains : bool -> Z -> Z -> Z -> Z -> Z -> Z * Z :=
  gains_with kMaxChannelVolume.

Definition gains_over_256 : bool -> Z -> Z -> Z -> Z -> Z -> Z * Z :=
  gains_with 256.

(** ** The slot table as a list

    [sweep_slots g i l a] visits the slots of [l] from left to right, the
    first one having index [i]; [g] rewrites one slot and threads the
    accumulator [a]. *)

Fixpoint sweep_slots {C A : Type} (g : nat -> option C -> A -> option C * A)
    (i : nat) (l : list (option C)) (a : A) : list (option C) * A :=
  match l with
  | [] => ([], a)
  | o :: l' =>
      let '(o', a') := g i o a in
      let '(l'', a'') := sweep_slots g (S i) l' a' in
      (o' :: l'', a'')
  end.

(** The largest element of a list, zero for the empty list. *)
Definition max_list (l : list Z) : Z := foldr Z.max 0 l.

Section Reference.
Context {cfg : MixerConfig} {S R T : Type}.
Context `{!AudioStream S} `{!RateConverter S R} `{!TimestampOps T}.
Implicit Types (m : MixerImpl S R) (c : Channel S R).

(** The slot table has the size of the array [_channels]. *)
Definition wf m : Prop := length (_channels m) = NUM_CHANNELS.

(** One slot of a mixing cycle, as the design describes it: an
    occupied slot whose channel is finished is destroyed and emptied;
    otherwise a channel that is not paused is mixed into the buffer.  The
    accumulator holds the buffer, the frame counts that the mixed channels
    produced so far, and the log. *)
Definition mixSlot (len : Z) (millis : nat -> Z) (i : nat)
    (o : option (Channel S R)) (a : list Z * list Z * list (Event S R))
    : option (Channel S R) * (list Z * list Z * list (Event S R)) :=
  let '(buf, produced, log) := a in
  match o with
  | None => (None, a)
  | Some c =>
      if Channel.isFinished c then
        (None, (buf, produced, log ++ Channel.dtor c))
      else if Channel.isPaused c then (Some c, a)
      else
        let '(c', buf', frames) := Channel.mix c buf len (millis i) in
        (Some c', (buf', produced ++ [frames], log))
  end.

(** The sample-pair count that [mixCallback] derives from the byte
    count, and the alignment that it asserts. *)
Definition pairCount m (len : Z) : Z :=
  if _stereo m then Z.shiftr len 2 else Z.shiftr len 1.

Definition aligned m (len : Z) : Prop :=
  if _stereo m then len `rem` 4 = 0 else len `rem` 2 = 0.

(** What a mixing cycle logs for one slot. *)
Definition reaped (o : option (Channel S R)) : list (Event S R) :=
  match o with
  | Some c => if Channel.isFinished c then Channel.dtor c else []
  | None => []
  end.

(** What no operation changes in a channel that stays in its slot. *)
Definition same_identity c c' : Prop :=
  _id c' = _id c /\ _handle c' = _handle c /\
  _type c' = _type c /\ _permanent c' = _permanent c.

(** A slot keeps its channel or loses it. *)
Definition slot_kept (o o' : option (Channel S R)) : Prop :=
  match o' with
  | None => True
  | Some c' =>
      match o with
      | Some c => same_identity c c'
      | None => False
      end
  end.

(** No channel is added and the generation counter stands still. *)
Definition evolves m m' : Prop :=
  length (_channels m') = length (_channels m) /\
  _handleSeed m' = _handleSeed m /\
  forall i, slot_kept (chanAt m i) (chanAt m' i).

(** The number of occupied slots. *)
Definition occupied m : nat :=
  length (filter (fun o => is_Some o) (_channels m)).

(** The control operations and the callback, as requests. *)
Inductive Op : Type :=
  | PlayStream (type : SoundType) (handle : option Z) (stream : option S)
      (id volume balance : Z) (autofreeStream : DisposeFlag)
      (permanent reverseStereo : bool)
  | MixCallback (samples : option (list Z)) (len : Z) (millis : nat -> Z)
  | SetReady (ready : bool)
  | StopAll
  | StopID (id : Z)
  | StopHandle (handle : Z)
  | MuteSoundType (type : SoundType) (mute : bool)
  | SetVolumeForSoundType (type : SoundType) (vol : Z)
  | SetChannelVolume (handle volume : Z)
  | SetChannelBalance (handle balance : Z)
  | SetChannelFaderL (handle faderL : Z)
  | SetChannelFaderR (handle faderR : Z)
  | SetChannelRate (handle rate : Z)
  | ResetChannelRate (handle : Z)
  | LoopChannel (handle : Z)
  | PauseAll (paused : bool) (millis : nat -> Z)
  | PauseID (id : Z) (paused : bool) (now : Z)
  | PauseHandle (handle : Z) (paused : bool) (now : Z).

(** The engine after one request. *)
Definition step m (op : Op) : Result (MixerImpl S R) :=
  match op with
  | PlayStream type handle stream id volume balance autofree permanent
      reverseStereo =>
      match
        MixerImpl.playStream m type handle stream id volume balance
          autofree permanent reverseStereo
      with
      | Ok (m', _, _) => Ok m'
      | AssertionFailed => AssertionFailed
      end
  | MixCallback samples len millis =>
      match MixerImpl.mixCallback m samples len millis with
      | Ok (m', _, _, _) => Ok m'
      | AssertionFailed => AssertionFailed
      end
  | SetReady ready => Ok (MixerImpl.setReady m ready)
  | StopAll => Ok (fst (MixerImpl.stopAll m))
  | StopID id => Ok (fst (MixerImpl.stopID m id))
  | StopHandle handle => Ok (fst (MixerImpl.stopHandle m handle))
  | MuteSoundType type mute => Ok (MixerImpl.muteSoundType m type mute)
  | SetVolumeForSoundType type vol =>
      Ok (MixerImpl.setVolumeForSoundType m type vol)
  | SetChannelVolume handle volume =>
      Ok (MixerImpl.setChannelVolume m handle volume)
  | SetChannelBalance handle balance =>
      Ok (MixerImpl.setChannelBalance m handle balance)
  | SetChannelFaderL handle faderL =>
      Ok (MixerImpl.setChannelFaderL m handle faderL)
  | SetChannelFaderR handle faderR =>
      Ok (MixerImpl.setChannelFaderR m handle faderR)
  | SetChannelRate handle rate => Ok (MixerImpl.setChannelRate m handle rate)
  | ResetChannelRate handle => Ok (MixerImpl.resetChannelRate m handle)
  | LoopChannel handle => Ok (MixerImpl.loopChannel m handle)
  | PauseAll paused millis => Ok (MixerImpl.pauseAll m paused millis)
  | PauseID id paused now => Ok (MixerImpl.pauseID m id paused now)
  | PauseHandle handle paused now =>
      Ok (MixerImpl.pauseHandle m handle paused now)
  end.

(** The engine after a sequence of requests. *)
Fixpoint run m (ops : list Op) : Result (MixerImpl S R) :=
  match ops with
  | [] => Ok m
  | op :: ops' =>
      match step m op with
      | Ok m' => run m' ops'
      | AssertionFailed => AssertionFailed
      end
  end.
(** The channel that [playStream] builds for a request. *)
Definition newChannel m (type : SoundType) (stream : S) (id volume balance : Z)
    (autofreeStream : DisposeFlag) (permanent reverseStereo : bool)
    : Channel S R :=
  Channel.setBalance m
    (Channel.setVolume m
       (Channel.ctor m type stream autofreeStream
          (if AUDIO_REVERSE_STEREO then negb reverseStereo
           else reverseStereo) id permanent)
       volume)
    balance.

(** The engine after a successful insertion into slot [i]. *)
Definition inserted m (i : nat) (chan : Channel S R) : MixerImpl S R :=
  set_handleSeed
    (setSlot m i
       (Some (Channel.setHandle chan
                (wrap_uint32
                   (Z.of_nat i + _handleSeed m * Z.of_nat NUM_CHANNELS)))))
    (wrap_uint32 (_handleSeed m + 1)).

(** No two slots hold channels with the same id, the sentinel -1 apart. *)
Definition unique_ids m : Prop :=
  forall i j ci cj,
    chanAt m i = Some ci -> chanAt m j = Some cj ->
    _id ci = _id cj -> _id ci <> -1 -> i = j.

(** [successful_plays m n m']: [n] play requests in a row, each of which
    put a channel into a slot, lead from [m] to [m']. *)
Inductive successful_plays : MixerImpl S R -> nat -> MixerImpl S R -> Prop :=
  | plays_done m : successful_plays m 0 m
  | plays_more m type handle stream id volume balance autofree permanent
      reverseStereo m1 handle1 log n m2 :
      MixerImpl.playStream m type handle (Some stream) id volume balance
        autofree permanent reverseStereo = Ok (m1, handle1, log) ->
      occupied m1 = Datatypes.S (occupied m) ->
      successful_plays m1 n m2 ->
      successful_plays m (Datatypes.S n) m2.

(** The gains of [c] are what [updateChannelVolumes] yields from the
    settings that the engine holds now. *)
Definition gains_current m c : Prop :=
  _volL (Channel.updateChannelVolumes m c) = _volL c /\
  _volR (Channel.updateChannelVolumes m c) = _volR c.

(** No channel of the table has stale gains. *)
Definition gains_fresh m : Prop :=
  forall i c, chanAt m i = Some c -> gains_current m c.

(** Every channel sits in the slot that its own handle names. *)
Definition handles_name_slots m : Prop :=
  forall i c,
    chanAt m i = Some c -> MixerImpl.handleIndex (_handle c) = i.

(** The requests that can create a channel. *)
Definition is_play (op : Op) : bool :=
  match op with
  | PlayStream _ _ _ _ _ _ _ _ _ => true
  | _ => false
  end.

(** What the gains of a channel are computed from, besides the settings of
    its sound type. *)
Definition gain_inputs c : SoundType * Z * Z * Z * Z :=
  (_type c, _volume c, _balance c, _faderL c, _faderR c).

End Reference.

(** Repeated [pause(paused)], one clock reading per call. *)
Definition pauseMany {S R : Type} (c : Channel S R) (paused : bool)
    (times : list Z) : Channel S R :=
  foldl (fun c now => Channel.pause c paused now) c times.


(** * Properties *)

(** ** Arithmetic of the machine integers *)

Lemma wrap_uint32_small z : 0 <= z < 2 ^ 32 -> wrap_uint32 z = z.
Proof. intros Hz. unfold wrap_uint32. apply Z.mod_small. exact Hz. Qed.

Lemma wrap_uint32_range z : 0 <= wrap_uint32 z < 2 ^ 32.
Proof. unfold wrap_uint32. apply Z.mod_pos_bound. lia. Qed.

Lemma wrap_int_small z : - 2 ^ 31 <= z <= INT_MAX -> wrap_int z = z.
Proof.
  unfold wrap_int, INT_MAX. intros Hz.
  rewrite Z.mod_small by lia. lia.
Qed.

Lemma st_volume_t_small z : 0 <= z < 2 ^ 16 -> st_volume_t z = z.
Proof. intros Hz. unfold st_volume_t. apply Z.mod_small. exact Hz. Qed.

Lemma quot_div_nonneg a b : 0 <= a -> 0 < b -> a `quot` b = a / b.
Proof. intros Ha Hb. apply Z.quot_div_nonneg; assumption. Qed.

Lemma div_bounds a b M : 0 < b -> 0 <= a <= M * b -> 0 <= a / b <= M.
Proof.
  intros Hb [Ha HM]. split.
  - apply Z.div_pos; lia.
  - apply Z.div_le_upper_bound; lia.
Qed.

(** ** Gain recomputation *)

Section Gains.
Context {S R : Type}.
Implicit Types (mixer : MixerImpl S R) (c : Channel S R).

Lemma updateChannelVolumes_muted mixer c :
  Mixer.isSoundTypeMuted mixer (_type c) = true ->
  _volL (Channel.updateChannelVolumes mixer c) = 0 /\
  _volR (Channel.updateChannelVolumes mixer c) = 0.
Proof.
  intros Hm. unfold Channel.updateChannelVolumes. rewrite Hm. simpl. auto.
Qed.

(** Only the two effective gains are written. *)
Lemma updateChannelVolumes_frame mixer c :
  Channel.updateChannelVolumes mixer c =
  set_vols c (_volL (Channel.updateChannelVolumes mixer c))
    (_volR (Channel.updateChannelVolumes mixer c)).
Proof.
  unfold Channel.updateChannelVolumes.
  destruct (negb _); [|reflexivity].
  destruct (_balance c =? 0); [reflexivity|].
  destruct (_balance c <? 0); reflexivity.
Qed.

Lemma scaled_by_fader g f :
  0 <= g <= 256 -> 0 <= f <= 255 ->
  st_volume_t ((st_volume_t g * f) `quot` 255) = g * f / 255.
Proof.
  intros Hg Hf.
  rewrite (st_volume_t_small g) by lia.
  rewrite quot_div_nonneg by nia.
  assert (0 <= g * f / 255 <= 256) by (apply div_bounds; nia).
  apply st_volume_t_small. lia.
Qed.

Lemma updateChannelVolumes_formula mixer c :
  0 <= Mixer.getVolumeForSoundType mixer (_type c) <= kMaxMixerVolume ->
  0 <= _volume c <= 255 ->
  -127 <= _balance c <= 127 ->
  0 <= _faderL c <= 255 ->
  0 <= _faderR c <= 255 ->
  (_volL (Channel.updateChannelVolumes mixer c),
   _volR (Channel.updateChannelVolumes mixer c)) =
  gains (Mixer.isSoundTypeMuted mixer (_type c))
    (Mixer.getVolumeForSoundType mixer (_type c))
    (_volume c) (_balance c) (_faderL c) (_faderR c).
Proof.
  unfold kMaxMixerVolume. intros Hcat Hvol Hbal HfL HfR.
  unfold Channel.updateChannelVolumes, gains, gains_with, kMaxChannelVolume.
  set (cat := Mixer.getVolumeForSoundType mixer (_type c)) in *.
  destruct (Mixer.isSoundTypeMuted mixer (_type c)); simpl; [reflexivity|].
  assert (Hbase : 0 <= cat * _volume c <= 256 * 255) by nia.
  assert (Hfull : 0 <= (cat * _volume c) / 255 <= 256)
    by (apply div_bounds; lia).
  destruct (Z.eqb_spec (_balance c) 0) as [H0|H0].
  - rewrite H0. simpl.
    rewrite (quot_div_nonneg (cat * _volume c)) by lia.
    rewrite !scaled_by_fader by lia. reflexivity.
  - destruct (Z.ltb_spec (_balance c) 0) as [Hneg|Hpos].
    + assert (Hlt : (0 <? _balance c) = false) by (apply Z.ltb_ge; lia).
      rewrite Hlt. simpl.
      assert (0 <= ((127 + _balance c) * (cat * _volume c)) / (255 * 127)
              <= 256) by (apply div_bounds; nia).
      rewrite (quot_div_nonneg (cat * _volume c)) by lia.
      rewrite (quot_div_nonneg ((127 + _balance c) * (cat * _volume c)))
        by nia.
      rewrite !scaled_by_fader by lia. reflexivity.
    + assert (Hlt : (0 <? _balance c) = true) by (apply Z.ltb_lt; lia).
      rewrite Hlt. simpl.
      assert (0 <= ((127 - _balance c) * (cat * _volume c)) / (255 * 127)
              <= 256) by (apply div_bounds; nia).
      rewrite (quot_div_nonneg (cat * _volume c)) by lia.
      rewrite (quot_div_nonneg ((127 - _balance c) * (cat * _volume c)))
        by nia.
      rewrite !scaled_by_fader by lia. reflexivity.
Qed.
End Gains.

(** C1 (amended). Gain recomputation, for a category volume in 0..256, a
    channel volume in 0..255, a balance in -127..127 and faders in 0..255:
    a muted category gives two zero gains; otherwise, with
    base = categoryVolume * channelVolume, balance 0 gives both sides
    base / 255, a negative balance gives left = base / 255 and
    right = ((127 + balance) * base) / (255 * 127), a positive balance gives
    left = ((127 - balance) * base) / (255 * 127) and right = base / 255,
    and each side is then scaled as side * fader / 255, all divisions
    truncating.  Balance +127 gives a zero left gain, balance -127 a zero
    right gain, and balance 0 gives equal gains before the faders are
    applied (equal final gains when the two faders are equal). *)
Theorem updateChannelVolumes_gains {S R : Type}
    (mixer : MixerImpl S R) (c : Channel S R) :
  0 <= Mixer.getVolumeForSoundType mixer (_type c) <= kMaxMixerVolume ->
  0 <= _volume c <= 255 ->
  -127 <= _balance c <= 127 ->
  0 <= _faderL c <= 255 ->
  0 <= _faderR c <= 255 ->
  let c' := Channel.updateChannelVolumes mixer c in
  let base := Mixer.getVolumeForSoundType mixer (_type c) * _volume c in
  (Mixer.isSoundTypeMuted mixer (_type c) = true ->
   _volL c' = 0 /\ _volR c' = 0) /\
  (Mixer.isSoundTypeMuted mixer (_type c) = false ->
   (_balance c = 0 ->
    _volL c' = base / 255 * _faderL c / 255 /\
    _volR c' = base / 255 * _faderR c / 255) /\
   (_balance c < 0 ->
    _volL c' = base / 255 * _faderL c / 255 /\
    _volR c' =
      ((127 + _balance c) * base) / (255 * 127) * _faderR c / 255) /\
   (0 < _balance c ->
    _volL c' =
      ((127 - _balance c) * base) / (255 * 127) * _faderL c / 255 /\
    _volR c' = base / 255 * _faderR c / 255) /\
   (_balance c = 127 -> _volL c' = 0) /\
   (_balance c = -127 -> _volR c' = 0) /\
   (_balance c = 0 -> _faderL c = _faderR c -> _volL c' = _volR c')).
Proof.
  intros Hcat Hvol Hbal HfL HfR c' base.
  pose proof (updateChannelVolumes_formula mixer c Hcat Hvol Hbal HfL HfR)
    as Hform.
  fold c' in Hform. split.
  - intros Hm. apply updateChannelVolumes_muted. exact Hm.
  - intros Hm. rewrite Hm in Hform.
    unfold gains, gains_with, kMaxChannelVolume in Hform. fold base in Hform.
    injection Hform as HL HR.
    repeat split.
    + rewrite HL. replace (0 <? _balance c) with false; [reflexivity|].
      symmetry. apply Z.ltb_ge. lia.
    + rewrite HR. replace (_balance c <? 0) with false; [reflexivity|].
      symmetry. apply Z.ltb_ge. lia.
    + rewrite HL. replace (0 <? _balance c) with false; [reflexivity|].
      symmetry. apply Z.ltb_ge. lia.
    + rewrite HR. replace (_balance c <? 0) with true; [reflexivity|].
      symmetry. apply Z.ltb_lt. lia.
    + rewrite HL. replace (0 <? _balance c) with true; [reflexivity|].
      symmetry. apply Z.ltb_lt. lia.
    + rewrite HR. replace (_balance c <? 0) with false; [reflexivity|].
      symmetry. apply Z.ltb_ge. lia.
    + intros H127. rewrite HL, H127. simpl. reflexivity.
    + intros H127. rewrite HR, H127. simpl. reflexivity.
    + intros H0 Hf. rewrite HL, HR, H0, Hf. reflexivity.
Qed.

Lemma updateChannelVolumes_gains_witness :
  let mixer := Demo.engine in
  let c := Demo.channel 0 (-1) 0 (Demo.mkTestStream 10 1000) in
  (0 <= Mixer.getVolumeForSoundType mixer (_type c) <= kMaxMixerVolume /\
   0 <= _volume c <= 255 /\
   -127 <= _balance c <= 127 /\
   0 <= _faderL c <= 255 /\
   0 <= _faderR c <= 255) /\
  _volL (Channel.updateChannelVolumes mixer c) = 256 * 255 / 255 * 255 / 255.
Proof.
  intros mixer c.
  assert (H1 : 0 <= Mixer.getVolumeForSoundType mixer (_type c)
               <= kMaxMixerVolume) by (vm_compute; split; discriminate).
  assert (H2 : 0 <= _volume c <= 255) by (vm_compute; split; discriminate).
  assert (H3 : -127 <= _balance c <= 127)
    by (vm_compute; split; discriminate).
  assert (H4 : 0 <= _faderL c <= 255) by (vm_compute; split; discriminate).
  assert (H5 : 0 <= _faderR c <= 255) by (vm_compute; split; discriminate).
  split; [auto|].
  destruct (updateChannelVolumes_gains mixer c H1 H2 H3 H4 H5) as [_ Hun].
  destruct (Hun eq_refl) as [Hzero _].
  destruct (Hzero eq_refl) as [HL _]. exact HL.
Defined.

(** At full volume the code yields the gain 256, the divisor 256 yields
    255. *)
Lemma updateChannelVolumes_not_over_256 :
  let mixer := Demo.engine in
  let c := Demo.channel 0 (-1) 0 (Demo.mkTestStream 10 1000) in
  (_volL (Channel.updateChannelVolumes mixer c),
   _volR (Channel.updateChannelVolumes mixer c)) <>
  gains_over_256 (Mixer.isSoundTypeMuted mixer (_type c))
    (Mixer.getVolumeForSoundType mixer (_type c))
    (_volume c) (_balance c) (_faderL c) (_faderR c).
Proof. vm_compute. intros H. discriminate H. Qed.

(** ** Loops *)

Section Loops.
Context {St Ret : Type}.

Lemma for_loop_inv (P : nat -> St -> Prop) (body : nat -> St -> St) n :
  forall i s,
    P i s ->
    (forall j t, (i <= j < i + n)%nat -> P j t -> P (S j) (body j t)) ->
    P (i + n)%nat (for_loop n i body s).
Proof.
  induction n as [|n IH]; intros i s Hs Hstep; simpl.
  - replace (i + 0)%nat with i by lia. exact Hs.
  - replace (i + S n)%nat with (S i + n)%nat by lia.
    apply IH.
    + apply Hstep; [lia | exact Hs].
    + intros j t Hj. apply Hstep. lia.
Qed.

(** A step relation that is reflexive and transitive survives the loop. *)
Lemma for_loop_rel (Rel : St -> St -> Prop) (body : nat -> St -> St) :
  (forall s, Rel s s) ->
  (forall s t u, Rel s t -> Rel t u -> Rel s u) ->
  (forall j s, Rel s (body j s)) ->
  forall n i s, Rel s (for_loop n i body s).
Proof.
  intros Hrefl Htrans Hstep n. induction n as [|n IH]; intros i s; simpl.
  - apply Hrefl.
  - eapply Htrans; [apply Hstep | apply IH].
Qed.

(** A scan that does not change its state either runs to the end or
    leaves at the first index whose body exits. *)
Lemma for_loop_exit_scan (body : nat -> St -> Flow St Ret) s :
  (forall k, body k s = Next s \/ exists r, body k s = Exit r) ->
  forall n i,
    (for_loop_exit n i body s = Next s /\
     forall k, (i <= k < i + n)%nat -> body k s = Next s) \/
    (exists k r,
       (i <= k < i + n)%nat /\
       body k s = Exit r /\
       (forall j, (i <= j < k)%nat -> body j s = Next s) /\
       for_loop_exit n i body s = Exit r).
Proof.
  intros Hbody n. induction n as [|n IH]; intros i; simpl.
  - left. split; [reflexivity|]. intros k Hk. lia.
  - destruct (Hbody i) as [Hnext|[r Hexit]].
    + rewrite Hnext. destruct (IH (S i)) as [[Hrun Hall]|(k & r & Hk & Hx & Hbefore & Hrun)].
      * left. split; [exact Hrun|]. intros k Hk.
        destruct (decide (k = i)) as [->|Hne]; [exact Hnext|].
        apply Hall. lia.
      * right. exists k, r. split; [lia|]. split; [exact Hx|].
        split; [|exact Hrun]. intros j Hj.
        destruct (decide (j = i)) as [->|Hne]; [exact Hnext|].
        apply Hbefore. lia.
    + rewrite Hexit. right. exists i, r. split; [lia|].
      split; [exact Hexit|]. split; [|reflexivity]. intros j Hj. lia.
Qed.
End Loops.

(** ** Slots *)

Section Slots.
Context {S R : Type}.
Implicit Types (m : MixerImpl S R) (c : Channel S R)
  (o : option (Channel S R)) (l : list (option (Channel S R))).

Lemma set_channels_id m : set_channels m (_channels m) = m.
Proof. destruct m. reflexivity. Qed.

Lemma channels_set_channels m l : _channels (set_channels m l) = l.
Proof. reflexivity. Qed.

Lemma set_channels_twice m l l' :
  set_channels (set_channels m l) l' = set_channels m l'.
Proof. reflexivity. Qed.

Lemma chanAt_set_channels m l i o :
  l !! i = Some o -> chanAt (set_channels m l) i = o.
Proof. unfold chanAt. simpl. intros ->. destruct o; reflexivity. Qed.

Lemma chanAt_Some_lt m i c :
  chanAt m i = Some c -> (i < length (_channels m))%nat.
Proof.
  unfold chanAt. destruct (_channels m !! i) as [o|] eqn:E; [|discriminate].
  intros _. eapply lookup_lt_Some. exact E.
Qed.

Lemma chanAt_lookup m i c :
  chanAt m i = Some c <-> _channels m !! i = Some (Some c).
Proof.
  unfold chanAt. destruct (_channels m !! i) as [[c'|]|]; split;
    intros H; congruence.
Qed.

Lemma length_setSlot m i o :
  length (_channels (setSlot m i o)) = length (_channels m).
Proof. unfold setSlot. simpl. apply length_insert. Qed.

Lemma chanAt_setSlot_eq m i o :
  (i < length (_channels m))%nat -> chanAt (setSlot m i o) i = o.
Proof.
  intros Hi. unfold chanAt, setSlot. simpl.
  rewrite list_lookup_insert_eq by exact Hi. destruct o; reflexivity.
Qed.

Lemma chanAt_setSlot_ne m i k o :
  i <> k -> chanAt (setSlot m i o) k = chanAt m k.
Proof.
  intros Hne. unfold chanAt, setSlot. simpl.
  rewrite list_lookup_insert_ne by exact Hne. reflexivity.
Qed.

Lemma setSlot_same m i :
  (i < length (_channels m))%nat -> setSlot m i (chanAt m i) = m.
Proof.
  intros Hi. unfold setSlot.
  destruct (lookup_lt_is_Some_2 _ _ Hi) as [o Ho].
  rewrite list_insert_id; [apply set_channels_id|].
  unfold chanAt. rewrite Ho. destruct o; reflexivity.
Qed.
End Slots.

(** ** Index loops over the slot table are list traversals *)

Section Sweep.
Context {S R : Type} {St A B : Type}.
Implicit Types (m : MixerImpl S R) (l pre suf : list (option (Channel S R))).

Lemma sweep_slots_length {C : Type}
    (g : nat -> option C -> B -> option C * B) (xs : list (option C)) :
  forall i b, length (fst (sweep_slots g i xs b)) = length xs.
Proof.
  induction xs as [|o xs IH]; intros i b; simpl; [reflexivity|].
  destruct (g i o b) as [o' b'].
  specialize (IH (Datatypes.S i) b').
  destruct (sweep_slots g (Datatypes.S i) xs b') as [l'' b''].
  simpl in *. f_equal. exact IH.
Qed.

(** Slot [k] of the result is [g] applied to slot [k] of the input, at
    the accumulator that the traversal has reached there. *)
Lemma sweep_slots_lookup {C : Type}
    (g : nat -> option C -> B -> option C * B) (xs : list (option C)) :
  forall i b k o,
    xs !! k = Some o ->
    exists bk, fst (sweep_slots g i xs b) !! k = Some (fst (g (i + k)%nat o bk)).
Proof.
  induction xs as [|o' xs IH]; intros i b k o Hk; [discriminate|].
  simpl. destruct (g i o' b) as [o1 b1] eqn:Eg.
  destruct (sweep_slots g (Datatypes.S i) xs b1) as [l'' b''] eqn:Es.
  destruct k as [|k]; simpl in *.
  - injection Hk as ->. exists b. replace (i + 0)%nat with i by lia.
    rewrite Eg. reflexivity.
  - destruct (IH (Datatypes.S i) b1 k o Hk) as [bk Hbk].
    rewrite Es in Hbk. simpl in Hbk. exists bk.
    replace (i + Datatypes.S k)%nat with (Datatypes.S i + k)%nat by lia.
    exact Hbk.
Qed.

(** The loop [for (i = 0; i != n; i++)] whose body rewrites slot [i] as
    [g] says, up to a relation [Rel] between the accumulators. *)
Lemma for_loop_sweep m (mk : MixerImpl S R -> A -> St)
    (Rel : A -> B -> Prop)
    (g : nat -> option (Channel S R) -> B -> option (Channel S R) * B)
    (body : nat -> St -> St) :
  (forall i l o a b,
     l !! i = Some o -> Rel a b ->
     exists a',
       body i (mk (set_channels m l) a) =
         mk (set_channels m (<[i := fst (g i o b)]> l)) a' /\
       Rel a' (snd (g i o b))) ->
  forall suf pre a b,
    Rel a b ->
    exists a',
      for_loop (length suf) (length pre) body
        (mk (set_channels m (pre ++ suf)) a) =
        mk (set_channels m
              (pre ++ fst (sweep_slots g (length pre) suf b))) a' /\
      Rel a' (snd (sweep_slots g (length pre) suf b)).
Proof.
  intros Hbody suf. induction suf as [|o suf IH]; intros pre a b Hab.
  - simpl. exists a. split; [reflexivity | exact Hab].
  - simpl.
    destruct (Hbody (length pre) (pre ++ o :: suf) o a b) as (a1 & Hstep & Hrel).
    { apply list_lookup_middle. reflexivity. }
    { exact Hab. }
    rewrite Hstep. clear Hstep.
    destruct (g (length pre) o b) as [o1 b1]. simpl in *.
    replace (<[length pre := o1]> (pre ++ o :: suf))
      with ((pre ++ [o1]) ++ suf).
    2:{ replace (length pre) with (length pre + 0)%nat at 1 by lia.
        rewrite insert_app_r. simpl. rewrite <- app_assoc. reflexivity. }
    destruct (IH (pre ++ [o1]) a1 b1 Hrel) as (a2 & Hrun & Hrel2).
    rewrite length_app in Hrun, Hrel2. simpl in Hrun, Hrel2.
    replace (length pre + 1)%nat with (Datatypes.S (length pre)) in Hrun, Hrel2
      by lia.
    rewrite Hrun.
    destruct (sweep_slots g (Datatypes.S (length pre)) suf b1) as [l2 b2].
    simpl in *. exists a2. split; [|exact Hrel2].
    rewrite <- app_assoc. reflexivity.
Qed.
End Sweep.

Lemma max_list_snoc l x : max_list (l ++ [x]) = Z.max (max_list l) x.
Proof.
  unfold max_list. induction l as [|y l IH]; simpl; [lia|].
  rewrite IH. lia.
Qed.




Lemma gtb_max tmp res : (if tmp >? res then tmp else res) = Z.max res tmp.
Proof. rewrite Z.gtb_ltb. destruct (Z.ltb_spec res tmp); lia. Qed.

(** ** The mixing entry point *)

Section MixCallback.
Context {cfg : MixerConfig} {S R : Type}.
Context `{!AudioStream S} `{!RateConverter S R}.
Implicit Types (m : MixerImpl S R) (c : Channel S R).

Lemma mixCallback_sweep m samples len millis :
  wf m ->
  aligned m len ->
  exists slots buf produced log,
    sweep_slots (mixSlot (pairCount m len) millis) 0 (_channels m)
      (MixerImpl.memset_zero samples len, [], []) =
      (slots, (buf, produced, log)) /\
    MixerImpl.mixCallback m (Some samples) len millis =
      Ok (set_channels (set_mixerReady m true) slots, buf,
          max_list produced, log).
Proof.
  intros Hwf Hal. unfold MixerImpl.mixCallback. simpl.
  assert (Hal' : (if _stereo m then len `rem` 4 =? 0 else len `rem` 2 =? 0)
                 = true).
  { unfold aligned in Hal. destruct (_stereo m); apply Z.eqb_eq; exact Hal. }
  rewrite Hal'. simpl. fold (pairCount m len).
  set (m1 := set_mixerReady m true).
  set (buf0 := MixerImpl.memset_zero samples len).
  pose (mk := fun (m' : MixerImpl S R)
                  (a : list Z * Z * list (Event S R)) =>
                let '(buf, res, log) := a in (m', buf, res, log)).
  pose (Rel := fun (a : list Z * Z * list (Event S R))
                   (b : list Z * list Z * list (Event S R)) =>
                 let '(buf, res, log) := a in
                 let '(buf', produced, log') := b in
                 buf = buf' /\ res = max_list produced /\ log = log').
  destruct (for_loop_sweep m1 mk Rel (mixSlot (pairCount m len) millis)
              (fun i '(mi, buf, res, log) =>
                 match chanAt mi i with
                 | Some c =>
                     if Channel.isFinished c then
                       (setSlot mi i None, buf, res, log ++ Channel.dtor c)
                     else if negb (Channel.isPaused c) then
                       let '(c', buf', tmp) :=
                         Channel.mix c buf (pairCount m len) (millis i) in
                       (setSlot mi i (Some c'), buf',
                        if tmp >? res then tmp else res, log)
                     else (mi, buf, res, log)
                 | None => (mi, buf, res, log)
                 end))
    with (suf := _channels m) (pre := @nil (option (Channel S R)))
         (a := (buf0, 0, @nil (Event S R)))
         (b := (buf0, @nil Z, @nil (Event S R)))
    as (a' & Hrun & Hrel).
  - intros i l o [[buf res] log] [[buf' produced] log'] Hi (-> & -> & ->).
    simpl. rewrite (chanAt_set_channels m1 l i o Hi).
    destruct o as [c|]; simpl.
    + destruct (Channel.isFinished c).
      * exists (buf', max_list produced, log' ++ Channel.dtor c).
        split; [reflexivity|]. simpl. auto.
      * destruct (Channel.isPaused c); simpl.
        -- exists (buf', max_list produced, log').
           rewrite (list_insert_id l i (Some c) Hi).
           split; [reflexivity|]. simpl. auto.
        -- destruct (Channel.mix c buf' (pairCount m len) (millis i))
             as [[c' buf''] tmp].
           exists (buf'', Z.max (max_list produced) tmp, log').
           split; [rewrite gtb_max; reflexivity|]. simpl.
           rewrite max_list_snoc. auto.
    + exists (buf', max_list produced, log').
      rewrite (list_insert_id l i None Hi). split; [reflexivity|].
      simpl. auto.
  - simpl. auto.
  - simpl in Hrun. change (set_channels m1 (_channels m)) with m1 in Hrun.
    unfold wf in Hwf. rewrite Hwf in Hrun.
    destruct a' as [[buf' res] log']. unfold Rel in Hrel. simpl in Hrel.
    destruct (sweep_slots (mixSlot (pairCount m len) millis) 0 (_channels m)
                (buf0, [], [])) as [slots [[buf produced] log]] eqn:Es.
    simpl in Hrun, Hrel. destruct Hrel as (-> & -> & ->).
    exists slots, buf, produced, log. split; [reflexivity|].
    rewrite Hrun. reflexivity.
Qed.

(** What the traversal of a mixing cycle does slot by slot. *)
Lemma mixSlot_sweep len millis (l : list (option (Channel S R))) :
  forall i buf0 prod0 log0 slots buf prod log,
    sweep_slots (mixSlot len millis) i l (buf0, prod0, log0) =
      (slots, (buf, prod, log)) ->
    length slots = length l /\
    log = log0 ++ flat_map reaped l /\
    (exists new,
       prod = prod0 ++ new /\
       forall x, x ∈ new ->
         exists k c b,
           l !! k = Some (Some c) /\
           Channel.isFinished c = false /\ Channel.isPaused c = false /\
           x = snd (Channel.mix c b len (millis (i + k)%nat))) /\
    (forall k o,
       l !! k = Some o ->
       match o with
       | None => slots !! k = Some None
       | Some c =>
           if Channel.isFinished c then slots !! k = Some None
           else if Channel.isPaused c then slots !! k = Some (Some c)
           else
             exists b,
               slots !! k =
                 Some (Some (fst (fst (Channel.mix c b len
                                         (millis (i + k)%nat))))) /\
               snd (Channel.mix c b len (millis (i + k)%nat)) ∈ prod
       end) /\
    ((forall k c,
        l !! k = Some (Some c) ->
        Channel.isFinished c || Channel.isPaused c = true) ->
     buf = buf0 /\ prod = prod0).
Proof.
  induction l as [|o l IH];
    intros i buf0 prod0 log0 slots buf prod log Hs;
    cbn [sweep_slots] in Hs.
  - injection Hs as <- <- <- <-. split; [reflexivity|].
    split; [simpl; rewrite app_nil_r; reflexivity|].
    split; [exists []; split; [rewrite app_nil_r; reflexivity|]|].
    { intros x Hx. inversion Hx. }
    split; [intros k o Hk; discriminate|]. auto.
  - destruct (mixSlot len millis i o (buf0, prod0, log0))
      as [o1 [[buf1 prod1] log1]] eqn:Eg.
    destruct (sweep_slots (mixSlot len millis) (Datatypes.S i) l
                (buf1, prod1, log1)) as [l2 [[buf2 prod2] log2]] eqn:Es.
    injection Hs as <- <- <- <-.
    destruct (IH _ _ _ _ _ _ _ _ Es)
      as (Hlen & Hlog & (new & Hprod & Hnew) & Hslots & Hidle).
    assert (Hprod1 : exists new1,
              prod1 = prod0 ++ new1 /\
              forall x, x ∈ new1 ->
                exists c b,
                  o = Some c /\ Channel.isFinished c = false /\
                  Channel.isPaused c = false /\
                  x = snd (Channel.mix c b len (millis i))).
    { unfold mixSlot in Eg. destruct o as [c|].
      - destruct (Channel.isFinished c) eqn:Ef.
        + injection Eg as <- <- <- <-. exists []. rewrite app_nil_r.
          split; [reflexivity|]. intros x Hx. inversion Hx.
        + destruct (Channel.isPaused c) eqn:Ep.
          * injection Eg as <- <- <- <-. exists []. rewrite app_nil_r.
            split; [reflexivity|]. intros x Hx. inversion Hx.
          * destruct (Channel.mix c buf0 len (millis i))
              as [[c' b'] frames] eqn:Em.
            injection Eg as <- <- <- <-. exists [frames].
            split; [reflexivity|]. intros x Hx.
            apply list_elem_of_singleton in Hx as ->.
            exists c, buf0. rewrite Em. auto.
      - injection Eg as <- <- <- <-. exists []. rewrite app_nil_r.
        split; [reflexivity|]. intros x Hx. inversion Hx. }
    destruct Hprod1 as (new1 & Hprod1 & Hnew1).
    assert (Hlog1 : log1 = log0 ++ reaped o).
    { unfold mixSlot in Eg. unfold reaped. destruct o as [c|].
      - destruct (Channel.isFinished c).
        + injection Eg as <- <- <- <-. reflexivity.
        + destruct (Channel.isPaused c).
          * injection Eg as <- <- <- <-. rewrite app_nil_r. reflexivity.
          * destruct (Channel.mix c buf0 len (millis i)) as [[c' b'] frames].
            injection Eg as <- <- <- <-. rewrite app_nil_r. reflexivity.
      - injection Eg as <- <- <- <-. rewrite app_nil_r. reflexivity. }
    split; [simpl; f_equal; exact Hlen|].
    split; [simpl; rewrite Hlog, Hlog1, app_assoc; reflexivity|].
    split.
    { exists (new1 ++ new). split.
      - rewrite Hprod, Hprod1, app_assoc. reflexivity.
      - intros x Hx. apply elem_of_app in Hx as [Hx|Hx].
        + destruct (Hnew1 x Hx) as (c & b & -> & Hf & Hp & ->).
          exists 0%nat, c, b. replace (i + 0)%nat with i by lia. auto.
        + destruct (Hnew x Hx) as (k & c & b & Hk & Hf & Hp & ->).
          exists (Datatypes.S k), c, b.
          replace (i + Datatypes.S k)%nat with (Datatypes.S i + k)%nat by lia.
          auto. }
    split.
    { intros k o' Hk. destruct k as [|k]; simpl in Hk.
      - injection Hk as <-. replace (i + 0)%nat with i by lia.
        unfold mixSlot in Eg. destruct o as [c|].
        + destruct (Channel.isFinished c).
          * injection Eg as <- <- <- <-. reflexivity.
          * destruct (Channel.isPaused c).
            -- injection Eg as <- <- <- <-. reflexivity.
            -- exists buf0.
               destruct (Channel.mix c buf0 len (millis i))
                 as [[c' b'] frames].
               injection Eg as <- <- <- <-. split; [reflexivity|].
               rewrite Hprod. simpl. apply elem_of_app. left.
               apply elem_of_app. right. left.
        + injection Eg as <- <- <- <-. reflexivity.
      - specialize (Hslots k o' Hk).
        replace (i + Datatypes.S k)%nat with (Datatypes.S i + k)%nat by lia.
        exact Hslots. }
    intros Hall.
    assert (Hfirst : buf1 = buf0 /\ prod1 = prod0).
    { unfold mixSlot in Eg. destruct o as [c|].
      - specialize (Hall 0%nat c eq_refl).
        destruct (Channel.isFinished c).
        + injection Eg as <- <- <- <-. auto.
        + destruct (Channel.isPaused c); [|discriminate].
          injection Eg as <- <- <- <-. auto.
      - injection Eg as <- <- <- <-. auto. }
    destruct Hfirst as [-> ->].
    apply Hidle. intros k c Hk. apply (Hall (Datatypes.S k) c Hk).
Qed.
End MixCallback.

(** ** Queries *)

Section Queries.
Context {cfg : MixerConfig} {S R : Type}.
Implicit Types (m : MixerImpl S R) (c : Channel S R).

Lemma lookupHandle_Some m handle c :
  MixerImpl.lookupHandle m handle = Some c <->
  chanAt m (MixerImpl.handleIndex handle) = Some c /\ _handle c = handle.
Proof.
  unfold MixerImpl.lookupHandle, Channel.getHandle.
  destruct (chanAt m (MixerImpl.handleIndex handle)) as [c'|].
  - destruct (Z.eqb_spec (_handle c') handle) as [He|He]; split.
    + intros [= ->]. auto.
    + intros [[= ->] _]. reflexivity.
    + discriminate.
    + intros [[= ->] Hc]. contradiction.
  - split; [discriminate|]. intros [H _]. discriminate.
Qed.

Lemma lookupHandle_None m handle :
  MixerImpl.lookupHandle m handle = None <->
  forall c, chanAt m (MixerImpl.handleIndex handle) = Some c ->
            _handle c <> handle.
Proof.
  split.
  - intros Hnone c Hc He.
    assert (MixerImpl.lookupHandle m handle = Some c)
      by (apply lookupHandle_Some; auto).
    congruence.
  - intros Hall. destruct (MixerImpl.lookupHandle m handle) as [c|] eqn:E;
      [|reflexivity].
    apply lookupHandle_Some in E as [Hc He]. destruct (Hall c Hc He).
Qed.

Lemma isSoundHandleActive_lookup m handle :
  MixerImpl.isSoundHandleActive m handle = true <->
  exists c, MixerImpl.lookupHandle m handle = Some c.
Proof.
  unfold MixerImpl.isSoundHandleActive, MixerImpl.lookupHandle.
  destruct (chanAt m (MixerImpl.handleIndex handle)) as [c|].
  - destruct (Channel.getHandle c =? handle); split;
      try discriminate; eauto.
    intros [c' Hc']. discriminate.
  - split; [discriminate|]. intros [c' Hc']. discriminate.
Qed.

Lemma isSoundHandleActive_false m handle :
  MixerImpl.isSoundHandleActive m handle = false <->
  MixerImpl.lookupHandle m handle = None.
Proof.
  destruct (MixerImpl.isSoundHandleActive m handle) eqn:E.
  - apply isSoundHandleActive_lookup in E as [c Hc]. rewrite Hc.
    split; discriminate.
  - split; [|reflexivity]. intros _.
    destruct (MixerImpl.lookupHandle m handle) as [c|] eqn:El;
      [|reflexivity].
    assert (MixerImpl.isSoundHandleActive m handle = true)
      by (apply isSoundHandleActive_lookup; eauto).
    congruence.
Qed.

(** The scan for a channel that satisfies a test. *)
Lemma scan_for_channel {Ret : Type} m (test : Channel S R -> bool) (r : Ret)
    (body : nat -> unit -> Flow unit Ret) n :
  (forall i,
     body i tt =
       match chanAt m i with
       | Some c => if test c then Exit r else Next tt
       | None => Next tt
       end) ->
  match for_loop_exit n 0 body tt with
  | Exit b =>
      b = r /\
      exists i c, (i < n)%nat /\ chanAt m i = Some c /\ test c = true
  | Next _ =>
      forall i c, (i < n)%nat -> chanAt m i = Some c -> test c = false
  end.
Proof.
  intros Hbody.
  destruct (for_loop_exit_scan body tt) with (n := n) (i := 0%nat)
    as [[Hrun Hall]|(k & x & Hk & Hx & _ & Hrun)].
  - intros k. rewrite Hbody. destruct (chanAt m k) as [c|]; [|auto].
    destruct (test c); eauto.
  - rewrite Hrun. intros i c Hi Hc. specialize (Hall i ltac:(lia)).
    rewrite Hbody, Hc in Hall.
    destruct (test c); [discriminate|reflexivity].
  - rewrite Hrun. rewrite Hbody in Hx.
    destruct (chanAt m k) as [c|] eqn:Hc; [|discriminate].
    destruct (test c) eqn:Ht; [|discriminate].
    injection Hx as <-. split; [reflexivity|].
    exists k, c. split; [lia|]. auto.
Qed.

Lemma isSoundIDActive_true m id :
  MixerImpl.isSoundIDActive m id = true <->
  exists i c, (i < NUM_CHANNELS)%nat /\ chanAt m i = Some c /\ _id c = id.
Proof.
  unfold MixerImpl.isSoundIDActive, Channel.getId.
  match goal with
  | |- context [for_loop_exit _ _ ?b _] =>
      pose proof (scan_for_channel m (fun c => _id c =? id) true b
                    NUM_CHANNELS (fun i => eq_refl)) as Hscan
  end.
  simpl in Hscan.
  destruct (for_loop_exit _ _ _ _) as [[]|b].
  - split; [discriminate|]. intros (i & c & Hi & Hc & He).
    specialize (Hscan i c Hi Hc). apply Z.eqb_neq in Hscan. contradiction.
  - destruct Hscan as [-> (i & c & Hi & Hc & He)]. split; [|reflexivity].
    intros _. exists i, c. apply Z.eqb_eq in He. auto.
Qed.

Lemma hasActiveChannelOfType_true m type :
  MixerImpl.hasActiveChannelOfType m type = true <->
  exists i c, (i < NUM_CHANNELS)%nat /\ chanAt m i = Some c /\ _type c = type.
Proof.
  unfold MixerImpl.hasActiveChannelOfType, Channel.getType.
  match goal with
  | |- context [for_loop_exit _ _ ?b _] =>
      assert (Hscan := scan_for_channel m
                (fun c => bool_decide (_type c = type)) true b NUM_CHANNELS)
  end.
  simpl in Hscan.
  match type of Hscan with
  | ?P -> _ => assert (Hbody : P)
  end.
  { intros i. destruct (chanAt m i) as [c|]; [|reflexivity].
    destruct (decide (_type c = type)) as [He|He].
    - rewrite (bool_decide_eq_true_2 _ He). reflexivity.
    - rewrite (bool_decide_eq_false_2 _ He). reflexivity. }
  specialize (Hscan Hbody). clear Hbody.
  destruct (for_loop_exit _ _ _ _) as [[]|b].
  - split; [discriminate|]. intros (i & c & Hi & Hc & He).
    specialize (Hscan i c Hi Hc). apply bool_decide_eq_false in Hscan.
    contradiction.
  - destruct Hscan as [-> (i & c & Hi & Hc & He)]. split; [|reflexivity].
    intros _. exists i, c. apply bool_decide_eq_true in He. auto.
Qed.
End Queries.

(** ** What the channel methods leave alone *)

Section Identity.
Context {cfg : MixerConfig} {S R : Type}.
Context `{!AudioStream S} `{!RateConverter S R}.
Implicit Types (m mixer : MixerImpl S R) (c : Channel S R).

Lemma same_identity_refl c : same_identity c c.
Proof. unfold same_identity. auto. Qed.

Lemma same_identity_trans c1 c2 c3 :
  same_identity c1 c2 -> same_identity c2 c3 -> same_identity c1 c3.
Proof.
  unfold same_identity. intros (? & ? & ? & ?) (? & ? & ? & ?).
  repeat split; congruence.
Qed.

Lemma updateChannelVolumes_identity mixer c :
  same_identity c (Channel.updateChannelVolumes mixer c).
Proof.
  rewrite updateChannelVolumes_frame. unfold same_identity. simpl. auto.
Qed.

Lemma setVolume_identity mixer c v :
  same_identity c (Channel.setVolume mixer c v).
Proof.
  unfold Channel.setVolume.
  eapply same_identity_trans; [|apply updateChannelVolumes_identity].
  unfold same_identity. simpl. auto.
Qed.

Lemma setBalance_identity mixer c b :
  same_identity c (Channel.setBalance mixer c b).
Proof.
  unfold Channel.setBalance.
  eapply same_identity_trans; [|apply updateChannelVolumes_identity].
  unfold same_identity. simpl. auto.
Qed.

Lemma setFaderL_identity mixer c f :
  same_identity c (Channel.setFaderL mixer c f).
Proof.
  unfold Channel.setFaderL.
  eapply same_identity_trans; [|apply updateChannelVolumes_identity].
  unfold same_identity. simpl. auto.
Qed.

Lemma setFaderR_identity mixer c f :
  same_identity c (Channel.setFaderR mixer c f).
Proof.
  unfold Channel.setFaderR.
  eapply same_identity_trans; [|apply updateChannelVolumes_identity].
  unfold same_identity. simpl. auto.
Qed.

Lemma setRate_identity c rate : same_identity c (Channel.setRate c rate).
Proof. unfold same_identity. simpl. auto. Qed.

Lemma resetRate_identity c : same_identity c (Channel.resetRate c).
Proof. unfold same_identity. simpl. auto. Qed.

Lemma loop_identity c : same_identity c (Channel.loop c).
Proof.
  unfold Channel.loop. destruct (isRewindable (_stream c));
    unfold same_identity; simpl; auto.
Qed.

Lemma pause_identity c paused now :
  same_identity c (Channel.pause c paused now).
Proof.
  unfold Channel.pause. destruct paused.
  - destruct (_ =? 1); unfold same_identity; simpl; auto.
  - destruct (_pauseLevel c >? 0); [|apply same_identity_refl].
    destruct (_ =? 0); unfold same_identity; simpl; auto.
Qed.

Lemma mix_identity c data len now :
  same_identity c (fst (fst (Channel.mix c data len now))).
Proof.
  unfold Channel.mix.
  destruct (negb (endOfData (_stream c)) || needsDraining (_converter c));
    [|apply same_identity_refl].
  destruct (convert _ _ _ _ _ _) as [[[r s] data'] res].
  unfold same_identity. simpl. auto.
Qed.
End Identity.

Section MixCycle.
Context {cfg : MixerConfig} {S R : Type}.
Context `{!AudioStream S} `{!RateConverter S R}.
Implicit Types (m : MixerImpl S R) (c : Channel S R).

End MixCycle.

(** ** Nested pauses *)

Section Pause.
Context {cfg : MixerConfig} {S R T : Type}.
Context `{!AudioStream S} `{!RateConverter S R} `{!TimestampOps T}.
Implicit Types (m mixer : MixerImpl S R) (c : Channel S R).

Lemma pause_true c now :
  0 <= _pauseLevel c < INT_MAX ->
  Channel.pause c true now =
  set_pause c (_pauseLevel c + 1)
    (if _pauseLevel c =? 0 then now else _pauseStartTime c) (_pauseTime c).
Proof.
  intros Hl. unfold Channel.pause.
  rewrite wrap_int_small by (unfold INT_MAX in *; lia).
  destruct (Z.eqb_spec (_pauseLevel c + 1) 1) as [H1|H1];
    destruct (Z.eqb_spec (_pauseLevel c) 0) as [H0|H0];
    try lia; reflexivity.
Qed.

Lemma pause_false_zero c now :
  _pauseLevel c <= 0 -> Channel.pause c false now = c.
Proof.
  intros Hl. unfold Channel.pause.
  replace (_pauseLevel c >? 0) with false; [reflexivity|].
  symmetry. rewrite Z.gtb_ltb. apply Z.ltb_ge. exact Hl.
Qed.

Lemma pause_false_pos c now :
  0 < _pauseLevel c <= INT_MAX ->
  Channel.pause c false now =
  if _pauseLevel c =? 1 then
    set_pause c 0 0 (wrap_uint32 (now - _pauseStartTime c))
  else
    set_pause c (_pauseLevel c - 1) (_pauseStartTime c) (_pauseTime c).
Proof.
  intros Hl. unfold Channel.pause.
  replace (_pauseLevel c >? 0) with true
    by (symmetry; rewrite Z.gtb_ltb; apply Z.ltb_lt; lia).
  rewrite wrap_int_small by (unfold INT_MAX in *; lia).
  destruct (Z.eqb_spec (_pauseLevel c - 1) 0) as [H1|H1];
    destruct (Z.eqb_spec (_pauseLevel c) 1) as [H0|H0]; try lia.
  - rewrite H1. reflexivity.
  - reflexivity.
Qed.

Lemma pauseMany_true_level times :
  forall c,
    0 <= _pauseLevel c ->
    _pauseLevel c + Z.of_nat (length times) <= INT_MAX ->
    _pauseLevel (pauseMany c true times) =
    _pauseLevel c + Z.of_nat (length times).
Proof.
  unfold pauseMany.
  induction times as [|t times IH]; intros c H0 Hmax;
    cbn [foldl length] in *; [lia|].
  rewrite IH; rewrite pause_true by lia; cbn [_pauseLevel set_pause]; lia.
Qed.

Lemma pauseMany_false_level times :
  forall c,
    0 <= _pauseLevel c <= INT_MAX ->
    _pauseLevel (pauseMany c false times) =
    Z.max 0 (_pauseLevel c - Z.of_nat (length times)).
Proof.
  unfold pauseMany.
  induction times as [|t times IH]; intros c Hl;
    cbn [foldl length] in *; [lia|].
  destruct (Z.eq_dec (_pauseLevel c) 0) as [H0|H0].
  - rewrite pause_false_zero by lia. rewrite IH by lia. lia.
  - rewrite IH; rewrite pause_false_pos by lia;
      destruct (Z.eqb_spec (_pauseLevel c) 1);
      cbn [_pauseLevel set_pause]; lia.
Qed.

Lemma getElapsedTime_paused mixer c now1 now2 :
  Channel.isPaused c = true ->
  Channel.getElapsedTime (T := T) mixer c now1 =
  Channel.getElapsedTime mixer c now2.
Proof.
  intros Hp. unfold Channel.getElapsedTime. rewrite Hp. reflexivity.
Qed.

(** A cycle leaves a paused channel that is not finished in its slot as
    it is, and mixes one that is not paused. *)
Lemma mixCallback_slot m i c samples len millis :
  wf m ->
  aligned m len ->
  chanAt m i = Some c ->
  Channel.isFinished c = false ->
  match MixerImpl.mixCallback m (Some samples) len millis with
  | AssertionFailed => False
  | Ok (m', _, _, _) =>
      if Channel.isPaused c then chanAt m' i = Some c
      else
        exists b,
          chanAt m' i =
            Some (fst (fst (Channel.mix c b (pairCount m len) (millis i))))
  end.
Proof.
  intros Hwf Hal Hc Hnf.
  destruct (mixCallback_sweep m samples len millis Hwf Hal)
    as (slots & buf & produced & log & Es & Hcall).
  rewrite Hcall.
  destruct (mixSlot_sweep _ _ _ _ _ _ _ _ _ _ _ Es)
    as (_ & _ & _ & Hslots & _).
  apply chanAt_lookup in Hc. specialize (Hslots i (Some c) Hc).
  simpl in Hslots. rewrite Hnf in Hslots.
  destruct (Channel.isPaused c).
  - apply (chanAt_set_channels (set_mixerReady m true) slots i _ Hslots).
  - destruct Hslots as (b & Hb & _). exists b.
    apply (chanAt_set_channels (set_mixerReady m true) slots i _ Hb).
Qed.

(** C4 (amended). Nested pauses, for a channel whose depth is an [int]
    below its maximum: [pause(true)] increments the depth and only the
    step from 0 to 1 records the pause start; [pause(false)] at depth 0 is
    ignored, so the depth never becomes negative, otherwise it decrements
    the depth, and only the step back to 0 stores (now - pauseStart),
    modulo 2^32, as the paused duration, in place of the value held
    before, and clears the pause start.  After N pauses from depth 0 the
    channel is paused until exactly N unpauses were made; a cycle of the
    callback leaves a paused channel untouched and mixes an unpaused one;
    the elapsed time of a paused channel does not depend on the clock. *)
Theorem pause_nesting c :
  0 <= _pauseLevel c < INT_MAX ->
  (forall now,
     Channel.pause c true now =
     set_pause c (_pauseLevel c + 1)
       (if _pauseLevel c =? 0 then now else _pauseStartTime c)
       (_pauseTime c)) /\
  (forall now,
     0 <= _pauseLevel (Channel.pause c false now) /\
     (_pauseLevel c = 0 -> Channel.pause c false now = c) /\
     (_pauseLevel c = 1 ->
      Channel.pause c false now =
      set_pause c 0 0 (wrap_uint32 (now - _pauseStartTime c))) /\
     (1 < _pauseLevel c ->
      Channel.pause c false now =
      set_pause c (_pauseLevel c - 1) (_pauseStartTime c) (_pauseTime c))) /\
  (forall pauses unpauses,
     _pauseLevel c = 0 ->
     Z.of_nat (length pauses) <= INT_MAX ->
     (Channel.isPaused (pauseMany (pauseMany c true pauses) false unpauses)
        = true <->
      (length unpauses < length pauses)%nat)) /\
  (forall mixer now1 now2,
     Channel.isPaused c = true ->
     Channel.getElapsedTime (T := T) mixer c now1 =
     Channel.getElapsedTime mixer c now2) /\
  (forall m i samples len millis,
     wf m -> aligned m len ->
     chanAt m i = Some c -> Channel.isFinished c = false ->
     match MixerImpl.mixCallback m (Some samples) len millis with
     | AssertionFailed => False
     | Ok (m', _, _, _) =>
         if Channel.isPaused c then chanAt m' i = Some c
         else
           exists b,
             chanAt m' i =
               Some (fst (fst (Channel.mix c b (pairCount m len)
                                 (millis i))))
     end).
Proof.
  intros Hl. split; [intros now; apply pause_true; exact Hl|].
  split.
  { intros now.
    destruct (Z.eq_dec (_pauseLevel c) 0) as [H0|H0].
    - rewrite pause_false_zero by lia.
      repeat split; try lia; reflexivity.
    - rewrite pause_false_pos by lia.
      destruct (Z.eqb_spec (_pauseLevel c) 1) as [H1|H1]; simpl;
        repeat split; try lia; reflexivity. }
  split.
  { intros pauses unpauses H0 Hmax. unfold Channel.isPaused.
    rewrite pauseMany_false_level;
      rewrite pauseMany_true_level by lia; [|lia].
    rewrite H0. rewrite negb_true_iff, Z.eqb_neq. lia. }
  split; [intros mixer now1 now2; apply getElapsedTime_paused|].
  intros m i samples len millis. apply mixCallback_slot.
Qed.
End Pause.

(** ** Elapsed time *)

Section Elapsed.
Context {cfg : MixerConfig} {S R T : Type}.
Context `{!AudioStream S} `{!RateConverter S R} `{!TimestampOps T}.
Implicit Types (m mixer : MixerImpl S R) (c : Channel S R).

(** A mix that does work stamps the channel with the clock and checkpoints
    the frames decoded so far; an idle mix changes nothing. *)
Lemma mix_timestamp c data len now :
  let c' := fst (fst (Channel.mix c data len now)) in
  if negb (endOfData (_stream c)) || needsDraining (_converter c) then
    _mixerTimeStamp c' = now /\
    _samplesConsumed c' = _samplesDecoded c /\
    _pauseTime c' = 0
  else c' = c.
Proof.
  unfold Channel.mix.
  destruct (negb (endOfData (_stream c)) || needsDraining (_converter c));
    [|reflexivity].
  destruct (convert _ _ _ _ _ _) as [[[r s] data'] res]. simpl. auto.
Qed.

(** Apart from [mix], no method writes the time of the last mix. *)
Lemma control_keeps_mixerTimeStamp mixer c :
  (forall v, _mixerTimeStamp (Channel.setVolume mixer c v) = _mixerTimeStamp c) /\
  (forall b, _mixerTimeStamp (Channel.setBalance mixer c b) = _mixerTimeStamp c) /\
  (forall f, _mixerTimeStamp (Channel.setFaderL mixer c f) = _mixerTimeStamp c) /\
  (forall f, _mixerTimeStamp (Channel.setFaderR mixer c f) = _mixerTimeStamp c) /\
  _mixerTimeStamp (Channel.notifyGlobalVolChange mixer c) = _mixerTimeStamp c /\
  (forall h, _mixerTimeStamp (Channel.setHandle c h) = _mixerTimeStamp c) /\
  (forall r, _mixerTimeStamp (Channel.setRate c r) = _mixerTimeStamp c) /\
  _mixerTimeStamp (Channel.resetRate c) = _mixerTimeStamp c /\
  _mixerTimeStamp (Channel.loop c) = _mixerTimeStamp c /\
  (forall p now, _mixerTimeStamp (Channel.pause c p now) = _mixerTimeStamp c).
Proof.
  unfold Channel.setVolume, Channel.setBalance, Channel.setFaderL,
    Channel.setFaderR, Channel.notifyGlobalVolChange.
  repeat split; intros;
    try (rewrite updateChannelVolumes_frame; reflexivity);
    try reflexivity.
  - unfold Channel.loop. destruct (isRewindable (_stream c)); reflexivity.
  - unfold Channel.pause. destruct p.
    + destruct (_ =? 1); reflexivity.
    + destruct (_pauseLevel c >? 0); [|reflexivity].
      destruct (_ =? 0); reflexivity.
Qed.

(** C5 (amended). [getElapsedTime] tests the time stamp of the last mix,
    not whether a mix took place.  The stamp is 0 for a channel that was
    never mixed (the constructor writes 0 and [mix] alone overwrites it,
    with the clock) and also for a channel whose last mix that did work
    read the clock at 0; in both cases the result is the zero timestamp.
    Otherwise the result is the checkpointed frames-consumed count added
    as frames to the zero timestamp at the output rate, plus
    (pauseStart - lastMixTimestamp) milliseconds when the channel is
    paused, or (now - lastMixTimestamp - accumulatedPause) milliseconds
    when it is not, in 32-bit unsigned arithmetic.  The number of frames
    decoded does not enter the result, which is therefore not clamped by
    it.  Through a handle that names no live channel the engine returns
    the zero timestamp. *)
Theorem getElapsedTime_value mixer c now :
  let zero := Timestamp (T := T) 0 (Mixer.getOutputRate mixer) in
  (_mixerTimeStamp c = 0 -> Channel.getElapsedTime mixer c now = zero) /\
  (_mixerTimeStamp c <> 0 ->
   Channel.getElapsedTime mixer c now =
   addMsecs (addFrames zero (_samplesConsumed c))
     (if Channel.isPaused c then
        wrap_uint32 (_pauseStartTime c - _mixerTimeStamp c)
      else wrap_uint32 (now - _mixerTimeStamp c - _pauseTime c))) /\
  (forall decoded,
     Channel.getElapsedTime (T := T) mixer
       (set_mixed c (_samplesConsumed c) decoded (_mixerTimeStamp c)
          (_pauseTime c) (_converter c) (_stream c)) now =
     Channel.getElapsedTime mixer c now) /\
  (forall type stream autofree reverseStereo id permanent,
     _mixerTimeStamp
       (Channel.ctor mixer type stream autofree reverseStereo id permanent)
     = 0) /\
  (forall data len stamp,
     let c' := fst (fst (Channel.mix c data len stamp)) in
     if negb (endOfData (_stream c)) || needsDraining (_converter c) then
       _mixerTimeStamp c' = stamp /\ _samplesConsumed c' = _samplesDecoded c
     else c' = c) /\
  ((forall v, _mixerTimeStamp (Channel.setVolume mixer c v) = _mixerTimeStamp c) /\
   (forall b, _mixerTimeStamp (Channel.setBalance mixer c b) = _mixerTimeStamp c) /\
   (forall f, _mixerTimeStamp (Channel.setFaderL mixer c f) = _mixerTimeStamp c) /\
   (forall f, _mixerTimeStamp (Channel.setFaderR mixer c f) = _mixerTimeStamp c) /\
   _mixerTimeStamp (Channel.notifyGlobalVolChange mixer c) = _mixerTimeStamp c /\
   (forall h, _mixerTimeStamp (Channel.setHandle c h) = _mixerTimeStamp c) /\
   (forall r, _mixerTimeStamp (Channel.setRate c r) = _mixerTimeStamp c) /\
   _mixerTimeStamp (Channel.resetRate c) = _mixerTimeStamp c /\
   _mixerTimeStamp (Channel.loop c) = _mixerTimeStamp c /\
   (forall p t, _mixerTimeStamp (Channel.pause c p t) = _mixerTimeStamp c)) /\
  (forall handle,
     MixerImpl.lookupHandle mixer handle = None ->
     MixerImpl.getElapsedTime (T := T) mixer handle now =
     Timestamp 0 (_sampleRate mixer)) /\
  (forall handle,
     MixerImpl.lookupHandle mixer handle = Some c ->
     MixerImpl.getElapsedTime (T := T) mixer handle now =
     Channel.getElapsedTime mixer c now) /\
  (forall data len stamp,
     negb (endOfData (_stream c)) || needsDraining (_converter c) = true ->
     Channel.getElapsedTime mixer
       (fst (fst (Channel.mix c data len stamp))) now =
     if stamp =? 0 then zero
     else
       addMsecs (addFrames zero (_samplesDecoded c))
         (if Channel.isPaused c then
            wrap_uint32 (_pauseStartTime c - stamp)
          else wrap_uint32 (now - stamp))).
Proof.
  intros zero. split.
  { intros H0. unfold Channel.getElapsedTime. rewrite H0. reflexivity. }
  split.
  { intros Hne. unfold Channel.getElapsedTime.
    apply Z.eqb_neq in Hne. rewrite Hne. reflexivity. }
  split; [intros decoded; reflexivity|].
  split; [intros; reflexivity|].
  split.
  { intros data len stamp c'.
    pose proof (mix_timestamp c data len stamp) as Hmix. fold c' in Hmix.
    destruct (negb (endOfData (_stream c)) || needsDraining (_converter c));
      [|exact Hmix].
    destruct Hmix as (Hs & Hc & _). auto. }
  split; [apply control_keeps_mixerTimeStamp|].
  split.
  { intros handle Hnone. unfold MixerImpl.getElapsedTime.
    rewrite Hnone. reflexivity. }
  split.
  { intros handle Hsome. unfold MixerImpl.getElapsedTime.
    rewrite Hsome. reflexivity. }
  intros data len stamp Hwork.
  unfold Channel.mix. rewrite Hwork.
  destruct (convert _ _ _ _ _ _) as [[[r s] data'] res].
  unfold Channel.getElapsedTime, Channel.isPaused. simpl.
  fold zero. destruct (stamp =? 0); [reflexivity|].
  destruct (negb (_pauseLevel c =? 0)); [reflexivity|].
  do 2 f_equal. lia.
Qed.
End Elapsed.

(** ** Stale handles *)

Section StaleHandles.
Context {cfg : MixerConfig} {S R T : Type}.
Context `{!AudioStream S} `{!RateConverter S R} `{!TimestampOps T}.
Implicit Types (m : MixerImpl S R) (c : Channel S R).

Lemma stopHandle_stale m handle :
  MixerImpl.lookupHandle (fst (MixerImpl.stopHandle m handle)) handle = None.
Proof.
  unfold MixerImpl.stopHandle.
  destruct (MixerImpl.lookupHandle m handle) as [c|] eqn:E; simpl;
    [|exact E].
  apply lookupHandle_Some in E as [Hc _].
  unfold MixerImpl.lookupHandle.
  rewrite chanAt_setSlot_eq by (eapply chanAt_Some_lt; exact Hc).
  reflexivity.
Qed.

(** C8. A handle is stale when its slot is empty or holds a channel with
    another handle value.  On a stale handle every handle-keyed mutation
    returns the engine as it was and logs nothing, and every handle-keyed
    query returns its default: 0, false, or the zero timestamp.  After
    [stopHandle] the handle is stale, so a second [stopHandle] changes
    nothing. *)
Theorem stale_handle_noop m handle :
  ((forall c, chanAt m (MixerImpl.handleIndex handle) = Some c ->
              _handle c <> handle) ->
   (forall v, MixerImpl.setChannelVolume m handle v = m) /\
   (forall b, MixerImpl.setChannelBalance m handle b = m) /\
   (forall f, MixerImpl.setChannelFaderL m handle f = m) /\
   (forall f, MixerImpl.setChannelFaderR m handle f = m) /\
   (forall r, MixerImpl.setChannelRate m handle r = m) /\
   MixerImpl.resetChannelRate m handle = m /\
   MixerImpl.loopChannel m handle = m /\
   (forall p now, MixerImpl.pauseHandle m handle p now = m) /\
   MixerImpl.stopHandle m handle = (m, []) /\
   MixerImpl.getChannelVolume m handle = 0 /\
   MixerImpl.getChannelBalance m handle = 0 /\
   MixerImpl.getChannelFaderL m handle = 0 /\
   MixerImpl.getChannelFaderR m handle = 0 /\
   MixerImpl.getChannelRate m handle = 0 /\
   MixerImpl.getSoundID m handle = 0 /\
   MixerImpl.isSoundHandleActive m handle = false /\
   (forall now,
      MixerImpl.getElapsedTime (T := T) m handle now =
      Timestamp 0 (_sampleRate m)) /\
   (forall now,
      MixerImpl.getSoundElapsedTime (T := T) m handle now =
      msecs (Timestamp (T := T) 0 (_sampleRate m)))) /\
  (let m' := fst (MixerImpl.stopHandle m handle) in
   (forall c, chanAt m' (MixerImpl.handleIndex handle) = Some c ->
              _handle c <> handle) /\
   MixerImpl.stopHandle m' handle = (m', [])).
Proof.
  split.
  - intros Hstale. apply lookupHandle_None in Hstale.
    unfold MixerImpl.setChannelVolume, MixerImpl.setChannelBalance,
      MixerImpl.setChannelFaderL, MixerImpl.setChannelFaderR,
      MixerImpl.setChannelRate, MixerImpl.resetChannelRate,
      MixerImpl.loopChannel, MixerImpl.pauseHandle, MixerImpl.stopHandle,
      MixerImpl.getChannelVolume, MixerImpl.getChannelBalance,
      MixerImpl.getChannelFaderL, MixerImpl.getChannelFaderR,
      MixerImpl.getChannelRate, MixerImpl.getSoundID,
      MixerImpl.getSoundElapsedTime, MixerImpl.getElapsedTime.
    rewrite Hstale.
    repeat split; try reflexivity.
    apply isSoundHandleActive_false. exact Hstale.
  - intros m'. pose proof (stopHandle_stale m handle) as Hnone.
    fold m' in Hnone. split.
    + apply lookupHandle_None. exact Hnone.
    + unfold MixerImpl.stopHandle at 1. rewrite Hnone. reflexivity.
Qed.
End StaleHandles.

(** ** Requests that are refused *)

Section Refused.
Context {cfg : MixerConfig} {S R : Type}.
Context `{!AudioStream S} `{!RateConverter S R}.
Implicit Types (m : MixerImpl S R) (c : Channel S R).

Lemma mixCallback_ready m samples len millis :
  match MixerImpl.mixCallback m samples len millis with
  | Ok (m', _, _, _) => _mixerReady m' = true
  | AssertionFailed => True
  end.
Proof.
  unfold MixerImpl.mixCallback. destruct samples as [buf|]; [|exact I].
  destruct (negb _); [exact I|].
  match goal with
  | |- context [for_loop ?n0 ?i0 ?body0 ?s0] =>
      pose proof (for_loop_rel
        (fun x y : MixerImpl S R * list Z * Z * list (Event S R) =>
           _mixerReady (fst (fst (fst y))) = _mixerReady (fst (fst (fst x))))
        body0) as Hrel;
      specialize (Hrel (fun _ => eq_refl));
      specialize (Hrel (fun x y z H1 H2 => eq_trans H2 H1));
      assert (Hloop := fun Hb => Hrel Hb n0 i0 s0)
  end.
  match type of Hloop with
  | ?P -> _ => assert (Hbody : P)
  end.
  { intros j [[[mj bufj] resj] logj]. simpl.
    destruct (chanAt mj j) as [c|]; [|reflexivity].
    destruct (Channel.isFinished c); [reflexivity|].
    destruct (negb (Channel.isPaused c)); [|reflexivity].
    destruct (Channel.mix _ _ _ _) as [[c' buf'] tmp]. reflexivity. }
  specialize (Hloop Hbody).
  destruct (for_loop _ _ _ _) as [[[m' buf'] res] log]. simpl in Hloop.
  exact Hloop.
Qed.

(** C9 (amended). A play request with a null stream logs a warning and
    changes nothing: no channel, no handle.  A play request with a stream
    on an engine that is not marked ready fails the assertion
    [assert(_mixerReady)], which aborts the program: it is not a silent
    failure.  A constructed engine is not ready; the mixing entry point,
    when it returns, leaves the ready flag set, and it returns whenever
    its buffer is not null and the byte count is aligned. *)
Theorem playStream_refused m type handle id volume balance autofree
    permanent reverseStereo :
  MixerImpl.playStream m type handle None id volume balance autofree
    permanent reverseStereo = Ok (m, handle, [EvWarning "stream is 0"]) /\
  (forall stream,
     _mixerReady m = false ->
     MixerImpl.playStream m type handle (Some stream) id volume balance
       autofree permanent reverseStereo = AssertionFailed) /\
  (forall sampleRate stereo outBufSize,
     match MixerImpl.ctor (S := S) (R := R) sampleRate stereo outBufSize with
     | Ok m0 => _mixerReady m0 = false
     | AssertionFailed => sampleRate <= 0
     end) /\
  (forall samples len millis,
     match MixerImpl.mixCallback m samples len millis with
     | Ok (m', _, _, _) => _mixerReady m' = true
     | AssertionFailed => samples = None \/ ~ aligned m len
     end).
Proof.
  split; [reflexivity|]. split.
  { intros stream Hnr. unfold MixerImpl.playStream. rewrite Hnr.
    reflexivity. }
  split.
  { intros sampleRate stereo outBufSize. unfold MixerImpl.ctor.
    rewrite Z.gtb_ltb. destruct (Z.ltb_spec 0 sampleRate); [reflexivity|lia]. }
  intros samples len millis.
  pose proof (mixCallback_ready m samples len millis) as Hready.
  destruct (MixerImpl.mixCallback m samples len millis)
    as [[[[m' buf] res] log]|] eqn:E; [exact Hready|].
  destruct samples as [buf|]; [right|left; reflexivity].
  intros Hal. unfold MixerImpl.mixCallback in E.
  assert (Hal' : (if _stereo (set_mixerReady m true)
                  then len `rem` 4 =? 0 else len `rem` 2 =? 0) = true).
  { unfold aligned in Hal. simpl. destruct (_stereo m); apply Z.eqb_eq;
      exact Hal. }
  cbv zeta in E. rewrite Hal' in E. discriminate E.
Qed.
End Refused.

(** ** Operations that add no channel *)

Section Evolution.
Context {cfg : MixerConfig} {S R : Type}.
Context `{!AudioStream S} `{!RateConverter S R}.
Implicit Types (m : MixerImpl S R) (c : Channel S R)
  (o : option (Channel S R)).

Lemma slot_kept_refl o : slot_kept o o.
Proof. destruct o as [c|]; simpl; [apply same_identity_refl|exact I]. Qed.

Lemma slot_kept_trans o1 o2 o3 :
  slot_kept o1 o2 -> slot_kept o2 o3 -> slot_kept o1 o3.
Proof.
  destruct o3 as [c3|]; [|intros; exact I].
  destruct o2 as [c2|]; [|intros _ []].
  destruct o1 as [c1|]; [|intros []].
  simpl. apply same_identity_trans.
Qed.

Lemma evolves_refl m : evolves m m.
Proof.
  unfold evolves. split; [reflexivity|]. split; [reflexivity|].
  intros i. apply slot_kept_refl.
Qed.

Lemma evolves_trans m1 m2 m3 : evolves m1 m2 -> evolves m2 m3 -> evolves m1 m3.
Proof.
  intros (Hl1 & Hs1 & Hk1) (Hl2 & Hs2 & Hk2).
  split; [congruence|]. split; [congruence|].
  intros i. eapply slot_kept_trans; [apply Hk1 | apply Hk2].
Qed.

Lemma chanAt_setSlot_None m i : chanAt (setSlot m i None) i = None.
Proof.
  destruct (decide (i < length (_channels m))%nat) as [Hi|Hi].
  - apply chanAt_setSlot_eq. exact Hi.
  - unfold chanAt, setSlot. simpl.
    rewrite lookup_ge_None_2; [reflexivity|].
    rewrite length_insert. lia.
Qed.

Lemma evolves_setSlot_None m i : evolves m (setSlot m i None).
Proof.
  split; [apply length_setSlot|]. split; [reflexivity|].
  intros k. destruct (decide (i = k)) as [<-|Hne].
  - rewrite chanAt_setSlot_None. exact I.
  - rewrite chanAt_setSlot_ne by exact Hne. apply slot_kept_refl.
Qed.

Lemma evolves_setSlot_Some m i c c' :
  chanAt m i = Some c -> same_identity c c' ->
  evolves m (setSlot m i (Some c')).
Proof.
  intros Hc Hsame.
  split; [apply length_setSlot|]. split; [reflexivity|].
  intros k. destruct (decide (i = k)) as [<-|Hne].
  - rewrite chanAt_setSlot_eq by (eapply chanAt_Some_lt; exact Hc).
    rewrite Hc. exact Hsame.
  - rewrite chanAt_setSlot_ne by exact Hne. apply slot_kept_refl.
Qed.

Lemma evolves_same_slots m m' :
  _channels m' = _channels m -> _handleSeed m' = _handleSeed m ->
  evolves m m'.
Proof.
  intros Hc Hs. split; [rewrite Hc; reflexivity|]. split; [exact Hs|].
  intros i. unfold chanAt. rewrite Hc. apply slot_kept_refl.
Qed.

Lemma for_loop_evolves {St : Type} (pm : St -> MixerImpl S R)
    (body : nat -> St -> St) :
  (forall j s, evolves (pm s) (pm (body j s))) ->
  forall n i s, evolves (pm s) (pm (for_loop n i body s)).
Proof.
  intros Hbody.
  apply (for_loop_rel (fun s t => evolves (pm s) (pm t))).
  - intros s. apply evolves_refl.
  - intros s t u. apply evolves_trans.
  - exact Hbody.
Qed.

(** An operation that finds its channel by handle and rewrites it. *)
Lemma evolves_by_handle m handle (f : Channel S R -> Channel S R) :
  (forall c, same_identity c (f c)) ->
  evolves m
    match MixerImpl.lookupHandle m handle with
    | None => m
    | Some c => setSlot m (MixerImpl.handleIndex handle) (Some (f c))
    end.
Proof.
  intros Hf. destruct (MixerImpl.lookupHandle m handle) as [c|] eqn:E;
    [|apply evolves_refl].
  apply lookupHandle_Some in E as [Hc _].
  eapply evolves_setSlot_Some; [exact Hc | apply Hf].
Qed.

Lemma stopAll_evolves m : evolves m (fst (MixerImpl.stopAll m)).
Proof.
  unfold MixerImpl.stopAll.
  apply (for_loop_evolves (St := MixerImpl S R * list (Event S R)) fst).
  intros j [mj logj]. simpl.
  destruct (chanAt mj j) as [c|]; [|apply evolves_refl].
  destruct (negb (Channel.isPermanent c)); [|apply evolves_refl].
  apply evolves_setSlot_None.
Qed.

Lemma stopID_evolves m id : evolves m (fst (MixerImpl.stopID m id)).
Proof.
  unfold MixerImpl.stopID.
  apply (for_loop_evolves (St := MixerImpl S R * list (Event S R)) fst).
  intros j [mj logj]. simpl.
  destruct (chanAt mj j) as [c|]; [|apply evolves_refl].
  destruct (Channel.getId c =? id); [|apply evolves_refl].
  apply evolves_setSlot_None.
Qed.

Lemma stopHandle_evolves m handle :
  evolves m (fst (MixerImpl.stopHandle m handle)).
Proof.
  unfold MixerImpl.stopHandle.
  destruct (MixerImpl.lookupHandle m handle) as [c|]; simpl;
    [apply evolves_setSlot_None | apply evolves_refl].
Qed.

Lemma notifyType_evolves m type : evolves m (MixerImpl.notifyType m type).
Proof.
  unfold MixerImpl.notifyType.
  apply (for_loop_evolves (St := MixerImpl S R) (fun x => x)).
  intros j mj.
  destruct (chanAt mj j) as [c|] eqn:Hc; [|apply evolves_refl].
  destruct (decide (Channel.getType c = type)); [|apply evolves_refl].
  eapply evolves_setSlot_Some; [exact Hc|].
  apply updateChannelVolumes_identity.
Qed.

Lemma pauseAll_evolves m paused millis :
  evolves m (MixerImpl.pauseAll m paused millis).
Proof.
  unfold MixerImpl.pauseAll.
  apply (for_loop_evolves (St := MixerImpl S R) (fun x => x)).
  intros j mj.
  destruct (chanAt mj j) as [c|] eqn:Hc; [|apply evolves_refl].
  eapply evolves_setSlot_Some; [exact Hc | apply pause_identity].
Qed.

(** [pauseID] pauses the first channel that carries the id, if any. *)
Lemma pauseID_spec m id paused now :
  (MixerImpl.pauseID m id paused now = m /\
   forall i c, (i < NUM_CHANNELS)%nat -> chanAt m i = Some c -> _id c <> id)
  \/
  (exists i c,
     (i < NUM_CHANNELS)%nat /\ chanAt m i = Some c /\ _id c = id /\
     (forall j c', (j < i)%nat -> chanAt m j = Some c' -> _id c' <> id) /\
     MixerImpl.pauseID m id paused now =
       setSlot m i (Some (Channel.pause c paused now))).
Proof.
  unfold MixerImpl.pauseID, Channel.getId.
  match goal with
  | |- context [for_loop_exit _ _ ?b _] => set (body := b)
  end.
  assert (Hnext : forall k,
            body k tt = Next tt ->
            forall c, chanAt m k = Some c -> _id c <> id).
  { intros k Hk c Hc. unfold body in Hk. rewrite Hc in Hk.
    destruct (Z.eqb_spec (_id c) id); [discriminate|assumption]. }
  destruct (for_loop_exit_scan body tt) with (n := NUM_CHANNELS) (i := 0%nat)
    as [[Hrun Hall]|(k & r & Hk & Hx & Hbefore & Hrun)].
  - intros k. unfold body. destruct (chanAt m k) as [c|]; [|auto].
    destruct (_id c =? id); eauto.
  - left. rewrite Hrun. split; [reflexivity|].
    intros i c Hi Hc. apply (Hnext i); [apply Hall; lia | exact Hc].
  - right. rewrite Hrun. unfold body in Hx.
    destruct (chanAt m k) as [c|] eqn:Hc; [|discriminate].
    destruct (Z.eqb_spec (_id c) id) as [He|He]; [|discriminate].
    injection Hx as <-. exists k, c.
    split; [lia|]. split; [exact Hc|]. split; [exact He|].
    split; [|reflexivity].
    intros j c' Hj Hc'. apply (Hnext j); [apply Hbefore; lia | exact Hc'].
Qed.

Lemma pauseID_evolves m id paused now :
  evolves m (MixerImpl.pauseID m id paused now).
Proof.
  destruct (pauseID_spec m id paused now)
    as [[-> _]|(i & c & _ & Hc & _ & _ & ->)]; [apply evolves_refl|].
  eapply evolves_setSlot_Some; [exact Hc | apply pause_identity].
Qed.

Lemma mixCallback_evolves m samples len millis :
  match MixerImpl.mixCallback m samples len millis with
  | Ok (m', _, _, _) => evolves m m'
  | AssertionFailed => True
  end.
Proof.
  unfold MixerImpl.mixCallback. destruct samples as [buf|]; [|exact I].
  destruct (negb _); [exact I|].
  match goal with
  | |- context [for_loop ?n0 ?i0 ?body0 ?s0] =>
      pose proof (for_loop_evolves
        (St := MixerImpl S R * list Z * Z * list (Event S R))
        (fun x => fst (fst (fst x))) body0) as Hloop;
      assert (Hrun := fun Hb => Hloop Hb n0 i0 s0)
  end.
  match type of Hrun with
  | ?P -> _ => assert (Hbody : P)
  end.
  { intros j [[[mj bufj] resj] logj]. simpl.
    destruct (chanAt mj j) as [c|] eqn:Hc; [|apply evolves_refl].
    destruct (Channel.isFinished c); [apply evolves_setSlot_None|].
    destruct (negb (Channel.isPaused c)); [|apply evolves_refl].
    pose proof (mix_identity c bufj
                  (if _stereo (set_mixerReady m true)
                   then Z.shiftr len 2 else Z.shiftr len 1) (millis j))
      as Hid.
    destruct (Channel.mix _ _ _ _) as [[c' buf'] tmp]. simpl in *.
    eapply evolves_setSlot_Some; [exact Hc | exact Hid]. }
  specialize (Hrun Hbody).
  destruct (for_loop _ _ _ _) as [[[m' buf'] res] log]. simpl in Hrun.
  eapply evolves_trans; [|exact Hrun].
  apply evolves_same_slots; reflexivity.
Qed.
End Evolution.

(** ** Stopping and pausing by id *)

Section ByID.
Context {cfg : MixerConfig} {S R : Type}.
Context `{!AudioStream S} `{!RateConverter S R}.
Implicit Types (m : MixerImpl S R) (c : Channel S R).

(** A loop over all slots whose body rewrites slot [i] as [g] says: the
    slots of the result, one by one. *)
Lemma slot_loop_lookup {A : Type} m
    (g : nat -> option (Channel S R) -> A -> option (Channel S R) * A)
    (body : nat -> MixerImpl S R * A -> MixerImpl S R * A) (a : A) :
  wf m ->
  (forall i l o x,
     l !! i = Some o ->
     body i (set_channels m l, x) =
       (set_channels m (<[i := fst (g i o x)]> l), snd (g i o x))) ->
  forall k,
    exists ak,
      chanAt (fst (for_loop NUM_CHANNELS 0 body (m, a))) k =
      match _channels m !! k with
      | Some o => fst (g k o ak)
      | None => None
      end.
Proof.
  intros Hwf Hbody k.
  destruct (for_loop_sweep m (fun m' (x : A) => (m', x)) eq g body)
    with (suf := _channels m) (pre := @nil (option (Channel S R)))
         (a := a) (b := a) as (a' & Hrun & _).
  - intros i l o x y Hi <-. eexists. split; [apply Hbody; exact Hi|].
    reflexivity.
  - reflexivity.
  - simpl in Hrun. rewrite set_channels_id in Hrun.
    unfold wf in Hwf. rewrite Hwf in Hrun. rewrite Hrun. simpl.
    destruct (_channels m !! k) as [o|] eqn:Hk.
    + destruct (sweep_slots_lookup g (_channels m) 0 a k o Hk) as [ak Hak].
      exists ak. simpl in Hak.
      apply (chanAt_set_channels m _ k _ Hak).
    + exists a. unfold chanAt. simpl.
      rewrite lookup_ge_None_2; [reflexivity|].
      rewrite sweep_slots_length. apply lookup_ge_None_1. exact Hk.
Qed.

Lemma stopID_slots m id :
  wf m ->
  forall k,
    chanAt (fst (MixerImpl.stopID m id)) k =
    match chanAt m k with
    | Some c => if _id c =? id then None else Some c
    | None => None
    end.
Proof.
  intros Hwf k. unfold MixerImpl.stopID.
  destruct (slot_loop_lookup m
              (fun (i : nat) o (log : list (Event S R)) =>
                 match o with
                 | Some c =>
                     if _id c =? id then (None, log ++ Channel.dtor c)
                     else (Some c, log)
                 | None => (None, log)
                 end)
              (fun i '(mi, log) =>
                 match chanAt mi i with
                 | Some c =>
                     if Channel.getId c =? id then
                       (setSlot mi i None, log ++ Channel.dtor c)
                     else (mi, log)
                 | None => (mi, log)
                 end) [] Hwf) with (k := k) as [ak Hk].
  - intros i l o x Hi. rewrite (chanAt_set_channels m l i o Hi).
    unfold Channel.getId. destruct o as [c|]; simpl.
    + destruct (_id c =? id); simpl; [reflexivity|].
      rewrite (list_insert_id l i _ Hi). reflexivity.
    + rewrite (list_insert_id l i _ Hi). reflexivity.
  - rewrite Hk. unfold chanAt.
    destruct (_channels m !! k) as [[c|]|]; simpl; try reflexivity.
    destruct (_id c =? id); reflexivity.
Qed.

Lemma slot_loop_acc {A : Type} m
    (g : nat -> option (Channel S R) -> A -> option (Channel S R) * A)
    (body : nat -> MixerImpl S R * A -> MixerImpl S R * A) (a : A) :
  wf m ->
  (forall i l o x,
     l !! i = Some o ->
     body i (set_channels m l, x) =
       (set_channels m (<[i := fst (g i o x)]> l), snd (g i o x))) ->
  snd (for_loop NUM_CHANNELS 0 body (m, a)) =
  snd (sweep_slots g 0 (_channels m) a).
Proof.
  intros Hwf Hbody.
  destruct (for_loop_sweep m (fun m' (x : A) => (m', x)) eq g body)
    with (suf := _channels m) (pre := @nil (option (Channel S R)))
         (a := a) (b := a) as (a' & Hrun & Hacc).
  - intros i l o x y Hi <-. eexists. split; [apply Hbody; exact Hi|].
    reflexivity.
  - reflexivity.
  - simpl in Hrun, Hacc. rewrite set_channels_id in Hrun.
    unfold wf in Hwf. rewrite Hwf in Hrun. rewrite Hrun. exact Hacc.
Qed.

Lemma stopID_sweep_log id (l : list (option (Channel S R))) :
  forall i log0,
    snd (sweep_slots
           (fun (i : nat) o (log : list (Event S R)) =>
              match o with
              | Some c =>
                  if _id c =? id then (None, log ++ Channel.dtor c)
                  else (Some c, log)
              | None => (None, log)
              end) i l log0) =
    log0 ++
    flat_map
      (fun o =>
         match o with
         | Some c => if _id c =? id then Channel.dtor c else []
         | None => []
         end) l.
Proof.
  induction l as [|o l IH]; intros i log0; cbn [sweep_slots flat_map].
  - simpl. rewrite app_nil_r. reflexivity.
  - destruct o as [c|]; [destruct (_id c =? id)|];
      match goal with
      | |- context [sweep_slots ?g ?j l ?x] =>
          specialize (IH j x); destruct (sweep_slots g j l x) as [l2 log2]
      end; simpl in *; rewrite IH.
    + rewrite <- app_assoc. reflexivity.
    + reflexivity.
    + reflexivity.
Qed.

Lemma stopID_log m id :
  wf m ->
  snd (MixerImpl.stopID m id) =
  flat_map
    (fun o =>
       match o with
       | Some c => if _id c =? id then Channel.dtor c else []
       | None => []
       end) (_channels m).
Proof.
  intros Hwf. unfold MixerImpl.stopID.
  rewrite (slot_loop_acc m
             (fun (i : nat) o (log : list (Event S R)) =>
                match o with
                | Some c =>
                    if _id c =? id then (None, log ++ Channel.dtor c)
                    else (Some c, log)
                | None => (None, log)
                end)).
  - rewrite stopID_sweep_log. reflexivity.
  - exact Hwf.
  - intros i l o x Hi. rewrite (chanAt_set_channels m l i o Hi).
    unfold Channel.getId. destruct o as [c|]; simpl.
    + destruct (_id c =? id); simpl; [reflexivity|].
      rewrite (list_insert_id l i _ Hi). reflexivity.
    + rewrite (list_insert_id l i _ Hi). reflexivity.
Qed.

(** C10 (amended). When the channel [c] in slot [i] is the first one
    that carries [id], [pauseID] applies [pause] to that channel and to no
    other: every other slot, and so every later channel with the same id,
    is left as it was, with its pause depth.  A pause (depth below
    INT_MAX) raises the depth of that channel by one, so it is paused, and
    an unpause at a positive depth lowers it by one; in both cases slot
    [i] is the one slot that changes.  An unpause while that channel is at
    depth 0 changes no channel at all.  [stopID] empties every slot whose
    channel carries [id], destroying those channels in slot order, and
    keeps the others. *)
Theorem pauseID_first_only m id paused now i c :
  wf m ->
  (i < NUM_CHANNELS)%nat ->
  chanAt m i = Some c ->
  _id c = id ->
  (forall j c', (j < i)%nat -> chanAt m j = Some c' -> _id c' <> id) ->
  let m' := MixerImpl.pauseID m id paused now in
  m' = setSlot m i (Some (Channel.pause c paused now)) /\
  chanAt m' i = Some (Channel.pause c paused now) /\
  (forall k, k <> i -> chanAt m' k = chanAt m k) /\
  (forall k c',
     (i < k)%nat -> chanAt m k = Some c' -> _id c' = id ->
     chanAt m' k = Some c' /\
     chanAt (fst (MixerImpl.stopID m id)) k = None) /\
  chanAt (fst (MixerImpl.stopID m id)) i = None /\
  (forall k c',
     chanAt m k = Some c' -> _id c' <> id ->
     chanAt (fst (MixerImpl.stopID m id)) k = Some c') /\
  snd (MixerImpl.stopID m id) =
    flat_map
      (fun o =>
         match o with
         | Some c' => if _id c' =? id then Channel.dtor c' else []
         | None => []
         end) (_channels m) /\
  (paused = true ->
   0 <= _pauseLevel c < INT_MAX ->
   chanAt m' i =
     Some (set_pause c (_pauseLevel c + 1)
             (if _pauseLevel c =? 0 then now else _pauseStartTime c)
             (_pauseTime c)) /\
   (exists c',
      chanAt m' i = Some c' /\
      _pauseLevel c' = _pauseLevel c + 1 /\ Channel.isPaused c' = true) /\
   (forall k, chanAt m' k <> chanAt m k <-> k = i)) /\
  (paused = false ->
   0 < _pauseLevel c <= INT_MAX ->
   chanAt m' i =
     Some (if _pauseLevel c =? 1 then
             set_pause c 0 0 (wrap_uint32 (now - _pauseStartTime c))
           else
             set_pause c (_pauseLevel c - 1) (_pauseStartTime c)
               (_pauseTime c)) /\
   (exists c',
      chanAt m' i = Some c' /\ _pauseLevel c' = _pauseLevel c - 1) /\
   (forall k, chanAt m' k <> chanAt m k <-> k = i)) /\
  (paused = false -> _pauseLevel c <= 0 -> m' = m).
Proof.
  intros Hwf Hi Hc Hid Hfirst m'.
  assert (Hm' : m' = setSlot m i (Some (Channel.pause c paused now))).
  { unfold m'.
    destruct (pauseID_spec m id paused now)
      as [[_ Hnone]|(i0 & c0 & Hi0 & Hc0 & Hid0 & Hfirst0 & ->)].
    - destruct (Hnone i c Hi Hc Hid).
    - destruct (lt_eq_lt_dec i i0) as [[Hlt|Heq]|Hgt].
      + destruct (Hfirst0 i c Hlt Hc Hid).
      + subst i0. rewrite Hc in Hc0. injection Hc0 as <-. reflexivity.
      + destruct (Hfirst i0 c0 Hgt Hc0 Hid0). }
  split; [exact Hm'|].
  split.
  { rewrite Hm'. apply chanAt_setSlot_eq. eapply chanAt_Some_lt. exact Hc. }
  split.
  { intros k Hk. rewrite Hm'. apply chanAt_setSlot_ne. auto. }
  split.
  { intros k c' Hk Hc' Hid'. split.
    - rewrite Hm'. rewrite chanAt_setSlot_ne by lia. exact Hc'.
    - rewrite stopID_slots by exact Hwf. rewrite Hc'.
      apply Z.eqb_eq in Hid'. rewrite Hid'. reflexivity. }
  split.
  { rewrite stopID_slots by exact Hwf. rewrite Hc.
    apply Z.eqb_eq in Hid. rewrite Hid. reflexivity. }
  split.
  { intros k c' Hc' Hne. rewrite stopID_slots by exact Hwf. rewrite Hc'.
    apply Z.eqb_neq in Hne. rewrite Hne. reflexivity. }
  split; [apply stopID_log; exact Hwf|].
  assert (Hlt : (i < length (_channels m))%nat)
    by (eapply chanAt_Some_lt; exact Hc).
  assert (Hone : forall c',
            chanAt m' i = Some c' ->
            _pauseLevel c' <> _pauseLevel c ->
            forall k, chanAt m' k <> chanAt m k <-> k = i).
  { intros c' Hc' Hlev k. split.
    - intros Hdiff. destruct (decide (k = i)) as [Hk|Hk]; [exact Hk|].
      destruct Hdiff. rewrite Hm'. apply chanAt_setSlot_ne. auto.
    - intros -> Heq. rewrite Hc', Hc in Heq. injection Heq as ->.
      destruct Hlev. reflexivity. }
  assert (Hslot : chanAt m' i = Some (Channel.pause c paused now)).
  { rewrite Hm'. apply chanAt_setSlot_eq. exact Hlt. }
  split.
  { intros -> Hl. rewrite (pause_true c now Hl) in Hslot.
    split; [exact Hslot|]. split.
    - eexists. split; [exact Hslot|]. split; [reflexivity|].
      unfold Channel.isPaused. simpl.
      destruct (Z.eqb_spec (_pauseLevel c + 1) 0); [lia|reflexivity].
    - apply (Hone _ Hslot). simpl. lia. }
  split.
  { intros -> Hl. rewrite (pause_false_pos c now Hl) in Hslot.
    split; [exact Hslot|].
    assert (Hlev : _pauseLevel
                     (if _pauseLevel c =? 1 then
                        set_pause c 0 0
                          (wrap_uint32 (now - _pauseStartTime c))
                      else
                        set_pause c (_pauseLevel c - 1) (_pauseStartTime c)
                          (_pauseTime c)) = _pauseLevel c - 1).
    { destruct (Z.eqb_spec (_pauseLevel c) 1) as [E|E]; simpl; lia. }
    split.
    - eexists. split; [exact Hslot|]. exact Hlev.
    - apply (Hone _ Hslot). rewrite Hlev. lia. }
  intros -> Hl. rewrite Hm', (pause_false_zero c now Hl), <- Hc.
  apply setSlot_same. exact Hlt.
Qed.
End ByID.

(** ** Play requests *)

Section Play.
Context {cfg : MixerConfig} {S R : Type}.
Context `{!AudioStream S} `{!RateConverter S R}.
Implicit Types (m : MixerImpl S R) (c chan : Channel S R).

(** [insertChannel] either finds every slot occupied, or takes the first
    empty one. *)
Lemma insertChannel_spec m handle chan :
  ((forall i, (i < NUM_CHANNELS)%nat -> chanAt m i <> None) /\
   MixerImpl.insertChannel m handle chan =
     (m, handle,
      EvWarning "MixerImpl::out of mixer slots" :: Channel.dtor chan))
  \/
  (exists i,
     (i < NUM_CHANNELS)%nat /\ chanAt m i = None /\
     (forall j, (j < i)%nat -> chanAt m j <> None) /\
     MixerImpl.insertChannel m handle chan =
       (set_handleSeed
          (setSlot m i
             (Some (Channel.setHandle chan
                      (wrap_uint32
                         (Z.of_nat i
                          + _handleSeed m * Z.of_nat NUM_CHANNELS)))))
          (wrap_uint32 (_handleSeed m + 1)),
        match handle with
        | Some _ =>
            Some (wrap_uint32
                    (Z.of_nat i + _handleSeed m * Z.of_nat NUM_CHANNELS))
        | None => None
        end,
        [])).
Proof.
  unfold MixerImpl.insertChannel.
  match goal with
  | |- context [for_loop_exit _ _ ?b _] => set (body := b)
  end.
  destruct (for_loop_exit_scan body (-1)) with (n := NUM_CHANNELS)
    (i := 0%nat) as [[Hrun Hall]|(k & r & Hk & Hx & Hbefore & Hrun)].
  - intros k. unfold body. destruct (chanAt m k); eauto.
  - left. rewrite Hrun. simpl. split; [|reflexivity].
    intros i Hi Hnone. specialize (Hall i ltac:(lia)).
    unfold body in Hall. rewrite Hnone in Hall. discriminate.
  - right. rewrite Hrun. unfold body in Hx.
    destruct (chanAt m k) as [c|] eqn:Hc; [discriminate|].
    injection Hx as <-. exists k.
    split; [lia|]. split; [exact Hc|]. split.
    + intros j Hj Hnone. specialize (Hbefore j ltac:(lia)).
      unfold body in Hbefore. rewrite Hnone in Hbefore. discriminate.
    + replace (Z.of_nat k =? -1) with false
        by (symmetry; apply Z.eqb_neq; lia).
      rewrite Nat2Z.id. reflexivity.
Qed.

Lemma newChannel_id m type stream id volume balance autofree permanent rev :
  _id (newChannel m type stream id volume balance autofree permanent rev)
  = id.
Proof.
  unfold newChannel.
  destruct (setBalance_identity m
              (Channel.setVolume m
                 (Channel.ctor m type stream autofree
                    (if AUDIO_REVERSE_STEREO then negb rev else rev)
                    id permanent) volume) balance) as (-> & _).
  destruct (setVolume_identity m
              (Channel.ctor m type stream autofree
                 (if AUDIO_REVERSE_STEREO then negb rev else rev)
                 id permanent) volume) as (-> & _).
  reflexivity.
Qed.

(** A play request with a stream on a ready engine is rejected when a
    channel already carries its id, and reaches [insertChannel] otherwise. *)
Lemma playStream_spec m type handle stream id volume balance autofree
    permanent rev :
  _mixerReady m = true ->
  (id <> -1 /\
   (exists i c, (i < NUM_CHANNELS)%nat /\ chanAt m i = Some c /\ _id c = id)
   /\
   MixerImpl.playStream m type handle (Some stream) id volume balance
     autofree permanent rev =
   Ok (m, handle,
       match autofree with
       | YES => [EvDeleteStream stream]
       | NO => []
       end))
  \/
  ((id = -1 \/
    forall i c, (i < NUM_CHANNELS)%nat -> chanAt m i = Some c -> _id c <> id)
   /\
   MixerImpl.playStream m type handle (Some stream) id volume balance
     autofree permanent rev =
   Ok (MixerImpl.insertChannel m handle
         (newChannel m type stream id volume balance autofree permanent
            rev))).
Proof.
  intros Hready. unfold MixerImpl.playStream. rewrite Hready. simpl.
  destruct (Z.eqb_spec id (-1)) as [Hs|Hs]; simpl.
  - right. split; [left; exact Hs|]. reflexivity.
  - match goal with
    | |- context [for_loop_exit _ _ ?b _] =>
        pose proof (scan_for_channel m (fun c => _id c =? id) tt b
                      NUM_CHANNELS (fun i => eq_refl)) as Hscan
    end.
    simpl in Hscan.
    destruct (for_loop_exit _ _ _ _) as [[]|[]].
    + right. split; [|reflexivity]. right. intros i c Hi Hc.
      apply Z.eqb_neq. apply (Hscan i c Hi Hc).
    + left. destruct Hscan as [_ (i & c & Hi & Hc & He)].
      split; [exact Hs|]. split; [|reflexivity].
      exists i, c. apply Z.eqb_eq in He. auto.
Qed.
End Play.

(** ** One request at a time *)

Section Steps.
Context {cfg : MixerConfig} {S R : Type}.
Context `{!AudioStream S} `{!RateConverter S R}.
Implicit Types (m : MixerImpl S R) (c chan : Channel S R).

(** A request either adds no channel, or inserts a new one into the first
    empty slot; the new channel has no id or an id that no channel has. *)
Lemma step_cases m (op : Op (S := S)) m' :
  step m op = Ok m' ->
  evolves m m' \/
  (exists i chan,
     (i < NUM_CHANNELS)%nat /\ chanAt m i = None /\
     (_id chan = -1 \/
      forall k c, (k < NUM_CHANNELS)%nat -> chanAt m k = Some c ->
                  _id c <> _id chan) /\
     m' = inserted m i chan).
Proof.
  destruct op
    as [type handle stream id vol balance autofree permanent rev
       | samples len millis | ready | | id | handle | type mu | type vol
       | handle vol | handle balance | handle faderL | handle faderR
       | handle rate | handle | handle | paused millis | id paused now
       | handle paused now];
    simpl; intros Hstep; try (injection Hstep as <-; left).
  - destruct stream as [stream|];
      [|simpl in Hstep; injection Hstep as <-; left; apply evolves_refl].
    destruct (_mixerReady m) eqn:Hready;
      [|unfold MixerImpl.playStream in Hstep; rewrite Hready in Hstep;
        discriminate].
    destruct (playStream_spec m type handle stream id vol balance
                autofree permanent rev Hready)
      as [(_ & _ & Hplay)|(Hfresh & Hplay)]; rewrite Hplay in Hstep.
    + injection Hstep as <-. left. apply evolves_refl.
    + destruct (insertChannel_spec m handle
                  (newChannel m type stream id vol balance autofree
                     permanent rev))
        as [[_ Hins]|(i & Hi & Hnone & _ & Hins)]; rewrite Hins in Hstep;
        injection Hstep as <-.
      * left. apply evolves_refl.
      * right. exists i, (newChannel m type stream id vol balance
                            autofree permanent rev).
        split; [exact Hi|]. split; [exact Hnone|]. split; [|reflexivity].
        rewrite newChannel_id. exact Hfresh.
  - pose proof (mixCallback_evolves m samples len millis) as Hev.
    destruct (MixerImpl.mixCallback m samples len millis)
      as [[[[m1 buf] res] log]|]; [|discriminate].
    injection Hstep as <-. left. exact Hev.
  - apply evolves_same_slots; reflexivity.
  - apply stopAll_evolves.
  - apply stopID_evolves.
  - apply stopHandle_evolves.
  - unfold MixerImpl.muteSoundType.
    eapply evolves_trans; [|apply notifyType_evolves].
    apply evolves_same_slots; reflexivity.
  - unfold MixerImpl.setVolumeForSoundType.
    eapply evolves_trans; [|apply notifyType_evolves].
    apply evolves_same_slots; reflexivity.
  - apply (evolves_by_handle m handle (fun c => Channel.setVolume m c vol)).
    intros c. apply setVolume_identity.
  - apply (evolves_by_handle m handle
             (fun c => Channel.setBalance m c balance)).
    intros c. apply setBalance_identity.
  - apply (evolves_by_handle m handle (fun c => Channel.setFaderL m c faderL)).
    intros c. apply setFaderL_identity.
  - apply (evolves_by_handle m handle (fun c => Channel.setFaderR m c faderR)).
    intros c. apply setFaderR_identity.
  - apply (evolves_by_handle m handle (fun c => Channel.setRate c rate)).
    intros c. apply setRate_identity.
  - apply (evolves_by_handle m handle Channel.resetRate).
    intros c. apply resetRate_identity.
  - apply (evolves_by_handle m handle Channel.loop).
    intros c. apply loop_identity.
  - apply pauseAll_evolves.
  - apply pauseID_evolves.
  - apply (evolves_by_handle m handle
             (fun c => Channel.pause c paused now)).
    intros c. apply pause_identity.
Qed.

Lemma chanAt_inserted m i chan k :
  (i < length (_channels m))%nat ->
  chanAt (inserted m i chan) k =
  if decide (k = i) then
    Some (Channel.setHandle chan
            (wrap_uint32
               (Z.of_nat i + _handleSeed m * Z.of_nat NUM_CHANNELS)))
  else chanAt m k.
Proof.
  intros Hi. unfold inserted.
  change (chanAt (set_handleSeed ?x ?y) k) with (chanAt x k).
  destruct (decide (k = i)) as [->|Hne].
  - apply chanAt_setSlot_eq. exact Hi.
  - apply chanAt_setSlot_ne. auto.
Qed.

Lemma evolves_wf m m' : evolves m m' -> wf m -> wf m'.
Proof. intros (Hlen & _) Hwf. unfold wf in *. congruence. Qed.

Lemma inserted_wf m i chan : wf m -> wf (inserted m i chan).
Proof.
  unfold wf, inserted. simpl. rewrite length_insert. auto.
Qed.

Lemma step_wf m op m' : wf m -> step m op = Ok m' -> wf m'.
Proof.
  intros Hwf Hstep.
  destruct (step_cases m op m' Hstep) as [Hev|(i & chan & _ & _ & _ & ->)].
  - eapply evolves_wf; eassumption.
  - apply inserted_wf. exact Hwf.
Qed.

Lemma evolves_unique_ids m m' : evolves m m' -> unique_ids m -> unique_ids m'.
Proof.
  intros (_ & _ & Hkept) Huniq i j ci cj Hi Hj Hsame Hns.
  pose proof (Hkept i) as Hki. pose proof (Hkept j) as Hkj.
  rewrite Hi in Hki. rewrite Hj in Hkj.
  destruct (chanAt m i) as [ci0|] eqn:Hi0; [|destruct Hki].
  destruct (chanAt m j) as [cj0|] eqn:Hj0; [|destruct Hkj].
  destruct Hki as (Hidi & _). destruct Hkj as (Hidj & _).
  apply (Huniq i j ci0 cj0 Hi0 Hj0); congruence.
Qed.

Lemma step_unique_ids m op m' :
  wf m -> unique_ids m -> step m op = Ok m' -> unique_ids m'.
Proof.
  intros Hwf Huniq Hstep.
  destruct (step_cases m op m' Hstep)
    as [Hev|(i & chan & Hi & Hnone & Hfresh & ->)].
  - eapply evolves_unique_ids; eassumption.
  - unfold wf in Hwf.
    intros a b ca cb Ha Hb Hsame Hns.
    rewrite chanAt_inserted in Ha, Hb by lia.
    assert (Hbound : forall k c, chanAt m k = Some c -> (k < NUM_CHANNELS)%nat).
    { intros k c Hk. apply chanAt_Some_lt in Hk. lia. }
    destruct (decide (a = i)) as [->|Hai];
      destruct (decide (b = i)) as [->|Hbi]; [reflexivity| | |].
    + injection Ha as <-. simpl in Hsame, Hns.
      destruct Hfresh as [Hs|Hf]; [contradiction|].
      destruct (Hf b cb (Hbound _ _ Hb) Hb). congruence.
    + injection Hb as <-. simpl in Hsame.
      destruct Hfresh as [Hs|Hf]; [congruence|].
      destruct (Hf a ca (Hbound _ _ Ha) Ha). congruence.
    + apply (Huniq a b ca cb Ha Hb Hsame Hns).
Qed.

Lemma run_invariant (Inv : MixerImpl S R -> Prop) :
  (forall m op m', Inv m -> step m op = Ok m' -> Inv m') ->
  forall ops m m', Inv m -> run m ops = Ok m' -> Inv m'.
Proof.
  intros Hstep ops. induction ops as [|op ops IH]; intros m m' Hm Hrun;
    simpl in Hrun.
  - injection Hrun as <-. exact Hm.
  - destruct (step m op) as [m1|] eqn:E; [|discriminate].
    apply (IH m1 m'); [|exact Hrun]. apply (Hstep m op m1 Hm E).
Qed.

Lemma run_unique_ids ops m m' :
  wf m -> unique_ids m -> run m ops = Ok m' -> wf m' /\ unique_ids m'.
Proof.
  intros Hwf Huniq Hrun.
  apply (run_invariant (fun x => wf x /\ unique_ids x)) with (ops := ops)
    (m := m); [|auto|exact Hrun].
  intros x op x' [Hw Hu] Hstep. split.
  - eapply step_wf; eassumption.
  - eapply step_unique_ids; eassumption.
Qed.
End Steps.

(** ** Duplicate ids and full tables *)

Section Capacity.
Context {cfg : MixerConfig} {S R : Type}.
Context `{!AudioStream S} `{!RateConverter S R}.
Implicit Types (m : MixerImpl S R) (c chan : Channel S R).

Lemma ctor_wf sampleRate stereo outBufSize m0 :
  MixerImpl.ctor (S := S) (R := R) sampleRate stereo outBufSize = Ok m0 ->
  wf m0 /\ (forall i, chanAt m0 i = None) /\ _handleSeed m0 = 0 /\
  _mixerReady m0 = false.
Proof.
  unfold MixerImpl.ctor. destruct (sampleRate >? 0); [|discriminate].
  intros [= <-]. unfold wf. simpl.
  split; [apply length_replicate|]. split; [|auto].
  intros i. unfold chanAt. simpl.
  destruct (replicate NUM_CHANNELS None !! i) as [o|] eqn:E; [|reflexivity].
  apply lookup_replicate in E as [-> _]. reflexivity.
Qed.

(** C6. A play request with an id other than -1 that some occupied slot
    already carries creates no channel and changes no slot: the engine
    and the caller's handle are returned as they were, and the stream is
    deleted exactly when it was passed with [DisposeAfterUse::YES].  In
    every state that a constructed engine reaches through the control
    operations and the callback, no two slots hold channels with the same
    id other than -1; any sequence of requests preserves that. *)
Theorem duplicate_id_rejected :
  (forall m type handle stream id volume balance autofree permanent rev i c,
     _mixerReady m = true ->
     id <> -1 ->
     (i < NUM_CHANNELS)%nat -> chanAt m i = Some c -> _id c = id ->
     MixerImpl.playStream m type handle (Some stream) id volume balance
       autofree permanent rev =
     Ok (m, handle,
         match autofree with
         | YES => [EvDeleteStream stream]
         | NO => []
         end)) /\
  (forall sampleRate stereo outBufSize (m0 : MixerImpl S R) ops m',
     MixerImpl.ctor sampleRate stereo outBufSize = Ok m0 ->
     run m0 ops = Ok m' ->
     unique_ids m') /\
  (forall m ops m',
     wf m -> unique_ids m -> run m ops = Ok m' -> unique_ids m').
Proof.
  split.
  { intros m type handle stream id volume balance autofree permanent rev
      i c Hready Hid Hi Hc Hsame.
    destruct (playStream_spec m type handle stream id volume balance
                autofree permanent rev Hready)
      as [(_ & _ & Hplay)|([Hs|Hfresh] & _)].
    - exact Hplay.
    - contradiction.
    - destruct (Hfresh i c Hi Hc Hsame). }
  split.
  { intros sampleRate stereo outBufSize m0 ops m' Hctor Hrun.
    destruct (ctor_wf _ _ _ _ Hctor) as (Hwf & Hempty & _).
    apply (run_unique_ids ops m0 m' Hwf); [|exact Hrun].
    intros i j ci cj Hi. rewrite Hempty in Hi. discriminate. }
  intros m ops m' Hwf Huniq Hrun.
  apply (run_unique_ids ops m m' Hwf Huniq Hrun).
Qed.

Lemma occupied_full m :
  wf m -> occupied m = NUM_CHANNELS ->
  forall i, (i < NUM_CHANNELS)%nat -> chanAt m i <> None.
Proof.
  unfold wf, occupied. intros Hwf Hocc i Hi Hnone.
  assert (Hl : _channels m !! i = Some None).
  { unfold chanAt in Hnone.
    destruct (lookup_lt_is_Some_2 (_channels m) i ltac:(lia)) as [o Ho].
    rewrite Ho in Hnone. destruct o; [discriminate|exact Ho]. }
  assert (Hlt : (length (filter (fun o => is_Some o) (_channels m))
                 < length (_channels m))%nat).
  { apply (length_filter_lt _ _ None).
    - apply list_elem_of_lookup. exists i. exact Hl.
    - intros [x Hx]. discriminate. }
  lia.
Qed.

Lemma occupied_free m :
  wf m -> (occupied m < NUM_CHANNELS)%nat ->
  exists i, (i < NUM_CHANNELS)%nat /\ chanAt m i = None.
Proof.
  unfold wf, occupied, chanAt. intros <-.
  induction (_channels m) as [|o l IH]; simpl; [lia|].
  destruct o as [c|].
  - rewrite filter_cons_True by eauto. simpl. intros Hlt.
    destruct IH as (i & Hi & Hnone); [lia|].
    exists (Datatypes.S i). split; [lia|]. exact Hnone.
  - intros _. exists 0%nat. split; [lia|]. reflexivity.
Qed.

Lemma occupied_inserted m i chan :
  (i < length (_channels m))%nat -> chanAt m i = None ->
  occupied (inserted m i chan) = Datatypes.S (occupied m).
Proof.
  intros Hi Hnone. unfold occupied, inserted. simpl.
  assert (Hl : _channels m !! i = Some None).
  { unfold chanAt in Hnone.
    destruct (lookup_lt_is_Some_2 (_channels m) i Hi) as [o Ho].
    rewrite Ho in Hnone. destruct o; [discriminate|exact Ho]. }
  rewrite insert_take_drop by exact Hi.
  rewrite <- (take_drop_middle (_channels m) i None Hl) at 3.
  rewrite !filter_app, !length_app.
  rewrite filter_cons_True by eauto.
  rewrite filter_cons_False by (intros [x Hx]; discriminate).
  simpl. lia.
Qed.

(** A play request that returns leaves the ready flag and the size of the
    table alone. *)
Lemma playStream_keeps m type handle stream id volume balance autofree
    permanent rev m1 handle1 log :
  MixerImpl.playStream m type handle (Some stream) id volume balance
    autofree permanent rev = Ok (m1, handle1, log) ->
  _mixerReady m = true /\ _mixerReady m1 = true /\ (wf m -> wf m1).
Proof.
  intros Hplay.
  assert (Hready : _mixerReady m = true).
  { destruct (_mixerReady m) eqn:E; [reflexivity|].
    unfold MixerImpl.playStream in Hplay. rewrite E in Hplay.
    discriminate. }
  split; [exact Hready|].
  destruct (playStream_spec m type handle stream id volume balance
              autofree permanent rev Hready)
    as [(_ & _ & Hp)|(_ & Hp)]; rewrite Hp in Hplay.
  - injection Hplay as <- <- <-. auto.
  - destruct (insertChannel_spec m handle
                (newChannel m type stream id volume balance autofree
                   permanent rev))
      as [[_ Hins]|(i & _ & _ & _ & Hins)]; rewrite Hins in Hplay;
      injection Hplay as <- <- <-; [auto|].
    split; [exact Hready|]. apply inserted_wf.
Qed.

Lemma successful_plays_count m n m' :
  successful_plays m n m' ->
  wf m ->
  wf m' /\ occupied m' = (occupied m + n)%nat /\
  (_mixerReady m = true -> _mixerReady m' = true).
Proof.
  induction 1 as [m|m type handle stream id volume balance autofree
                    permanent rev m1 handle1 log n m2 Hplay Hocc _ IH];
    intros Hwf.
  - split; [exact Hwf|]. split; [lia|auto].
  - destruct (playStream_keeps _ _ _ _ _ _ _ _ _ _ _ _ _ Hplay)
      as (_ & Hr1 & Hwf1).
    destruct (IH (Hwf1 Hwf)) as (Hwf2 & Hocc2 & Hr2).
    split; [exact Hwf2|]. split; [lia|auto].
Qed.

(** On a full table every play request with a stream leaves the engine
    and the caller's handle as they were. *)
Lemma playStream_full m type handle stream id volume balance autofree
    permanent rev :
  _mixerReady m = true ->
  (forall i, (i < NUM_CHANNELS)%nat -> chanAt m i <> None) ->
  exists log,
    MixerImpl.playStream m type handle (Some stream) id volume balance
      autofree permanent rev = Ok (m, handle, log) /\
    (log = match autofree with
           | YES => [EvDeleteStream stream]
           | NO => []
           end /\
     id <> -1 /\
     (exists i c, (i < NUM_CHANNELS)%nat /\ chanAt m i = Some c /\ _id c = id)
     \/
     log =
       EvWarning "MixerImpl::out of mixer slots" ::
       EvDeleteConverter
         (_converter (newChannel m type stream id volume balance autofree
                        permanent rev)) ::
       match autofree with
       | YES => [EvDeleteStream stream]
       | NO => []
       end).
Proof.
  intros Hready Hfull.
  destruct (playStream_spec m type handle stream id volume balance
              autofree permanent rev Hready)
    as [(Hid & Hdup & Hp)|(_ & Hp)]; rewrite Hp.
  - eexists. split; [reflexivity|]. left. auto.
  - destruct (insertChannel_spec m handle
                (newChannel m type stream id volume balance autofree
                   permanent rev))
      as [[_ Hins]|(i & Hi & Hnone & _)].
    + rewrite Hins. eexists. split; [reflexivity|]. right.
      unfold Channel.dtor. f_equal. f_equal.
      unfold newChannel, Channel.setBalance, Channel.setVolume.
      rewrite (updateChannelVolumes_frame m (set_balance _ _)). simpl.
      rewrite (updateChannelVolumes_frame m (set_volume _ _)). simpl.
      reflexivity.
    + destruct (Hfull i Hi Hnone).
Qed.
End Capacity.

Section Exhaustion.
Context {cfg : MixerConfig} {S R : Type}.
Context `{!AudioStream S} `{!RateConverter S R}.
Implicit Types (m : MixerImpl S R) (c chan : Channel S R).

(** C7. When all [NUM_CHANNELS] slots are occupied, [insertChannel] emits
    the warning, destroys the channel it was given (the converter, and the
    stream when it is engine-owned), and returns the engine and the
    caller's handle untouched; a play request with a stream on such an
    engine, when ready, therefore changes nothing and writes no handle
    (it is rejected as a duplicate, or fails in [insertChannel]).  After
    [NUM_CHANNELS] successful plays on an engine without channels the
    table is full, so the next play request produces no handle.  On a
    ready engine with an empty slot a play request without id is
    successful. *)
Theorem capacity_exhausted :
  (forall m handle chan,
     (forall i, (i < NUM_CHANNELS)%nat -> chanAt m i <> None) ->
     MixerImpl.insertChannel m handle chan =
     (m, handle,
      EvWarning "MixerImpl::out of mixer slots" ::
      EvDeleteConverter (_converter chan) ::
      match _streamDispose chan with
      | YES => [EvDeleteStream (_stream chan)]
      | NO => []
      end)) /\
  (forall m type handle stream id volume balance autofree permanent rev,
     _mixerReady m = true ->
     (forall i, (i < NUM_CHANNELS)%nat -> chanAt m i <> None) ->
     exists log,
       MixerImpl.playStream m type handle (Some stream) id volume balance
         autofree permanent rev = Ok (m, handle, log) /\
       (log = match autofree with
              | YES => [EvDeleteStream stream]
              | NO => []
              end /\
        id <> -1 /\
        (exists i c,
           (i < NUM_CHANNELS)%nat /\ chanAt m i = Some c /\ _id c = id)
        \/
        log =
          EvWarning "MixerImpl::out of mixer slots" ::
          EvDeleteConverter
            (_converter (newChannel m type stream id volume balance
                           autofree permanent rev)) ::
          match autofree with
          | YES => [EvDeleteStream stream]
          | NO => []
          end)) /\
  (forall m0 m',
     wf m0 -> occupied m0 = 0%nat -> _mixerReady m0 = true ->
     successful_plays m0 NUM_CHANNELS m' ->
     (forall i, (i < NUM_CHANNELS)%nat -> chanAt m' i <> None) /\
     forall type handle stream id volume balance autofree permanent rev,
     exists log,
       MixerImpl.playStream m' type handle (Some stream) id volume balance
         autofree permanent rev = Ok (m', handle, log)) /\
  (forall m type handle stream volume balance autofree permanent rev,
     wf m -> _mixerReady m = true -> (occupied m < NUM_CHANNELS)%nat ->
     exists m1 handle1,
       MixerImpl.playStream m type handle (Some stream) (-1) volume balance
         autofree permanent rev = Ok (m1, handle1, []) /\
       occupied m1 = Datatypes.S (occupied m)).
Proof.
  split.
  { intros m handle chan Hfull.
    destruct (insertChannel_spec m handle chan)
      as [[_ Hins]|(i & Hi & Hnone & _)].
    - exact Hins.
    - destruct (Hfull i Hi Hnone). }
  split.
  { intros m type handle stream id volume balance autofree permanent rev
      Hready Hfull.
    apply playStream_full; assumption. }
  split.
  { intros m0 m' Hwf Hocc Hready Hplays.
    destruct (successful_plays_count m0 NUM_CHANNELS m' Hplays Hwf)
      as (Hwf' & Hocc' & Hready').
    assert (Hfull : forall i, (i < NUM_CHANNELS)%nat -> chanAt m' i <> None).
    { apply occupied_full; [exact Hwf'|lia]. }
    split; [exact Hfull|].
    intros type handle stream id volume balance autofree permanent rev.
    destruct (playStream_full m' type handle stream id volume balance
                autofree permanent rev (Hready' Hready) Hfull)
      as (log & Hplay & _).
    exists log. exact Hplay. }
  intros m type handle stream volume balance autofree permanent rev
    Hwf Hready Hocc.
  destruct (playStream_spec m type handle stream (-1) volume balance
              autofree permanent rev Hready)
    as [(Hid & _)|(_ & Hp)]; [destruct (Hid eq_refl)|].
  rewrite Hp.
  destruct (insertChannel_spec m handle
              (newChannel m type stream (-1) volume balance autofree
                 permanent rev))
    as [[Hfull _]|(i & Hi & Hnone & _ & Hins)].
  - destruct (occupied_free m Hwf Hocc) as (i & Hi & Hnone).
    destruct (Hfull i Hi Hnone).
  - rewrite Hins. eexists. eexists. split; [reflexivity|].
    apply occupied_inserted; [unfold wf in Hwf; lia|exact Hnone].
Qed.
End Exhaustion.

(** ** Handles *)

Section Handles.
Context {cfg : MixerConfig} {S R : Type}.
Context `{!AudioStream S} `{!RateConverter S R}.
Implicit Types (m : MixerImpl S R) (c chan : Channel S R).

(** The slot index is recovered from an encoded handle. *)
Lemma handleIndex_encoded (i : nat) (seed : Z) :
  (i < NUM_CHANNELS)%nat ->
  0 <= seed ->
  (Z.of_nat NUM_CHANNELS | 2 ^ 32) \/
  (seed + 1) * Z.of_nat NUM_CHANNELS <= 2 ^ 32 ->
  wrap_uint32 (Z.of_nat i + seed * Z.of_nat NUM_CHANNELS)
    `rem` Z.of_nat NUM_CHANNELS = Z.of_nat i.
Proof.
  intros Hi Hseed Hcase.
  pose proof (wrap_uint32_range (Z.of_nat i + seed * Z.of_nat NUM_CHANNELS))
    as Hrange.
  rewrite Z.rem_mod_nonneg by lia.
  destruct Hcase as [Hdiv|Hfit].
  - unfold wrap_uint32.
    rewrite Z.mod_mod_divide by exact Hdiv.
    rewrite Z.mod_add by lia. apply Z.mod_small. lia.
  - rewrite wrap_uint32_small by nia.
    rewrite Z.mod_add by lia. apply Z.mod_small. lia.
Qed.

Lemma step_stale m op m' (h : Z) :
  wf m ->
  0 <= _handleSeed m ->
  (_handleSeed m + 1) * Z.of_nat NUM_CHANNELS < 2 ^ 32 ->
  h < _handleSeed m * Z.of_nat NUM_CHANNELS ->
  MixerImpl.lookupHandle m h = None ->
  step m op = Ok m' ->
  MixerImpl.lookupHandle m' h = None /\
  _handleSeed m <= _handleSeed m' <= _handleSeed m + 1.
Proof.
  intros Hwf Hseed Hfit Hold Hstale Hstep.
  destruct (step_cases m op m' Hstep)
    as [(_ & Hs & Hkept)|(i & chan & Hi & Hnone & _ & ->)].
  - split; [|lia].
    destruct (MixerImpl.lookupHandle m' h) as [c'|] eqn:E; [|reflexivity].
    apply lookupHandle_Some in E as [Hc' Hh].
    specialize (Hkept (MixerImpl.handleIndex h)). rewrite Hc' in Hkept.
    destruct (chanAt m (MixerImpl.handleIndex h)) as [c|] eqn:Hc;
      [|destruct Hkept].
    destruct Hkept as (_ & Hsame & _).
    assert (MixerImpl.lookupHandle m h = Some c)
      by (apply lookupHandle_Some; split; [exact Hc | congruence]).
    congruence.
  - assert (Hseed' : wrap_uint32 (_handleSeed m + 1) = _handleSeed m + 1)
      by (apply wrap_uint32_small; nia).
    split; [|unfold inserted; simpl; lia].
    apply lookupHandle_None. intros c Hc Hh.
    unfold wf in Hwf. rewrite chanAt_inserted in Hc by lia.
    destruct (decide (MixerImpl.handleIndex h = i)) as [He|Hne].
    + injection Hc as <-. simpl in Hh.
      rewrite wrap_uint32_small in Hh by nia. lia.
    + apply (proj1 (lookupHandle_None m h) Hstale c Hc Hh).
Qed.

Lemma run_stale ops (h : Z) :
  forall m m',
    wf m ->
    0 <= _handleSeed m ->
    (_handleSeed m + Z.of_nat (length ops)) * Z.of_nat NUM_CHANNELS < 2 ^ 32 ->
    h < _handleSeed m * Z.of_nat NUM_CHANNELS ->
    MixerImpl.lookupHandle m h = None ->
    run m ops = Ok m' ->
    MixerImpl.lookupHandle m' h = None.
Proof.
  induction ops as [|op ops IH]; intros m m' Hwf Hseed Hfit Hold Hstale Hrun;
    simpl in Hrun.
  - injection Hrun as <-. exact Hstale.
  - destruct (step m op) as [m1|] eqn:E; [|discriminate].
    simpl in Hfit.
    destruct (step_stale m op m1 h Hwf Hseed ltac:(nia) Hold Hstale E)
      as (Hstale1 & Hs1).
    apply (IH m1 m'); try assumption.
    + eapply step_wf; eassumption.
    + lia.
    + nia.
    + nia.
Qed.
End Handles.

Section Encoding.
Context {cfg : MixerConfig} {S R : Type}.
Context `{!AudioStream S} `{!RateConverter S R}.
Implicit Types (m : MixerImpl S R) (c chan : Channel S R).

(** C2. Handle encoding and validity, on an engine whose table has its
    full size and whose generation counter is a 32-bit unsigned value.
    A play request on a ready engine returns.  It changes nothing and
    leaves the caller's handle alone when its id (other than -1) is
    carried by a live channel, or when no slot is empty.  Otherwise, with
    an empty slot and no duplicate id, it succeeds: it takes the first
    empty slot [i], builds raw = i + generation * NUM_CHANNELS (modulo
    2^32), stores it in the channel, writes it through the caller's
    pointer, logs nothing and increments the generation counter;
    raw % NUM_CHANNELS is [i] when NUM_CHANNELS divides 2^32 or nothing
    wrapped, and the new handle is valid at once.  A handle is valid
    exactly when the slot at raw % NUM_CHANNELS is occupied by a channel
    whose stored handle equals it, and [stopHandle] and
    [isSoundHandleActive] act on that test.  A handle of an earlier
    generation that is stale stays stale whatever requests follow, as
    long as the counter does not wrap. *)
Theorem handle_encoding m :
  wf m ->
  0 <= _handleSeed m < 2 ^ 32 ->
  (forall type handle stream id volume balance autofree permanent rev,
     _mixerReady m = true ->
     exists m' handle' log,
       MixerImpl.playStream m type handle (Some stream) id volume balance
         autofree permanent rev = Ok (m', handle', log) /\
       (id <> -1 ->
        (exists k c,
           (k < NUM_CHANNELS)%nat /\ chanAt m k = Some c /\ _id c = id) ->
        m' = m /\ handle' = handle) /\
       ((forall k, (k < NUM_CHANNELS)%nat -> chanAt m k <> None) ->
        m' = m /\ handle' = handle) /\
       (id = -1 \/
        (forall k c,
           (k < NUM_CHANNELS)%nat -> chanAt m k = Some c -> _id c <> id) ->
        (exists k, (k < NUM_CHANNELS)%nat /\ chanAt m k = None) ->
        exists i,
          let raw :=
            wrap_uint32
              (Z.of_nat i + _handleSeed m * Z.of_nat NUM_CHANNELS) in
          let chan :=
            Channel.setHandle
              (newChannel m type stream id volume balance autofree
                 permanent rev) raw in
          (i < NUM_CHANNELS)%nat /\ chanAt m i = None /\
          (forall j, (j < i)%nat -> chanAt m j <> None) /\
          chanAt m' i = Some chan /\
          _handle chan = raw /\
          (forall k, k <> i -> chanAt m' k = chanAt m k) /\
          handle' = match handle with
                    | Some _ => Some raw
                    | None => None
                    end /\
          log = [] /\
          _handleSeed m' = wrap_uint32 (_handleSeed m + 1) /\
          ((Z.of_nat NUM_CHANNELS | 2 ^ 32) \/
           (_handleSeed m + 1) * Z.of_nat NUM_CHANNELS <= 2 ^ 32 ->
           raw `rem` Z.of_nat NUM_CHANNELS = Z.of_nat i /\
           MixerImpl.lookupHandle m' raw = Some chan /\
           MixerImpl.isSoundHandleActive m' raw = true) /\
          ((_handleSeed m + 1) * Z.of_nat NUM_CHANNELS < 2 ^ 32 ->
           raw = Z.of_nat i + _handleSeed m * Z.of_nat NUM_CHANNELS /\
           _handleSeed m' = _handleSeed m + 1 /\
           raw < _handleSeed m' * Z.of_nat NUM_CHANNELS))) /\
  (forall h,
     MixerImpl.isSoundHandleActive m h = true <->
     exists c,
       chanAt m (Z.to_nat (h `rem` Z.of_nat NUM_CHANNELS)) = Some c /\
       _handle c = h) /\
  (forall h c,
     MixerImpl.lookupHandle m h = Some c <->
     chanAt m (Z.to_nat (h `rem` Z.of_nat NUM_CHANNELS)) = Some c /\
     _handle c = h) /\
  (forall h,
     match MixerImpl.lookupHandle m h with
     | Some c =>
         MixerImpl.stopHandle m h =
         (setSlot m (Z.to_nat (h `rem` Z.of_nat NUM_CHANNELS)) None,
          Channel.dtor c)
     | None => MixerImpl.stopHandle m h = (m, [])
     end) /\
  (forall h ops m',
     h < _handleSeed m * Z.of_nat NUM_CHANNELS ->
     MixerImpl.lookupHandle m h = None ->
     (_handleSeed m + Z.of_nat (length ops)) * Z.of_nat NUM_CHANNELS
       < 2 ^ 32 ->
     run m ops = Ok m' ->
     MixerImpl.lookupHandle m' h = None /\
     MixerImpl.isSoundHandleActive m' h = false).
Proof.
  intros Hwf Hseed. split.
  { intros type handle stream id volume balance autofree permanent rev
      Hready.
    destruct (playStream_spec m type handle stream id volume balance
                autofree permanent rev Hready)
      as [(Hid & (kd & cd & Hkd & Hcd & Hidd) & Hp)|(Hnodup & Hp)];
      rewrite Hp.
    { eexists _, _, _. split; [reflexivity|].
      split; [auto|]. split; [auto|].
      intros [Hs|Hno] _; [contradiction|].
      destruct (Hno kd cd Hkd Hcd Hidd). }
    assert (Hdup : id <> -1 ->
              (exists k c,
                 (k < NUM_CHANNELS)%nat /\ chanAt m k = Some c /\
                 _id c = id) ->
              False).
    { intros Hid (k & c & Hk & Hc & Hidc).
      destruct Hnodup as [Hs|Hno]; [contradiction|].
      exact (Hno k c Hk Hc Hidc). }
    set (nc := newChannel m type stream id volume balance autofree
                 permanent rev).
    destruct (insertChannel_spec m handle nc)
      as [[Hfull Hins]|(i & Hi & Hnone & Hfirst & Hins)]; rewrite Hins.
    { eexists _, _, _. split; [reflexivity|].
      split; [auto|]. split; [auto|].
      intros _ (k & Hk & Hfree). destruct (Hfull k Hk Hfree). }
    fold (inserted m i nc).
    exists (inserted m i nc). eexists _, _. split; [reflexivity|].
    split; [intros Hid Hex; destruct (Hdup Hid Hex)|].
    split; [intros Hfull; destruct (Hfull i Hi Hnone)|].
    intros _ _. exists i. intros raw chan.
    assert (Hlen : (i < length (_channels m))%nat)
      by (unfold wf in Hwf; lia).
    assert (Hat : chanAt (inserted m i nc) i = Some chan).
    { rewrite chanAt_inserted by exact Hlen.
      destruct (decide (i = i)); [reflexivity|contradiction]. }
    split; [exact Hi|]. split; [exact Hnone|].
    split; [exact Hfirst|]. split; [exact Hat|]. split; [reflexivity|].
    split.
    { intros k Hk. rewrite chanAt_inserted by exact Hlen.
      destruct (decide (k = i)); [contradiction|reflexivity]. }
    split; [reflexivity|]. split; [reflexivity|]. split; [reflexivity|].
    split.
    - intros Hcase.
      pose proof (handleIndex_encoded i (_handleSeed m) Hi
                    (proj1 Hseed) Hcase) as Hrem.
      fold raw in Hrem. split; [exact Hrem|].
      assert (Hl : MixerImpl.lookupHandle (inserted m i nc) raw = Some chan).
      { apply lookupHandle_Some. unfold MixerImpl.handleIndex.
        rewrite Hrem, Nat2Z.id. split; [exact Hat|reflexivity]. }
      split; [exact Hl|]. apply isSoundHandleActive_lookup. eauto.
    - intros Hfit.
      assert (Hs1 : _handleSeed (inserted m i nc) = _handleSeed m + 1).
      { unfold inserted. simpl. apply wrap_uint32_small. nia. }
      assert (Hraw : raw = Z.of_nat i + _handleSeed m * Z.of_nat NUM_CHANNELS).
      { unfold raw. apply wrap_uint32_small. nia. }
      split; [exact Hraw|]. split; [exact Hs1|].
      rewrite Hs1, Hraw. nia. }
  split.
  { intros h. rewrite isSoundHandleActive_lookup. split.
    - intros [c Hc]. exists c. apply lookupHandle_Some in Hc. exact Hc.
    - intros [c Hc]. exists c. apply lookupHandle_Some. exact Hc. }
  split; [intros h c; apply lookupHandle_Some|].
  split.
  { intros h. unfold MixerImpl.stopHandle.
    destruct (MixerImpl.lookupHandle m h); reflexivity. }
  intros h ops m' Hold Hstale Hfit Hrun.
  assert (Hnone : MixerImpl.lookupHandle m' h = None).
  { apply (run_stale ops h m m' Hwf (proj1 Hseed) Hfit Hold Hstale Hrun). }
  split; [exact Hnone|]. apply isSoundHandleActive_false. exact Hnone.
Qed.
End Encoding.

(** * Further properties of the engine *)

(** ** Loops that rewrite the table slot by slot *)

Section SlotLoops.
Context {cfg : MixerConfig} {S R : Type}.
Context `{!AudioStream S} `{!RateConverter S R}.
Implicit Types (m : MixerImpl S R) (c : Channel S R)
  (l : list (option (Channel S R))).

(** A loop without accumulator whose body rewrites slot [i] with [g i]. *)
Lemma slot_loop_plain m
    (g : nat -> option (Channel S R) -> option (Channel S R))
    (body : nat -> MixerImpl S R -> MixerImpl S R) :
  wf m ->
  (forall i l o,
     l !! i = Some o ->
     body i (set_channels m l) = set_channels m (<[i := g i o]> l)) ->
  for_loop NUM_CHANNELS 0 body m = set_channels m (imap g (_channels m)).
Proof.
  intros Hwf Hbody.
  destruct (for_loop_sweep m (fun m' (_ : unit) => m') eq
              (fun i o (_ : unit) => (g i o, tt)) body)
    with (suf := _channels m) (pre := @nil (option (Channel S R)))
         (a := tt) (b := tt) as (a' & Hrun & _).
  - intros i l o x y Hi _. exists tt. split; [|destruct y; reflexivity].
    apply Hbody. exact Hi.
  - reflexivity.
  - simpl in Hrun. rewrite set_channels_id in Hrun.
    unfold wf in Hwf. rewrite Hwf in Hrun. rewrite Hrun. f_equal.
    assert (Hgen : forall (xs : list (option (Channel S R))) i,
              fst (sweep_slots (fun j o (_ : unit) => (g j o, tt)) i xs tt)
              = imap (fun k => g (i + k)%nat) xs).
    { induction xs as [|o xs IH]; intros i; simpl; [reflexivity|].
      specialize (IH (Datatypes.S i)).
      destruct (sweep_slots _ (Datatypes.S i) xs tt) as [l2 []].
      simpl in *. replace (i + 0)%nat with i by lia. f_equal.
      rewrite IH. apply imap_ext. intros k x _. simpl. f_equal. lia. }
    rewrite Hgen. apply imap_ext. intros k x _. reflexivity.
Qed.

Lemma chanAt_imap m (g : nat -> option (Channel S R) -> option (Channel S R))
    k :
  g k None = None ->
  chanAt (set_channels m (imap g (_channels m))) k = g k (chanAt m k).
Proof.
  intros Hnone. unfold chanAt. simpl. rewrite list_lookup_imap.
  destruct (_channels m !! k) as [o|]; simpl.
  - destruct o as [c|]; [destruct (g k (Some c)); reflexivity|].
    rewrite Hnone. reflexivity.
  - rewrite Hnone. reflexivity.
Qed.

(** The two stop sweeps: every channel that passes [test] is destroyed
    and its slot emptied; the others stay. *)
Lemma remove_sweep (test : Channel S R -> bool) l :
  forall i (log0 : list (Event S R)),
    sweep_slots
      (fun (_ : nat) o log =>
         match o with
         | Some c =>
             if test c then (None, log ++ Channel.dtor c) else (Some c, log)
         | None => (None, log)
         end) i l log0 =
    (map (fun o =>
            match o with
            | Some c => if test c then None else Some c
            | None => None
            end) l,
     log0 ++
     flat_map (fun o =>
                 match o with
                 | Some c => if test c then Channel.dtor c else []
                 | None => []
                 end) l).
Proof.
  induction l as [|o l IH]; intros i log0; cbn [sweep_slots map flat_map].
  - rewrite app_nil_r. reflexivity.
  - destruct o as [c|]; [destruct (test c)|]; rewrite IH; simpl;
      rewrite <- ?app_assoc; reflexivity.
Qed.

Lemma remove_loop m (test : Channel S R -> bool) :
  wf m ->
  for_loop NUM_CHANNELS 0
    (fun i '(mi, log) =>
       match chanAt mi i with
       | Some c =>
           if test c then (setSlot mi i None, log ++ Channel.dtor c)
           else (mi, log)
       | None => (mi, log)
       end) (m, []) =
  (set_channels m
     (map (fun o =>
             match o with
             | Some c => if test c then None else Some c
             | None => None
             end) (_channels m)),
   flat_map (fun o =>
               match o with
               | Some c => if test c then Channel.dtor c else []
               | None => []
               end) (_channels m)).
Proof.
  intros Hwf.
  destruct (for_loop_sweep m (fun m' (x : list (Event S R)) => (m', x)) eq
              (fun (_ : nat) o log =>
                 match o with
                 | Some c =>
                     if test c then (None, log ++ Channel.dtor c)
                     else (Some c, log)
                 | None => (None, log)
                 end)
              (fun i '(mi, log) =>
                 match chanAt mi i with
                 | Some c =>
                     if test c then (setSlot mi i None, log ++ Channel.dtor c)
                     else (mi, log)
                 | None => (mi, log)
                 end))
    with (suf := _channels m) (pre := @nil (option (Channel S R)))
         (a := @nil (Event S R)) (b := @nil (Event S R))
    as (a' & Hrun & Hacc).
  - intros i l o x y Hi <-. rewrite (chanAt_set_channels m l i o Hi).
    destruct o as [c|]; [destruct (test c)|]; simpl; eexists;
      (split; [|reflexivity]); try reflexivity;
      rewrite (list_insert_id l i _ Hi); reflexivity.
  - reflexivity.
  - simpl in Hrun, Hacc. rewrite set_channels_id in Hrun.
    unfold wf in Hwf. rewrite Hwf in Hrun. rewrite Hrun.
    rewrite remove_sweep in Hacc |- *. simpl in *. subst a'. reflexivity.
Qed.
End SlotLoops.

(** ** stopAll *)

Section StopAll.
Context {cfg : MixerConfig} {S R : Type}.
Context `{!AudioStream S} `{!RateConverter S R}.
Implicit Types (m : MixerImpl S R) (c : Channel S R).

Lemma stopAll_eq m :
  wf m ->
  MixerImpl.stopAll m =
  (set_channels m
     (map (fun o =>
             match o with
             | Some c => if negb (_permanent c) then None else Some c
             | None => None
             end) (_channels m)),
   flat_map (fun o =>
               match o with
               | Some c => if negb (_permanent c) then Channel.dtor c else []
               | None => []
               end) (_channels m)).
Proof.
  intros Hwf. unfold MixerImpl.stopAll.
  apply (remove_loop m (fun c => negb (_permanent c)) Hwf).
Qed.

Lemma stopAll_slot m k :
  wf m ->
  chanAt (fst (MixerImpl.stopAll m)) k =
  match chanAt m k with
  | Some c => if _permanent c then Some c else None
  | None => None
  end.
Proof.
  intros Hwf. rewrite stopAll_eq by exact Hwf. unfold chanAt. simpl.
  rewrite list_lookup_fmap.
  destruct (_channels m !! k) as [[c|]|]; simpl; try reflexivity.
  destruct (_permanent c); reflexivity.
Qed.

(** X1. [stopAll] destroys every channel that is not permanent, in slot
    order, and empties its slot; a permanent channel stays in its slot as
    it is and its handle stays valid; nothing else in the engine
    changes. *)
Theorem stopAll_keeps_permanent m :
  wf m ->
  let m' := fst (MixerImpl.stopAll m) in
  (forall k,
     chanAt m' k =
     match chanAt m k with
     | Some c => if _permanent c then Some c else None
     | None => None
     end) /\
  snd (MixerImpl.stopAll m) =
    flat_map (fun o =>
                match o with
                | Some c => if _permanent c then [] else Channel.dtor c
                | None => []
                end) (_channels m) /\
  m' = set_channels m (_channels m') /\
  wf m' /\
  (forall h c,
     MixerImpl.lookupHandle m h = Some c ->
     MixerImpl.lookupHandle m' h = if _permanent c then Some c else None).
Proof.
  intros Hwf m'.
  assert (Hslot : forall k,
            chanAt m' k =
            match chanAt m k with
            | Some c => if _permanent c then Some c else None
            | None => None
            end).
  { intros k. apply stopAll_slot. exact Hwf. }
  split; [exact Hslot|]. split.
  { rewrite stopAll_eq by exact Hwf. simpl. apply flat_map_ext.
    intros [c|]; [|reflexivity]. destruct (_permanent c); reflexivity. }
  split.
  { unfold m'. rewrite stopAll_eq by exact Hwf. reflexivity. }
  split.
  { unfold m', wf. rewrite stopAll_eq by exact Hwf. simpl.
    rewrite length_map. exact Hwf. }
  intros h c Hl. apply lookupHandle_Some in Hl as [Hc Hh].
  unfold MixerImpl.lookupHandle. rewrite Hslot, Hc.
  destruct (_permanent c); [|reflexivity].
  unfold Channel.getHandle. rewrite Hh, Z.eqb_refl. reflexivity.
Qed.

(** X2. A second [stopAll] finds nothing to stop: it returns the engine
    as the first one left it and destroys nothing. *)
Theorem stopAll_idempotent m :
  wf m ->
  MixerImpl.stopAll (fst (MixerImpl.stopAll m)) =
  (fst (MixerImpl.stopAll m), []).
Proof.
  intros Hwf.
  assert (Hwf' : wf (fst (MixerImpl.stopAll m))).
  { unfold wf. rewrite stopAll_eq by exact Hwf. simpl.
    rewrite length_map. exact Hwf. }
  rewrite (stopAll_eq (fst (MixerImpl.stopAll m)) Hwf').
  rewrite stopAll_eq by exact Hwf. simpl. f_equal.
  - f_equal. rewrite map_map. apply map_ext.
    intros [c|]; [|reflexivity].
    destruct (_permanent c) eqn:E; simpl; [rewrite E|]; reflexivity.
  - induction (_channels m) as [|o l IH]; simpl; [reflexivity|].
    rewrite IH. destruct o as [c|]; [|reflexivity].
    destruct (_permanent c) eqn:E; simpl; [rewrite E|]; reflexivity.
Qed.

(** X3. After [stopAll] a sound type is active exactly when a permanent
    channel of that type was in the table. *)
Theorem stopAll_active_types m type :
  wf m ->
  MixerImpl.hasActiveChannelOfType (fst (MixerImpl.stopAll m)) type = true <->
  exists i c, chanAt m i = Some c /\ _permanent c = true /\ _type c = type.
Proof.
  intros Hwf. rewrite hasActiveChannelOfType_true. split.
  - intros (i & c & _ & Hc & Hty). rewrite stopAll_slot in Hc by exact Hwf.
    destruct (chanAt m i) as [c0|] eqn:E; [|discriminate].
    destruct (_permanent c0) eqn:Ep; [|discriminate].
    injection Hc as <-. exists i, c0. auto.
  - intros (i & c & Hc & Hp & Hty). exists i, c.
    split; [apply chanAt_Some_lt in Hc; unfold wf in Hwf; lia|].
    split; [|exact Hty]. rewrite stopAll_slot by exact Hwf.
    rewrite Hc, Hp. reflexivity.
Qed.
End StopAll.

(** ** pauseAll *)

Section PauseAll.
Context {cfg : MixerConfig} {S R : Type}.
Context `{!AudioStream S} `{!RateConverter S R}.
Implicit Types (m : MixerImpl S R) (c : Channel S R).

Lemma pauseAll_eq m paused millis :
  wf m ->
  MixerImpl.pauseAll m paused millis =
  set_channels m
    (imap (fun i o =>
             match o with
             | Some c => Some (Channel.pause c paused (millis i))
             | None => None
             end) (_channels m)).
Proof.
  intros Hwf. unfold MixerImpl.pauseAll.
  apply (slot_loop_plain m
           (fun i o =>
              match o with
              | Some c => Some (Channel.pause c paused (millis i))
              | None => None
              end)); [exact Hwf|].
  intros i l o Hi. rewrite (chanAt_set_channels m l i o Hi).
  destruct o as [c|]; [reflexivity|].
  rewrite (list_insert_id l i _ Hi). reflexivity.
Qed.

Lemma pauseAll_slot m paused millis k :
  wf m ->
  chanAt (MixerImpl.pauseAll m paused millis) k =
  match chanAt m k with
  | Some c => Some (Channel.pause c paused (millis k))
  | None => None
  end.
Proof.
  intros Hwf. rewrite pauseAll_eq by exact Hwf.
  apply (chanAt_imap m
           (fun i o =>
              match o with
              | Some c => Some (Channel.pause c paused (millis i))
              | None => None
              end)).
  reflexivity.
Qed.

Lemma pauseAll_wf m paused millis :
  wf m -> wf (MixerImpl.pauseAll m paused millis).
Proof.
  intros Hwf. rewrite pauseAll_eq by exact Hwf. unfold wf. simpl.
  rewrite length_imap. exact Hwf.
Qed.

Lemma set_pause_same c :
  set_pause c (_pauseLevel c) (_pauseStartTime c) (_pauseTime c) = c.
Proof. destruct c. reflexivity. Qed.

(** A pause followed by an unpause on one channel. *)
Lemma pause_unpause c t1 t2 :
  0 <= _pauseLevel c < INT_MAX ->
  Channel.pause (Channel.pause c true t1) false t2 =
  if _pauseLevel c =? 0 then set_pause c 0 0 (wrap_uint32 (t2 - t1))
  else c.
Proof.
  intros Hl. rewrite (pause_true c t1 Hl).
  rewrite pause_false_pos by (simpl; lia). simpl.
  destruct (Z.eqb_spec (_pauseLevel c) 0) as [H0|H0].
  - rewrite H0. reflexivity.
  - destruct (Z.eqb_spec (_pauseLevel c + 1) 1) as [H1|H1]; [lia|].
    replace (_pauseLevel c + 1 - 1) with (_pauseLevel c) by lia.
    destruct c. reflexivity.
Qed.

(** X4. [pauseAll] applies [pause] to the channel of every occupied slot
    and leaves the empty slots empty.  [pauseAll(true)] followed by
    [pauseAll(false)] gives back a channel that was already paused exactly
    as it was; on a channel that was not paused it changes only the pause
    bookkeeping: the pause start is cleared and the paused duration is the
    time between the two calls, modulo 2^32.  The depth of the channel is
    an [int] below its maximum. *)
Theorem pauseAll_round_trip m t1 t2 k :
  wf m ->
  (forall p t,
     chanAt (MixerImpl.pauseAll m p t) k =
     match chanAt m k with
     | Some c => Some (Channel.pause c p (t k))
     | None => None
     end) /\
  (forall c,
     chanAt m k = Some c ->
     0 <= _pauseLevel c < INT_MAX ->
     Channel.isPaused (Channel.pause c true (t1 k)) = true /\
     chanAt (MixerImpl.pauseAll (MixerImpl.pauseAll m true t1) false t2) k =
     Some (if _pauseLevel c =? 0 then
             set_pause c 0 0 (wrap_uint32 (t2 k - t1 k))
           else c)).
Proof.
  intros Hwf. split.
  { intros p t. apply pauseAll_slot. exact Hwf. }
  intros c Hc Hl. split.
  - rewrite pause_true by exact Hl. unfold Channel.isPaused. simpl.
    apply negb_true_iff, Z.eqb_neq. lia.
  - rewrite pauseAll_slot by (apply pauseAll_wf; exact Hwf).
    rewrite pauseAll_slot by exact Hwf. rewrite Hc.
    rewrite pause_unpause by exact Hl. reflexivity.
Qed.
End PauseAll.

(** ** Category settings *)

Section Categories.
Context {cfg : MixerConfig} {S R : Type}.
Context `{!AudioStream S} `{!RateConverter S R}.
Implicit Types (m : MixerImpl S R) (c : Channel S R).

Lemma notifyType_eq m type :
  wf m ->
  MixerImpl.notifyType m type =
  set_channels m
    (imap (fun (_ : nat) o =>
             match o with
             | Some c =>
                 if decide (_type c = type) then
                   Some (Channel.updateChannelVolumes m c)
                 else Some c
             | None => None
             end) (_channels m)).
Proof.
  intros Hwf. unfold MixerImpl.notifyType.
  apply (slot_loop_plain m
           (fun (_ : nat) o =>
              match o with
              | Some c =>
                  if decide (_type c = type) then
                    Some (Channel.updateChannelVolumes m c)
                  else Some c
              | None => None
              end)); [exact Hwf|].
  intros i l o Hi. rewrite (chanAt_set_channels m l i o Hi).
  destruct o as [c|].
  - unfold Channel.getType. destruct (decide (_type c = type)).
    + reflexivity.
    + rewrite (list_insert_id l i _ Hi). reflexivity.
  - rewrite (list_insert_id l i _ Hi). reflexivity.
Qed.

Lemma notifyType_slot m type k :
  wf m ->
  chanAt (MixerImpl.notifyType m type) k =
  match chanAt m k with
  | Some c =>
      if decide (_type c = type) then
        Some (Channel.updateChannelVolumes m c)
      else Some c
  | None => None
  end.
Proof.
  intros Hwf. rewrite notifyType_eq by exact Hwf.
  apply (chanAt_imap m
           (fun (_ : nat) o =>
              match o with
              | Some c =>
                  if decide (_type c = type) then
                    Some (Channel.updateChannelVolumes m c)
                  else Some c
              | None => None
              end)).
  reflexivity.
Qed.

Lemma CLIP_range v lo hi : lo <= hi -> lo <= MixerImpl.CLIP v lo hi <= hi.
Proof.
  intros Hle. unfold MixerImpl.CLIP.
  destruct (Z.ltb_spec v lo); [lia|].
  rewrite Z.gtb_ltb. destruct (Z.ltb_spec hi v); lia.
Qed.

Lemma CLIP_inside v lo hi : lo <= v <= hi -> MixerImpl.CLIP v lo hi = v.
Proof.
  intros Hv. unfold MixerImpl.CLIP.
  destruct (Z.ltb_spec v lo); [lia|].
  rewrite Z.gtb_ltb. destruct (Z.ltb_spec hi v); lia.
Qed.

(** X5. [setVolumeForSoundType] stores the requested volume clipped to
    0..256 (a volume inside the range is stored as given, one below it as
    0 and one above it as 256) and reads it back through
    [getVolumeForSoundType]; the mute flag of the type and the settings of
    every other type are unchanged.  Every channel of the type gets its
    gains recomputed from the new setting; channels of other types and
    empty slots are left as they were. *)
Theorem setVolumeForSoundType_clips m type vol :
  wf m ->
  let m' := MixerImpl.setVolumeForSoundType m type vol in
  0 <= MixerImpl.getVolumeForSoundType m' type <= 256 /\
  MixerImpl.getVolumeForSoundType m' type =
    (if vol <? 0 then 0 else if vol >? 256 then 256 else vol) /\
  MixerImpl.isSoundTypeMuted m' type = MixerImpl.isSoundTypeMuted m type /\
  (forall t, t <> type ->
     _soundTypeSettings m' t = _soundTypeSettings m t) /\
  (forall k,
     chanAt m' k =
     match chanAt m k with
     | Some c =>
         if decide (_type c = type) then
           Some (Channel.updateChannelVolumes m' c)
         else Some c
     | None => None
     end).
Proof.
  intros Hwf m'.
  set (m1 := set_soundTypeSettings m
               (fun t =>
                  if decide (t = type) then
                    mkSoundTypeSettings (mute (_soundTypeSettings m t))
                      (MixerImpl.CLIP vol 0 kMaxMixerVolume)
                  else _soundTypeSettings m t)).
  assert (Hm' : m' = MixerImpl.notifyType m1 type) by reflexivity.
  assert (Hwf1 : wf m1) by exact Hwf.
  assert (Hset : _soundTypeSettings m' = _soundTypeSettings m1).
  { rewrite Hm', notifyType_eq by exact Hwf1. reflexivity. }
  unfold MixerImpl.getVolumeForSoundType, MixerImpl.isSoundTypeMuted,
    Mixer.getVolumeForSoundType, Mixer.isSoundTypeMuted.
  rewrite Hset. simpl.
  destruct (decide (type = type)) as [_|Hne]; [|contradiction]. simpl.
  split; [apply (CLIP_range vol 0 256); lia|].
  split; [reflexivity|]. split; [reflexivity|]. split.
  { intros t Ht. destruct (decide (t = type)); [contradiction|reflexivity]. }
  intros k. rewrite Hm', notifyType_slot by exact Hwf1.
  change (chanAt m1 k) with (chanAt m k).
  destruct (chanAt m k) as [c|]; [|reflexivity].
  destruct (decide (_type c = type)); [|reflexivity].
  f_equal. unfold Channel.updateChannelVolumes, Mixer.isSoundTypeMuted,
    Mixer.getVolumeForSoundType. rewrite <- Hm', Hset. reflexivity.
Qed.

(** X6. [muteSoundType] stores the flag and keeps the volume of the type
    and the settings of the other types.  After muting, every channel of
    the type has both gains zero, whatever its volume, balance and faders;
    after a later unmute its gains are again what the settings give.
    Channels of other types are not touched. *)
Theorem muteSoundType_silences m type :
  wf m ->
  (forall flag,
     let m' := MixerImpl.muteSoundType m type flag in
     MixerImpl.isSoundTypeMuted m' type = flag /\
     MixerImpl.getVolumeForSoundType m' type =
       MixerImpl.getVolumeForSoundType m type /\
     (forall t, t <> type ->
        _soundTypeSettings m' t = _soundTypeSettings m t) /\
     (forall k c,
        chanAt m k = Some c -> _type c <> type -> chanAt m' k = Some c) /\
     (forall k c,
        chanAt m k = Some c -> _type c = type ->
        chanAt m' k = Some (Channel.updateChannelVolumes m' c))) /\
  (forall k c,
     chanAt m k = Some c -> _type c = type ->
     exists c',
       chanAt (MixerImpl.muteSoundType m type true) k = Some c' /\
       _volL c' = 0 /\ _volR c' = 0 /\
       c' = set_vols c 0 0 /\
       chanAt (MixerImpl.muteSoundType
                 (MixerImpl.muteSoundType m type true) type false) k =
       Some (Channel.updateChannelVolumes
               (MixerImpl.muteSoundType m type false) c)).
Proof.
  intros Hwf.
  assert (Hgen : forall m0 flag,
            wf m0 ->
            let m1 := set_soundTypeSettings m0
                        (fun t =>
                           if decide (t = type) then
                             mkSoundTypeSettings flag
                               (volume (_soundTypeSettings m0 t))
                           else _soundTypeSettings m0 t) in
            MixerImpl.muteSoundType m0 type flag =
              MixerImpl.notifyType m1 type /\
            _soundTypeSettings (MixerImpl.muteSoundType m0 type flag) =
              _soundTypeSettings m1 /\
            wf (MixerImpl.muteSoundType m0 type flag) /\
            forall k,
              chanAt (MixerImpl.muteSoundType m0 type flag) k =
              match chanAt m0 k with
              | Some c =>
                  if decide (_type c = type) then
                    Some (Channel.updateChannelVolumes m1 c)
                  else Some c
              | None => None
              end).
  { intros m0 flag Hwf0 m1.
    assert (Hwf1 : wf m1) by exact Hwf0.
    split; [reflexivity|].
    unfold MixerImpl.muteSoundType. fold m1.
    split; [rewrite notifyType_eq by exact Hwf1; reflexivity|].
    split.
    { rewrite notifyType_eq by exact Hwf1. unfold wf. simpl.
      rewrite length_imap. exact Hwf0. }
    intros k. rewrite notifyType_slot by exact Hwf1. reflexivity. }
  split.
  - intros flag m'.
    destruct (Hgen m flag Hwf) as (_ & Hset & _ & Hslot). fold m' in Hset, Hslot.
    unfold MixerImpl.getVolumeForSoundType, MixerImpl.isSoundTypeMuted,
      Mixer.getVolumeForSoundType, Mixer.isSoundTypeMuted.
    rewrite Hset. simpl.
    destruct (decide (type = type)) as [_|Hne]; [|contradiction]. simpl.
    split; [reflexivity|]. split; [reflexivity|]. split.
    { intros t Ht. destruct (decide (t = type)); [contradiction|reflexivity]. }
    split.
    + intros k c Hc Hty. rewrite Hslot, Hc.
      destruct (decide (_type c = type)); [contradiction|reflexivity].
    + intros k c Hc Hty. rewrite Hslot, Hc.
      destruct (decide (_type c = type)); [|contradiction].
      f_equal. unfold Channel.updateChannelVolumes, Mixer.isSoundTypeMuted,
        Mixer.getVolumeForSoundType. rewrite Hset. reflexivity.
  - intros k c Hc Hty.
    destruct (Hgen m true Hwf) as (_ & Hset1 & Hwf1 & Hslot1).
    destruct (Hgen (MixerImpl.muteSoundType m type true) false Hwf1)
      as (_ & Hset2 & _ & Hslot2).
    destruct (Hgen m false Hwf) as (_ & Hset3 & _ & _).
    assert (Hmuted :
      Channel.updateChannelVolumes
        (set_soundTypeSettings m
           (fun t =>
              if decide (t = type) then
                mkSoundTypeSettings true (volume (_soundTypeSettings m t))
              else _soundTypeSettings m t)) c = set_vols c 0 0).
    { unfold Channel.updateChannelVolumes, Mixer.isSoundTypeMuted. simpl.
      destruct (decide (_type c = type)); [|contradiction]. reflexivity. }
    exists (set_vols c 0 0).
    split.
    { rewrite Hslot1, Hc.
      destruct (decide (_type c = type)); [|contradiction].
      rewrite Hmuted. reflexivity. }
    split; [reflexivity|]. split; [reflexivity|]. split; [reflexivity|].
    rewrite Hslot2, Hslot1, Hc.
    destruct (decide (_type c = type)) as [_|]; [|contradiction].
    rewrite Hmuted. simpl.
    destruct (decide (_type c = type)) as [_|]; [|contradiction].
    f_equal.
    unfold Channel.updateChannelVolumes, Mixer.isSoundTypeMuted,
      Mixer.getVolumeForSoundType.
    rewrite Hset3, Hset1. simpl.
    destruct (decide (_type c = type)) as [_|]; [|contradiction].
    reflexivity.
Qed.
End Categories.

(** ** Gains are never stale *)

Section FreshGains.
Context {cfg : MixerConfig} {S R : Type}.
Context `{!AudioStream S} `{!RateConverter S R}.
Implicit Types (m : MixerImpl S R) (c : Channel S R).

(** The gains that [updateChannelVolumes] writes depend on the channel
    through [gain_inputs] only, and on the engine through the settings of
    the channel's type only. *)
Lemma updateChannelVolumes_inputs m m' c c' :
  gain_inputs c' = gain_inputs c ->
  _soundTypeSettings m' (_type c) = _soundTypeSettings m (_type c) ->
  _volL (Channel.updateChannelVolumes m' c') =
    _volL (Channel.updateChannelVolumes m c) /\
  _volR (Channel.updateChannelVolumes m' c') =
    _volR (Channel.updateChannelVolumes m c).
Proof.
  unfold gain_inputs. intros [= Hty Hvol Hbal HfL HfR] Hset.
  unfold Channel.updateChannelVolumes, Mixer.isSoundTypeMuted,
    Mixer.getVolumeForSoundType.
  rewrite Hty, Hvol, Hbal, HfL, HfR, Hset.
  destruct (negb _); [|simpl; auto].
  destruct (_balance c =? 0); [simpl; auto|].
  destruct (_balance c <? 0); simpl; auto.
Qed.

Lemma gains_current_transfer m m' c c' :
  gain_inputs c' = gain_inputs c ->
  _volL c' = _volL c -> _volR c' = _volR c ->
  _soundTypeSettings m' (_type c) = _soundTypeSettings m (_type c) ->
  gains_current m c -> gains_current m' c'.
Proof.
  intros Hin HL HR Hset [HcL HcR]. unfold gains_current.
  destruct (updateChannelVolumes_inputs m m' c c' Hin Hset) as [HnL HnR].
  split; congruence.
Qed.

(** Recomputing twice is recomputing once. *)
Lemma updateChannelVolumes_current m c :
  gains_current m (Channel.updateChannelVolumes m c).
Proof.
  unfold gains_current.
  apply (updateChannelVolumes_inputs m m c
           (Channel.updateChannelVolumes m c)); [|reflexivity].
  rewrite updateChannelVolumes_frame. reflexivity.
Qed.

Lemma gains_fresh_setSlot_None m i :
  gains_fresh m -> gains_fresh (setSlot m i None).
Proof.
  intros Hf k c Hc.
  destruct (decide (i = k)) as [<-|Hne].
  - rewrite chanAt_setSlot_None in Hc. discriminate.
  - rewrite chanAt_setSlot_ne in Hc by exact Hne. apply (Hf k c Hc).
Qed.

Lemma gains_fresh_setSlot_Some m i c' :
  gains_fresh m -> gains_current m c' ->
  gains_fresh (setSlot m i (Some c')).
Proof.
  intros Hf Hc' k c Hc.
  destruct (decide (i = k)) as [<-|Hne].
  - destruct (decide (i < length (_channels m))%nat) as [Hi|Hi].
    + rewrite chanAt_setSlot_eq in Hc by exact Hi. injection Hc as <-.
      exact Hc'.
    + unfold setSlot in Hc. rewrite list_insert_ge in Hc by lia.
      rewrite set_channels_id in Hc. apply (Hf i c Hc).
  - rewrite chanAt_setSlot_ne in Hc by exact Hne. apply (Hf k c Hc).
Qed.

(** A channel method that leaves the gains and their inputs alone. *)
Lemma gains_fresh_by_handle m handle (f : Channel S R -> Channel S R) :
  (forall c, gains_current m c -> gains_current m (f c)) ->
  gains_fresh m ->
  gains_fresh
    match MixerImpl.lookupHandle m handle with
    | None => m
    | Some c => setSlot m (MixerImpl.handleIndex handle) (Some (f c))
    end.
Proof.
  intros Hf Hfresh.
  destruct (MixerImpl.lookupHandle m handle) as [c|] eqn:E; [|exact Hfresh].
  apply lookupHandle_Some in E as [Hc _].
  apply gains_fresh_setSlot_Some; [exact Hfresh|].
  apply Hf. apply (Hfresh _ _ Hc).
Qed.

Lemma pause_keeps_gains m c paused now :
  gains_current m c -> gains_current m (Channel.pause c paused now).
Proof.
  apply gains_current_transfer; try reflexivity;
    unfold Channel.pause, gain_inputs; destruct paused;
    repeat match goal with
           | |- context [if ?b then _ else _] => destruct b
           end; reflexivity.
Qed.

Lemma mix_keeps_gains m c data len now :
  gains_current m c ->
  gains_current m (fst (fst (Channel.mix c data len now))).
Proof.
  apply gains_current_transfer; try reflexivity;
    unfold Channel.mix, gain_inputs;
    destruct (negb (endOfData (_stream c)) || needsDraining (_converter c));
    try reflexivity;
    destruct (convert _ _ _ _ _ _) as [[[r s] data'] res]; reflexivity.
Qed.

Lemma loop_keeps_gains m c :
  gains_current m c -> gains_current m (Channel.loop c).
Proof.
  apply gains_current_transfer; try reflexivity;
    unfold Channel.loop, gain_inputs;
    destruct (isRewindable (_stream c)); reflexivity.
Qed.

Lemma for_loop_preserves {St : Type} (I : St -> Prop)
    (body : nat -> St -> St) :
  (forall j s, I s -> I (body j s)) ->
  forall n i s, I s -> I (for_loop n i body s).
Proof.
  intros Hbody n i s Hs.
  apply (for_loop_inv (fun _ => I) body n i s Hs).
  intros j t _. apply Hbody.
Qed.

(** The notification of a type after a change of its settings. *)
Lemma notifyType_fresh m m1 type :
  wf m ->
  _channels m1 = _channels m ->
  (forall t, t <> type -> _soundTypeSettings m1 t = _soundTypeSettings m t) ->
  gains_fresh m ->
  gains_fresh (MixerImpl.notifyType m1 type).
Proof.
  intros Hwf Hch Hother Hfresh k c' Hc'.
  assert (Hwf1 : wf m1) by (unfold wf in *; congruence).
  rewrite notifyType_slot in Hc' by exact Hwf1.
  assert (Hset : _soundTypeSettings (MixerImpl.notifyType m1 type)
                 = _soundTypeSettings m1).
  { rewrite notifyType_eq by exact Hwf1. reflexivity. }
  assert (Hat : chanAt m1 k = chanAt m k) by (unfold chanAt; rewrite Hch; reflexivity).
  rewrite Hat in Hc'.
  destruct (chanAt m k) as [c|] eqn:Hc; [|discriminate].
  destruct (decide (_type c = type)) as [Hty|Hty]; injection Hc' as <-.
  - apply (gains_current_transfer m1 _ _ _ eq_refl eq_refl eq_refl).
    + rewrite Hset. reflexivity.
    + apply updateChannelVolumes_current.
  - apply (gains_current_transfer m _ c c eq_refl eq_refl eq_refl).
    + rewrite Hset. apply Hother. exact Hty.
    + apply (Hfresh _ _ Hc).
Qed.

Lemma step_gains_fresh m (op : Op (S := S)) m' :
  wf m -> gains_fresh m -> step m op = Ok m' -> gains_fresh m'.
Proof.
  intros Hwf Hfresh.
  destruct op
    as [type handle stream id vol balance autofree permanent rev
       | samples len millis | ready | | id | handle | type mu | type vol
       | handle vol | handle balance | handle faderL | handle faderR
       | handle rate | handle | handle | paused millis | id paused now
       | handle paused now];
    simpl; intros Hstep; try (injection Hstep as <-).
  - destruct stream as [stream|];
      [|simpl in Hstep; injection Hstep as <-; exact Hfresh].
    destruct (_mixerReady m) eqn:Hready;
      [|unfold MixerImpl.playStream in Hstep; rewrite Hready in Hstep;
        discriminate].
    destruct (playStream_spec m type handle stream id vol balance
                autofree permanent rev Hready)
      as [(_ & _ & Hplay)|(_ & Hplay)]; rewrite Hplay in Hstep.
    + injection Hstep as <-. exact Hfresh.
    + destruct (insertChannel_spec m handle
                  (newChannel m type stream id vol balance autofree
                     permanent rev))
        as [[_ Hins]|(i & Hi & Hnone & _ & Hins)]; rewrite Hins in Hstep;
        injection Hstep as <-; [exact Hfresh|].
      intros k c Hc.
      change (chanAt (set_handleSeed ?x ?y) k) with (chanAt x k) in Hc.
      apply (gains_current_transfer
               (setSlot m i
                  (Some (Channel.setHandle
                           (newChannel m type stream id vol balance autofree
                              permanent rev)
                           (wrap_uint32
                              (Z.of_nat i
                               + _handleSeed m * Z.of_nat NUM_CHANNELS)))))
               _ c c eq_refl eq_refl eq_refl eq_refl).
      revert k c Hc. apply gains_fresh_setSlot_Some; [exact Hfresh|].
      apply (gains_current_transfer m m
               (newChannel m type stream id vol balance autofree permanent
                  rev)); try reflexivity.
      unfold newChannel, Channel.setBalance.
      apply updateChannelVolumes_current.
  - unfold MixerImpl.mixCallback in Hstep.
    destruct samples as [buf|]; [|discriminate].
    destruct (negb _); [discriminate|].
    match type of Hstep with
    | context [for_loop ?n0 ?i0 ?body0 ?s0] =>
        pose proof (for_loop_preserves
          (fun x : MixerImpl S R * list Z * Z * list (Event S R) =>
             gains_fresh (fst (fst (fst x)))) body0) as Hloop;
        assert (Hrun := fun Hb => Hloop Hb n0 i0 s0)
    end.
    match type of Hrun with
    | ?P -> _ => assert (Hbody : P)
    end.
    { intros j [[[mj bufj] resj] logj] Hj. simpl in *.
      destruct (chanAt mj j) as [c|] eqn:Hc; [|exact Hj].
      destruct (Channel.isFinished c);
        [apply gains_fresh_setSlot_None; exact Hj|].
      destruct (negb (Channel.isPaused c)); [|exact Hj].
      pose proof (mix_keeps_gains mj c bufj
                    (if _stereo (set_mixerReady m true)
                     then Z.shiftr len 2 else Z.shiftr len 1) (millis j)
                    (Hj _ _ Hc)) as Hk.
      destruct (Channel.mix _ _ _ _) as [[c' buf'] tmp]. simpl in *.
      apply gains_fresh_setSlot_Some; assumption. }
    specialize (Hrun Hbody Hfresh).
    destruct (for_loop _ _ _ _) as [[[m1 buf'] res] log].
    injection Hstep as <-. exact Hrun.
  - exact Hfresh.
  - unfold MixerImpl.stopAll.
    apply (for_loop_preserves
             (fun x : MixerImpl S R * list (Event S R) =>
                gains_fresh (fst x))); [|exact Hfresh].
    intros j [mj logj] Hj. simpl in *.
    destruct (chanAt mj j) as [c|]; [|exact Hj].
    destruct (negb (Channel.isPermanent c)); [|exact Hj].
    apply gains_fresh_setSlot_None. exact Hj.
  - unfold MixerImpl.stopID.
    apply (for_loop_preserves
             (fun x : MixerImpl S R * list (Event S R) =>
                gains_fresh (fst x))); [|exact Hfresh].
    intros j [mj logj] Hj. simpl in *.
    destruct (chanAt mj j) as [c|]; [|exact Hj].
    destruct (Channel.getId c =? id); [|exact Hj].
    apply gains_fresh_setSlot_None. exact Hj.
  - unfold MixerImpl.stopHandle.
    destruct (MixerImpl.lookupHandle m handle); simpl; [|exact Hfresh].
    apply gains_fresh_setSlot_None. exact Hfresh.
  - unfold MixerImpl.muteSoundType.
    apply (notifyType_fresh m); try assumption; [reflexivity|].
    intros t Ht. simpl. destruct (decide (t = type)); [contradiction|].
    reflexivity.
  - unfold MixerImpl.setVolumeForSoundType.
    apply (notifyType_fresh m); try assumption; [reflexivity|].
    intros t Ht. simpl. destruct (decide (t = type)); [contradiction|].
    reflexivity.
  - apply (gains_fresh_by_handle m handle
             (fun c => Channel.setVolume m c vol)); [|exact Hfresh].
    intros c _. apply updateChannelVolumes_current.
  - apply (gains_fresh_by_handle m handle
             (fun c => Channel.setBalance m c balance)); [|exact Hfresh].
    intros c _. apply updateChannelVolumes_current.
  - apply (gains_fresh_by_handle m handle
             (fun c => Channel.setFaderL m c faderL)); [|exact Hfresh].
    intros c _. apply updateChannelVolumes_current.
  - apply (gains_fresh_by_handle m handle
             (fun c => Channel.setFaderR m c faderR)); [|exact Hfresh].
    intros c _. apply updateChannelVolumes_current.
  - apply (gains_fresh_by_handle m handle
             (fun c => Channel.setRate c rate)); [|exact Hfresh].
    intros c. apply gains_current_transfer; reflexivity.
  - apply (gains_fresh_by_handle m handle Channel.resetRate);
      [|exact Hfresh].
    intros c. apply gains_current_transfer; reflexivity.
  - apply (gains_fresh_by_handle m handle Channel.loop); [|exact Hfresh].
    intros c. apply loop_keeps_gains.
  - unfold MixerImpl.pauseAll.
    apply (for_loop_preserves (fun x : MixerImpl S R => gains_fresh x));
      [|exact Hfresh].
    intros j mj Hj.
    destruct (chanAt mj j) as [c|] eqn:Hc; [|exact Hj].
    apply gains_fresh_setSlot_Some; [exact Hj|].
    apply pause_keeps_gains. apply (Hj _ _ Hc).
  - destruct (pauseID_spec m id paused now)
      as [[-> _]|(i & c & _ & Hc & _ & _ & ->)]; [exact Hfresh|].
    apply gains_fresh_setSlot_Some; [exact Hfresh|].
    apply pause_keeps_gains. apply (Hfresh _ _ Hc).
  - apply (gains_fresh_by_handle m handle
             (fun c => Channel.pause c paused now)); [|exact Hfresh].
    intros c. apply pause_keeps_gains.
Qed.

(** X7. The effective gains are never stale: in every state that a
    constructed engine reaches through any sequence of requests (plays,
    stops, pauses, volume, balance, fader, rate, mute and category volume
    changes, mixing cycles), the gains stored in each live channel are
    exactly what [updateChannelVolumes] computes from the channel's
    volume, balance and faders and the current settings of its sound
    type.  The same holds from any state that has the property. *)
Theorem gains_never_stale :
  (forall sampleRate stereo outBufSize (m0 : MixerImpl S R) ops m',
     MixerImpl.ctor sampleRate stereo outBufSize = Ok m0 ->
     run m0 ops = Ok m' ->
     gains_fresh m') /\
  (forall m ops m',
     wf m -> gains_fresh m -> run m ops = Ok m' -> gains_fresh m').
Proof.
  assert (Hrun : forall (m : MixerImpl S R) ops m',
            wf m -> gains_fresh m -> run m ops = Ok m' -> gains_fresh m').
  { intros m ops m' Hwf Hfresh Hr.
    apply (run_invariant (fun x => wf x /\ gains_fresh x)) with (ops := ops)
      (m := m) (m' := m'); [|auto|exact Hr].
    intros x op x' [Hw Hf] Hstep. split.
    - eapply step_wf; eassumption.
    - eapply step_gains_fresh; eassumption. }
  split; [|exact Hrun].
  intros sampleRate stereo outBufSize m0 ops m' Hctor Hr.
  destruct (ctor_wf _ _ _ _ Hctor) as (Hwf & Hempty & _).
  apply (Hrun m0 ops m' Hwf); [|exact Hr].
  intros i c Hc. rewrite Hempty in Hc. discriminate.
Qed.
End FreshGains.

(** ** Handles: play, set, get, stop *)

Section HandleOps.
Context {cfg : MixerConfig} {S R : Type}.
Context `{!AudioStream S} `{!RateConverter S R}.
Implicit Types (m : MixerImpl S R) (c : Channel S R).

Lemma updateChannelVolumes_fields m c :
  _volume (Channel.updateChannelVolumes m c) = _volume c /\
  _balance (Channel.updateChannelVolumes m c) = _balance c /\
  _faderL (Channel.updateChannelVolumes m c) = _faderL c /\
  _faderR (Channel.updateChannelVolumes m c) = _faderR c /\
  _handle (Channel.updateChannelVolumes m c) = _handle c /\
  _pauseLevel (Channel.updateChannelVolumes m c) = _pauseLevel c.
Proof. rewrite updateChannelVolumes_frame. simpl. auto 10. Qed.

Lemma newChannel_fields m type stream id vol bal autofree permanent rev :
  let nc := newChannel m type stream id vol bal autofree permanent rev in
  _volume nc = vol /\ _balance nc = bal /\
  _faderL nc = 255 /\ _faderR nc = 255 /\
  _type nc = type /\ _pauseLevel nc = 0.
Proof.
  unfold newChannel, Channel.setBalance, Channel.setVolume.
  rewrite (updateChannelVolumes_frame m (set_balance _ _)). simpl.
  rewrite (updateChannelVolumes_frame m (set_volume _ _)). simpl.
  auto 10.
Qed.

(** Rewriting the channel that a handle names, the handle value kept. *)
Lemma lookupHandle_rewritten m h c c' :
  MixerImpl.lookupHandle m h = Some c ->
  _handle c' = _handle c ->
  let m' := setSlot m (MixerImpl.handleIndex h) (Some c') in
  MixerImpl.lookupHandle m' h = Some c' /\
  forall h', h' <> h ->
    MixerImpl.lookupHandle m' h' = MixerImpl.lookupHandle m h'.
Proof.
  intros Hl Hh m'. apply lookupHandle_Some in Hl as [Hc Hv].
  assert (Hlt : (MixerImpl.handleIndex h < length (_channels m))%nat)
    by (eapply chanAt_Some_lt; exact Hc).
  split.
  - apply lookupHandle_Some. unfold m'.
    rewrite chanAt_setSlot_eq by exact Hlt. split; [reflexivity|congruence].
  - intros h' Hne. unfold MixerImpl.lookupHandle, m'.
    destruct (decide (MixerImpl.handleIndex h = MixerImpl.handleIndex h'))
      as [He|He].
    + rewrite <- He. rewrite chanAt_setSlot_eq by exact Hlt. rewrite Hc.
      unfold Channel.getHandle. rewrite Hh, Hv.
      destruct (Z.eqb_spec h h'); [congruence|reflexivity].
    + rewrite chanAt_setSlot_ne by exact He. reflexivity.
Qed.

(** X8. With a valid handle, each of the four setters is read back by
    its getter, leaves the other three values of that channel as they
    were, keeps the handle valid, and changes nothing that any other
    handle reaches. *)
Theorem handle_set_get m h c :
  MixerImpl.lookupHandle m h = Some c ->
  (forall v,
     let m' := MixerImpl.setChannelVolume m h v in
     MixerImpl.getChannelVolume m' h = v /\
     MixerImpl.getChannelBalance m' h = _balance c /\
     MixerImpl.getChannelFaderL m' h = _faderL c /\
     MixerImpl.getChannelFaderR m' h = _faderR c /\
     MixerImpl.isSoundHandleActive m' h = true /\
     forall h', h' <> h ->
       MixerImpl.lookupHandle m' h' = MixerImpl.lookupHandle m h') /\
  (forall b,
     let m' := MixerImpl.setChannelBalance m h b in
     MixerImpl.getChannelBalance m' h = b /\
     MixerImpl.getChannelVolume m' h = _volume c /\
     MixerImpl.getChannelFaderL m' h = _faderL c /\
     MixerImpl.getChannelFaderR m' h = _faderR c /\
     MixerImpl.isSoundHandleActive m' h = true /\
     forall h', h' <> h ->
       MixerImpl.lookupHandle m' h' = MixerImpl.lookupHandle m h') /\
  (forall f,
     let m' := MixerImpl.setChannelFaderL m h f in
     MixerImpl.getChannelFaderL m' h = f /\
     MixerImpl.getChannelVolume m' h = _volume c /\
     MixerImpl.getChannelBalance m' h = _balance c /\
     MixerImpl.getChannelFaderR m' h = _faderR c /\
     MixerImpl.isSoundHandleActive m' h = true /\
     forall h', h' <> h ->
       MixerImpl.lookupHandle m' h' = MixerImpl.lookupHandle m h') /\
  (forall f,
     let m' := MixerImpl.setChannelFaderR m h f in
     MixerImpl.getChannelFaderR m' h = f /\
     MixerImpl.getChannelVolume m' h = _volume c /\
     MixerImpl.getChannelBalance m' h = _balance c /\
     MixerImpl.getChannelFaderL m' h = _faderL c /\
     MixerImpl.isSoundHandleActive m' h = true /\
     forall h', h' <> h ->
       MixerImpl.lookupHandle m' h' = MixerImpl.lookupHandle m h').
Proof.
  intros Hl.
  assert (Hgen : forall c',
            _handle c' = _handle c ->
            let m' := setSlot m (MixerImpl.handleIndex h) (Some c') in
            MixerImpl.getChannelVolume m' h = _volume c' /\
            MixerImpl.getChannelBalance m' h = _balance c' /\
            MixerImpl.getChannelFaderL m' h = _faderL c' /\
            MixerImpl.getChannelFaderR m' h = _faderR c' /\
            MixerImpl.isSoundHandleActive m' h = true /\
            forall h', h' <> h ->
              MixerImpl.lookupHandle m' h' = MixerImpl.lookupHandle m h').
  { intros c' Hh m'.
    destruct (lookupHandle_rewritten m h c c' Hl Hh) as [Hl' Hother].
    fold m' in Hl', Hother.
    unfold MixerImpl.getChannelVolume, MixerImpl.getChannelBalance,
      MixerImpl.getChannelFaderL, MixerImpl.getChannelFaderR.
    rewrite Hl'. repeat split; try reflexivity; [|exact Hother].
    apply isSoundHandleActive_lookup. eauto. }
  unfold MixerImpl.setChannelVolume, MixerImpl.setChannelBalance,
    MixerImpl.setChannelFaderL, MixerImpl.setChannelFaderR,
    Channel.setVolume, Channel.setBalance, Channel.setFaderL,
    Channel.setFaderR.
  rewrite Hl.
  split; [|split; [|split]]; intros x;
    match goal with
    | |- context [Channel.updateChannelVolumes m ?y] =>
        destruct (updateChannelVolumes_fields m y)
          as (Fv & Fb & FL & FR & Fh & _);
        destruct (Hgen (Channel.updateChannelVolumes m y) Fh)
          as (Hv & Hb & HL & HR & Hact & Hother);
        cbv zeta; rewrite Hv, Hb, HL, HR, Fv, Fb, FL, FR
    end; simpl; auto 10.
Qed.
End HandleOps.

Section PlayAndStop.
Context {cfg : MixerConfig} {S R : Type}.
Context `{!AudioStream S} `{!RateConverter S R}.
Implicit Types (m : MixerImpl S R) (c : Channel S R).

(** X9. A play request on a ready engine with an empty slot, with no id
    or an id that no live channel carries, writes a handle that is valid
    at once: through it the volume and the balance of the request, full
    faders and the id are read back, the id and the sound type are
    reported active, and one more slot is occupied.  Every handle that was
    valid before still names the same channel. *)
Theorem play_then_query m type old stream id vol bal autofree permanent rev :
  wf m ->
  _mixerReady m = true ->
  0 <= _handleSeed m ->
  (Z.of_nat NUM_CHANNELS | 2 ^ 32) \/
  (_handleSeed m + 1) * Z.of_nat NUM_CHANNELS <= 2 ^ 32 ->
  (occupied m < NUM_CHANNELS)%nat ->
  id = -1 \/ (forall i c, chanAt m i = Some c -> _id c <> id) ->
  exists m' h,
    MixerImpl.playStream m type (Some old) (Some stream) id vol bal autofree
      permanent rev = Ok (m', Some h, []) /\
    MixerImpl.isSoundHandleActive m' h = true /\
    MixerImpl.getChannelVolume m' h = vol /\
    MixerImpl.getChannelBalance m' h = bal /\
    MixerImpl.getChannelFaderL m' h = 255 /\
    MixerImpl.getChannelFaderR m' h = 255 /\
    MixerImpl.getSoundID m' h = id /\
    MixerImpl.isSoundIDActive m' id = true /\
    MixerImpl.hasActiveChannelOfType m' type = true /\
    occupied m' = Datatypes.S (occupied m) /\
    (forall h' c,
       MixerImpl.lookupHandle m h' = Some c ->
       MixerImpl.lookupHandle m' h' = Some c).
Proof.
  intros Hwf Hready Hseed Hcase Hocc Hfresh.
  set (nc := newChannel m type stream id vol bal autofree permanent rev).
  assert (Hplay : MixerImpl.playStream m type (Some old) (Some stream) id vol
                    bal autofree permanent rev =
                  Ok (MixerImpl.insertChannel m (Some old) nc)).
  { destruct (playStream_spec m type (Some old) stream id vol bal autofree
                permanent rev Hready)
      as [(Hid & (i & c & _ & Hc & He) & _)|(_ & Hp)]; [|exact Hp].
    destruct Hfresh as [Hs|Hf]; [contradiction|].
    destruct (Hf i c Hc He). }
  destruct (insertChannel_spec m (Some old) nc)
    as [[Hfull _]|(i & Hi & Hnone & _ & Hins)].
  { destruct (occupied_free m Hwf Hocc) as (i & Hi & Hnone).
    destruct (Hfull i Hi Hnone). }
  rewrite Hplay, Hins. fold (inserted m i nc).
  set (raw := wrap_uint32 (Z.of_nat i + _handleSeed m * Z.of_nat NUM_CHANNELS)).
  set (chan := Channel.setHandle nc raw).
  assert (Hlen : (i < length (_channels m))%nat) by (unfold wf in Hwf; lia).
  assert (Hat : chanAt (inserted m i nc) i = Some chan).
  { rewrite chanAt_inserted by exact Hlen.
    destruct (decide (i = i)); [reflexivity|contradiction]. }
  assert (Hidx : MixerImpl.handleIndex raw = i).
  { unfold MixerImpl.handleIndex, raw.
    rewrite (handleIndex_encoded i (_handleSeed m) Hi Hseed Hcase).
    apply Nat2Z.id. }
  assert (Hl : MixerImpl.lookupHandle (inserted m i nc) raw = Some chan).
  { apply lookupHandle_Some. rewrite Hidx. split; [exact Hat|reflexivity]. }
  destruct (newChannel_fields m type stream id vol bal autofree permanent rev)
    as (Fv & Fb & FL & FR & Fty & _). fold nc in Fv, Fb, FL, FR, Fty.
  exists (inserted m i nc), raw. split; [reflexivity|].
  unfold MixerImpl.getChannelVolume, MixerImpl.getChannelBalance,
    MixerImpl.getChannelFaderL, MixerImpl.getChannelFaderR,
    MixerImpl.getSoundID.
  rewrite Hl.
  split; [apply isSoundHandleActive_lookup; eauto|].
  split; [exact Fv|]. split; [exact Fb|]. split; [exact FL|].
  split; [exact FR|].
  split; [apply newChannel_id|].
  split.
  { apply isSoundIDActive_true. exists i, chan.
    split; [exact Hi|]. split; [exact Hat|]. apply newChannel_id. }
  split.
  { apply hasActiveChannelOfType_true. exists i, chan.
    split; [exact Hi|]. split; [exact Hat|]. exact Fty. }
  split; [apply occupied_inserted; assumption|].
  intros h' c Hl'. apply lookupHandle_Some in Hl' as [Hc Hh].
  apply lookupHandle_Some. split; [|exact Hh].
  rewrite chanAt_inserted by exact Hlen.
  destruct (decide (MixerImpl.handleIndex h' = i)) as [He|He]; [|exact Hc].
  rewrite He in Hc. congruence.
Qed.

Lemma occupied_setSlot_None m i c :
  chanAt m i = Some c ->
  occupied m = Datatypes.S (occupied (setSlot m i None)).
Proof.
  intros Hc. unfold occupied, setSlot. simpl.
  assert (Hi : (i < length (_channels m))%nat)
    by (eapply chanAt_Some_lt; exact Hc).
  apply chanAt_lookup in Hc.
  rewrite insert_take_drop by exact Hi.
  rewrite <- (take_drop_middle (_channels m) i (Some c) Hc) at 1.
  rewrite !filter_app, !length_app.
  rewrite filter_cons_True by eauto.
  rewrite filter_cons_False by (intros [x Hx]; discriminate).
  simpl. lia.
Qed.

(** X10. [stopHandle] with a valid handle destroys exactly the channel
    that the handle names: its slot becomes empty, the number of occupied
    slots drops by one, the log is that channel's destruction, and every
    other handle resolves as before. *)
Theorem stopHandle_removes_one m h c :
  MixerImpl.lookupHandle m h = Some c ->
  let m' := fst (MixerImpl.stopHandle m h) in
  snd (MixerImpl.stopHandle m h) = Channel.dtor c /\
  chanAt m' (MixerImpl.handleIndex h) = None /\
  occupied m = Datatypes.S (occupied m') /\
  (forall k, k <> MixerImpl.handleIndex h -> chanAt m' k = chanAt m k) /\
  (forall h', h' <> h ->
     MixerImpl.lookupHandle m' h' = MixerImpl.lookupHandle m h').
Proof.
  intros Hl m'. unfold m', MixerImpl.stopHandle. rewrite Hl. simpl.
  apply lookupHandle_Some in Hl as [Hc Hv].
  split; [reflexivity|].
  split; [apply chanAt_setSlot_None|].
  split; [apply (occupied_setSlot_None m _ c Hc)|].
  split.
  { intros k Hk. apply chanAt_setSlot_ne. auto. }
  intros h' Hne. unfold MixerImpl.lookupHandle.
  destruct (decide (MixerImpl.handleIndex h = MixerImpl.handleIndex h'))
    as [He|He].
  - rewrite <- He, chanAt_setSlot_None, Hc. unfold Channel.getHandle.
    rewrite Hv. destruct (Z.eqb_spec h h'); [congruence|reflexivity].
  - rewrite chanAt_setSlot_ne by exact He. reflexivity.
Qed.

(** X11. After [stopID] the id is not active, and every other id is
    active exactly when it was before. *)
Theorem stopID_then_inactive m id :
  wf m ->
  MixerImpl.isSoundIDActive (fst (MixerImpl.stopID m id)) id = false /\
  forall id', id' <> id ->
    MixerImpl.isSoundIDActive (fst (MixerImpl.stopID m id)) id' =
    MixerImpl.isSoundIDActive m id'.
Proof.
  intros Hwf. split.
  - destruct (MixerImpl.isSoundIDActive _ id) eqn:E; [|reflexivity].
    apply isSoundIDActive_true in E as (i & c & _ & Hc & He).
    rewrite stopID_slots in Hc by exact Hwf.
    destruct (chanAt m i) as [c0|]; [|discriminate].
    destruct (Z.eqb_spec (_id c0) id); [discriminate|].
    injection Hc as <-. contradiction.
  - intros id' Hne.
    destruct (MixerImpl.isSoundIDActive m id') eqn:E.
    + apply isSoundIDActive_true in E as (i & c & Hi & Hc & He).
      apply isSoundIDActive_true. exists i, c. split; [exact Hi|].
      split; [|exact He]. rewrite stopID_slots by exact Hwf. rewrite Hc.
      replace (_id c =? id) with false; [reflexivity|].
      symmetry. apply Z.eqb_neq. congruence.
    + destruct (MixerImpl.isSoundIDActive (fst (MixerImpl.stopID m id)) id')
        eqn:E'; [|reflexivity].
      apply isSoundIDActive_true in E' as (i & c & Hi & Hc & He).
      rewrite stopID_slots in Hc by exact Hwf.
      destruct (chanAt m i) as [c0|] eqn:Hc0; [|discriminate].
      destruct (_id c0 =? id); [discriminate|]. injection Hc as <-.
      assert (MixerImpl.isSoundIDActive m id' = true)
        by (apply isSoundIDActive_true; eauto).
      congruence.
Qed.
End PlayAndStop.

(** ** Invariants of the requests *)

Section RequestInvariants.
Context {cfg : MixerConfig} {S R : Type}.
Context `{!AudioStream S} `{!RateConverter S R}.
Implicit Types (m : MixerImpl S R) (c : Channel S R).

Lemma step_handles m (op : Op (S := S)) m' :
  wf m ->
  (Z.of_nat NUM_CHANNELS | 2 ^ 32) ->
  0 <= _handleSeed m -> handles_name_slots m ->
  step m op = Ok m' ->
  0 <= _handleSeed m' /\ handles_name_slots m'.
Proof.
  intros Hwf Hdiv Hseed Hnames Hstep.
  destruct (step_cases m op m' Hstep)
    as [(_ & Hs & Hkept)|(i & chan & Hi & Hnone & _ & ->)].
  - split; [lia|]. intros k c' Hc'.
    specialize (Hkept k). rewrite Hc' in Hkept.
    destruct (chanAt m k) as [c|] eqn:Hc; [|destruct Hkept].
    destruct Hkept as (_ & Hh & _). rewrite Hh. apply (Hnames k c Hc).
  - split.
    { unfold inserted. simpl.
      apply (wrap_uint32_range (_handleSeed m + 1)). }
    intros k c Hc. unfold wf in Hwf. rewrite chanAt_inserted in Hc by lia.
    destruct (decide (k = i)) as [->|Hne]; [|apply (Hnames k c Hc)].
    injection Hc as <-. simpl. unfold MixerImpl.handleIndex.
    rewrite (handleIndex_encoded i (_handleSeed m) Hi Hseed (or_introl Hdiv)).
    apply Nat2Z.id.
Qed.

(** X12. When the number of slots divides 2^32 (as a power of two does),
    in every state that a constructed engine reaches each live channel
    sits in the slot that its own handle names, generation wrap-around or
    not: the channel is found through its handle, and two different slots
    never hold the same handle value. *)
Theorem live_handles_valid sampleRate stereo outBufSize
    (m0 : MixerImpl S R) ops m' :
  (Z.of_nat NUM_CHANNELS | 2 ^ 32) ->
  MixerImpl.ctor sampleRate stereo outBufSize = Ok m0 ->
  run m0 ops = Ok m' ->
  (forall i c,
     chanAt m' i = Some c ->
     MixerImpl.handleIndex (_handle c) = i /\
     MixerImpl.lookupHandle m' (_handle c) = Some c /\
     MixerImpl.isSoundHandleActive m' (_handle c) = true) /\
  (forall i j ci cj,
     chanAt m' i = Some ci -> chanAt m' j = Some cj ->
     _handle ci = _handle cj -> i = j).
Proof.
  intros Hdiv Hctor Hrun.
  destruct (ctor_wf _ _ _ _ Hctor) as (Hwf & Hempty & Hs0 & _).
  assert (Hinv : wf m' /\ 0 <= _handleSeed m' /\ handles_name_slots m').
  { apply (run_invariant
             (fun x => wf x /\ 0 <= _handleSeed x /\ handles_name_slots x))
      with (ops := ops) (m := m0); [| |exact Hrun].
    - intros x op x' (Hw & Hs & Hn) Hstep.
      split; [eapply step_wf; eassumption|].
      apply (step_handles x op x' Hw Hdiv Hs Hn Hstep).
    - split; [exact Hwf|]. split; [lia|].
      intros i c Hc. rewrite Hempty in Hc. discriminate. }
  destruct Hinv as (_ & _ & Hnames). split.
  - intros i c Hc. pose proof (Hnames i c Hc) as Hidx.
    assert (Hl : MixerImpl.lookupHandle m' (_handle c) = Some c).
    { apply lookupHandle_Some. rewrite Hidx. auto. }
    split; [exact Hidx|]. split; [exact Hl|].
    apply isSoundHandleActive_lookup. eauto.
  - intros i j ci cj Hi Hj He.
    rewrite <- (Hnames i ci Hi), <- (Hnames j cj Hj), He. reflexivity.
Qed.

Lemma evolves_occupied m m' : evolves m m' -> (occupied m' <= occupied m)%nat.
Proof.
  intros (Hlen & _ & Hkept). unfold occupied.
  assert (Hsome : forall i,
            is_Some (mjoin (_channels m' !! i)) ->
            is_Some (mjoin (_channels m !! i))).
  { intros i [c' Hc']. specialize (Hkept i). unfold chanAt in Hkept.
    destruct (_channels m' !! i) as [[c1|]|]; try discriminate.
    destruct (_channels m !! i) as [[c0|]|]; simpl; eauto;
      destruct Hkept. }
  revert Hlen Hsome. generalize (_channels m). generalize (_channels m').
  induction l as [|o' l' IH]; intros [|o l] Hlen Hsome; simpl in *;
    try discriminate; [lia|].
  assert (IHl : (length (filter (fun o => is_Some o) l')
                 <= length (filter (fun o => is_Some o) l))%nat).
  { apply IH; [lia|]. intros i. apply (Hsome (Datatypes.S i)). }
  destruct o' as [c'|].
  - rewrite filter_cons_True by eauto.
    destruct (Hsome 0%nat) as [c Hc]; [simpl; eauto|]. simpl in Hc.
    destruct o as [c0|]; [|discriminate].
    rewrite filter_cons_True by eauto. simpl. lia.
  - rewrite filter_cons_False by (intros [x Hx]; discriminate).
    destruct o as [c0|].
    + rewrite filter_cons_True by eauto. simpl. lia.
    + rewrite filter_cons_False by (intros [x Hx]; discriminate). exact IHl.
Qed.

(** X13. Only a play request creates a channel.  Every other request,
    the mixing cycle included, leaves the generation counter alone, never
    fills an empty slot, and never changes the id, the handle, the sound
    type or the permanence of a channel that stays; the number of occupied
    slots does not grow. *)
Theorem only_play_adds_channels m (op : Op (S := S)) m' :
  is_play op = false ->
  step m op = Ok m' ->
  _handleSeed m' = _handleSeed m /\
  length (_channels m') = length (_channels m) /\
  (forall i c',
     chanAt m' i = Some c' ->
     exists c,
       chanAt m i = Some c /\
       _id c' = _id c /\ _handle c' = _handle c /\
       _type c' = _type c /\ _permanent c' = _permanent c) /\
  (occupied m' <= occupied m)%nat.
Proof.
  intros Hnp Hstep.
  assert (Hev : evolves m m').
  { destruct op
      as [type handle stream id vol balance autofree permanent rev
         | samples len millis | ready | | id | handle | type mu | type vol
         | handle vol | handle balance | handle faderL | handle faderR
         | handle rate | handle | handle | paused millis | id paused now
         | handle paused now];
      simpl in Hnp, Hstep; try discriminate Hnp;
      try (injection Hstep as <-).
    - pose proof (mixCallback_evolves m samples len millis) as Hev.
      destruct (MixerImpl.mixCallback m samples len millis)
        as [[[[m1 buf] res] log]|]; [|discriminate].
      injection Hstep as <-. exact Hev.
    - apply evolves_same_slots; reflexivity.
    - apply stopAll_evolves.
    - apply stopID_evolves.
    - apply stopHandle_evolves.
    - unfold MixerImpl.muteSoundType.
      eapply evolves_trans; [|apply notifyType_evolves].
      apply evolves_same_slots; reflexivity.
    - unfold MixerImpl.setVolumeForSoundType.
      eapply evolves_trans; [|apply notifyType_evolves].
      apply evolves_same_slots; reflexivity.
    - apply (evolves_by_handle m handle
               (fun c => Channel.setVolume m c vol)).
      intros c. apply setVolume_identity.
    - apply (evolves_by_handle m handle
               (fun c => Channel.setBalance m c balance)).
      intros c. apply setBalance_identity.
    - apply (evolves_by_handle m handle
               (fun c => Channel.setFaderL m c faderL)).
      intros c. apply setFaderL_identity.
    - apply (evolves_by_handle m handle
               (fun c => Channel.setFaderR m c faderR)).
      intros c. apply setFaderR_identity.
    - apply (evolves_by_handle m handle (fun c => Channel.setRate c rate)).
      intros c. apply setRate_identity.
    - apply (evolves_by_handle m handle Channel.resetRate).
      intros c. apply resetRate_identity.
    - apply (evolves_by_handle m handle Channel.loop).
      intros c. apply loop_identity.
    - apply pauseAll_evolves.
    - apply pauseID_evolves.
    - apply (evolves_by_handle m handle
               (fun c => Channel.pause c paused now)).
      intros c. apply pause_identity. }
  pose proof (evolves_occupied m m' Hev) as Hocc.
  destruct Hev as (Hlen & Hs & Hkept).
  split; [exact Hs|]. split; [exact Hlen|]. split; [|exact Hocc].
  intros i c' Hc'. specialize (Hkept i). rewrite Hc' in Hkept.
  destruct (chanAt m i) as [c|]; [|destruct Hkept].
  exists c. destruct Hkept as (? & ? & ? & ?). auto.
Qed.
End RequestInvariants.

(** ** Silent cycles, the clock and looping *)

Section Timing.
Context {cfg : MixerConfig} {S R T : Type}.
Context `{!AudioStream S} `{!RateConverter S R} `{!TimestampOps T}.
Implicit Types (m mixer : MixerImpl S R) (c : Channel S R).

Lemma max_list_zeros n : max_list (replicate n 0) = 0.
Proof.
  induction n as [|n IH]; [reflexivity|].
  simpl. fold (max_list (replicate n 0)). rewrite IH. reflexivity.
Qed.

(** A traversal over channels that are paused, or that have no data at
    hand and nothing to drain, keeps every slot and the buffer. *)
Lemma sweep_idle len millis (l : list (option (Channel S R))) :
  (forall k c,
     l !! k = Some (Some c) ->
     Channel.isFinished c = false /\
     (Channel.isPaused c = true \/
      (endOfData (_stream c) = true /\
       needsDraining (_converter c) = false))) ->
  forall i buf prod log,
    exists n,
      sweep_slots (mixSlot len millis) i l (buf, prod, log) =
        (l, (buf, prod ++ replicate n 0, log)).
Proof.
  induction l as [|o l IH]; intros Hidle i buf prod log.
  - exists 0%nat. simpl. rewrite app_nil_r. reflexivity.
  - assert (Htl : forall k c,
              l !! k = Some (Some c) ->
              Channel.isFinished c = false /\
              (Channel.isPaused c = true \/
               (endOfData (_stream c) = true /\
                needsDraining (_converter c) = false))).
    { intros k c Hk. apply (Hidle (Datatypes.S k) c Hk). }
    specialize (IH Htl). destruct o as [c|].
    + destruct (Hidle 0%nat c eq_refl) as (Hnf & Hor).
      cbn [sweep_slots]. unfold mixSlot at 1. rewrite Hnf.
      destruct (Channel.isPaused c) eqn:Hp.
      * destruct (IH (Datatypes.S i) buf prod log) as [n Hn].
        exists n. rewrite Hn. reflexivity.
      * destruct Hor as [Hor|(Hd & Hn)]; [discriminate|].
        unfold Channel.mix. rewrite Hd, Hn. simpl.
        destruct (IH (Datatypes.S i) buf (prod ++ [0]) log) as [n Hsw].
        exists (Datatypes.S n). rewrite Hsw. simpl.
        rewrite <- app_assoc. reflexivity.
    + cbn [sweep_slots]. simpl.
      destruct (IH (Datatypes.S i) buf prod log) as [n Hn].
      exists n. rewrite Hn. reflexivity.
Qed.

(** X14. A cycle of the callback over an engine in which every channel is
    either paused or has, for now, no data at hand and nothing to drain
    (and has not ended) changes nothing but the ready flag: every channel
    is kept as it is, time stamps included, the buffer is the zeroed one,
    the return value is 0 and nothing is destroyed. *)
Theorem mixCallback_idle m samples len millis :
  wf m ->
  aligned m len ->
  (forall i c,
     chanAt m i = Some c ->
     Channel.isFinished c = false /\
     (Channel.isPaused c = true \/
      (endOfData (_stream c) = true /\
       needsDraining (_converter c) = false))) ->
  MixerImpl.mixCallback m (Some samples) len millis =
  Ok (set_mixerReady m true, MixerImpl.memset_zero samples len, 0, []).
Proof.
  intros Hwf Hal Hidle.
  destruct (mixCallback_sweep m samples len millis Hwf Hal)
    as (slots & buf & produced & log & Es & Hcall).
  rewrite Hcall.
  destruct (sweep_idle (pairCount m len) millis (_channels m)) with
    (i := 0%nat) (buf := MixerImpl.memset_zero samples len)
    (prod := @nil Z) (log := @nil (Event S R)) as [n Hn].
  { intros k c Hk. apply (Hidle k c). apply chanAt_lookup. exact Hk. }
  rewrite Hn in Es. injection Es as <- <- <- <-.
  simpl. rewrite max_list_zeros. destruct m. reflexivity.
Qed.

(** X15. For a channel that is not paused and carries no paused duration
    (as a mix that did work leaves it): once paused at time [t1], its
    elapsed time is frozen at the value it had at [t1], whatever the
    clock reads; and after the matching unpause at [t2] the interval
    between [t1] and [t2] is cut out of the clock. *)
Theorem pause_interval_excluded mixer c t1 t2 :
  _pauseLevel c = 0 ->
  _pauseTime c = 0 ->
  (forall now,
     Channel.getElapsedTime (T := T) mixer (Channel.pause c true t1) now =
     Channel.getElapsedTime mixer c t1) /\
  (forall now,
     Channel.getElapsedTime (T := T) mixer
       (Channel.pause (Channel.pause c true t1) false t2) now =
     Channel.getElapsedTime mixer c (now - (t2 - t1))).
Proof.
  intros Hl Hp.
  assert (E1 : Channel.pause c true t1 = set_pause c 1 t1 0).
  { unfold Channel.pause. rewrite Hl, Hp. reflexivity. }
  assert (E2 : Channel.pause (set_pause c 1 t1 0) false t2 =
               set_pause c 0 0 (wrap_uint32 (t2 - t1))).
  { unfold Channel.pause. destruct c. reflexivity. }
  rewrite E1, E2. unfold Channel.getElapsedTime, Channel.isPaused.
  split; intros now.
  - rewrite Hl, Hp. destruct c; simpl.
    destruct (_ =? 0); [reflexivity|].
    do 2 f_equal. lia.
  - rewrite Hl, Hp. destruct c; simpl.
    destruct (_ =? 0); [reflexivity|].
    f_equal. unfold wrap_uint32.
    rewrite Zminus_mod_idemp_r. f_equal. lia.
Qed.

(** X16. Right after a cycle of the callback in which a live channel did
    work, the elapsed time that its handle reports is the number of
    frames the channel had decoded before that cycle, plus the
    milliseconds since the clock reading of that cycle, modulo 2^32.  When
    that reading was 0 the channel is reported as never mixed. *)
Theorem elapsed_after_cycle m samples len millis h c :
  wf m ->
  aligned m len ->
  MixerImpl.lookupHandle m h = Some c ->
  Channel.isFinished c = false ->
  Channel.isPaused c = false ->
  negb (endOfData (_stream c)) || needsDraining (_converter c) = true ->
  match MixerImpl.mixCallback m (Some samples) len millis with
  | AssertionFailed => False
  | Ok (m', _, _, _) =>
      let stamp := millis (MixerImpl.handleIndex h) in
      let zero := Timestamp (T := T) 0 (_sampleRate m) in
      forall now,
        MixerImpl.getElapsedTime m' h now =
        if stamp =? 0 then zero
        else addMsecs (addFrames zero (_samplesDecoded c))
               (wrap_uint32 (now - stamp))
  end.
Proof.
  intros Hwf Hal Hl Hnf Hnp Hwork.
  apply lookupHandle_Some in Hl as [Hc Hv].
  pose proof (mixCallback_slot m _ c samples len millis Hwf Hal Hc Hnf)
    as Hslot.
  destruct (mixCallback_sweep m samples len millis Hwf Hal)
    as (slots & buf & produced & log & _ & Hcall).
  rewrite Hcall in *. rewrite Hnp in Hslot. destruct Hslot as (b & Hb).
  intros stamp zero now.
  set (c' := fst (fst (Channel.mix c b (pairCount m len) stamp))) in *.
  pose proof (mix_timestamp c b (pairCount m len) stamp) as Hts.
  rewrite Hwork in Hts. fold c' in Hts. destruct Hts as (Hs & Hcons & Hpt).
  destruct (mix_identity c b (pairCount m len) stamp) as (_ & Hh & _).
  fold c' in Hh.
  assert (Hlev : _pauseLevel c' = _pauseLevel c).
  { unfold c', Channel.mix. rewrite Hwork.
    destruct (convert _ _ _ _ _ _) as [[[r s] data'] res]. reflexivity. }
  assert (Hl' : MixerImpl.lookupHandle
                  (set_channels (set_mixerReady m true) slots) h = Some c').
  { apply lookupHandle_Some. split; [exact Hb|]. congruence. }
  unfold MixerImpl.getElapsedTime. rewrite Hl'.
  unfold Channel.getElapsedTime, Channel.isPaused in *.
  rewrite Hs, Hcons, Hpt, Hlev, Hnp. simpl.
  destruct (stamp =? 0); [reflexivity|].
  do 2 f_equal. lia.
Qed.

(** X17. [loopChannel] through a live handle: a stream that cannot be
    rewound leaves the engine as it is; one that can is replaced by a
    looping stream that wraps it together with its dispose flag, and the
    channel now owns the wrapper, so stopping the channel deletes the
    converter and the wrapper whatever the flag given when the stream was
    played.  The handle stays valid and no other handle is affected. *)
Theorem loopChannel_wraps m h c :
  MixerImpl.lookupHandle m h = Some c ->
  let m' := MixerImpl.loopChannel m h in
  (isRewindable (_stream c) = false -> m' = m) /\
  (isRewindable (_stream c) = true ->
   let looping := makeLoopingAudioStream (_stream c) (_streamDispose c) in
   MixerImpl.lookupHandle m' h = Some (set_stream c looping YES) /\
   snd (MixerImpl.stopHandle m' h) =
     [EvDeleteConverter (_converter c); EvDeleteStream looping]) /\
  MixerImpl.isSoundHandleActive m' h = true /\
  (forall h', h' <> h ->
     MixerImpl.lookupHandle m' h' = MixerImpl.lookupHandle m h').
Proof.
  intros Hl m'.
  assert (Hh : _handle (Channel.loop c) = _handle c).
  { unfold Channel.loop. destruct (isRewindable (_stream c)); reflexivity. }
  destruct (lookupHandle_rewritten m h c (Channel.loop c) Hl Hh)
    as (Hnew & Hother).
  assert (Em : m' = setSlot m (MixerImpl.handleIndex h)
                      (Some (Channel.loop c))).
  { unfold m', MixerImpl.loopChannel. rewrite Hl. reflexivity. }
  rewrite Em. split; [|split; [|split]].
  - intros Hr. unfold Channel.loop. rewrite Hr.
    apply lookupHandle_Some in Hl as [Hc _]. rewrite <- Hc.
    apply setSlot_same. eapply chanAt_Some_lt. exact Hc.
  - intros Hr looping. unfold Channel.loop in Hnew |- *.
    rewrite Hr in Hnew |- *. fold looping in Hnew |- *.
    split; [exact Hnew|].
    unfold MixerImpl.stopHandle. rewrite Hnew. reflexivity.
  - apply isSoundHandleActive_lookup. eauto.
  - exact Hother.
Qed.
End Timing.

(** ** The input rate of a channel *)

Section Rates.
Context {cfg : MixerConfig} {S R T : Type}.
Context `{!AudioStream S} `{!RateConverter S R} `{!TimestampOps T}.
Implicit Types (m : MixerImpl S R) (c : Channel S R).

(** X18. For a converter that reports the input rate it was last given:
    with a valid handle, [getChannelRate] reads back what
    [setChannelRate] wrote, [resetChannelRate] is [setChannelRate] with
    the native rate of the stream, and a change of rate touches nothing
    but the converter: volume, balance, elapsed time and pause state of
    the channel, and every other handle, are as before. *)
Theorem rate_set_get m h c :
  (forall (r : R) x, getInputRate (S := S) (setInputRate (S := S) r x) = x) ->
  MixerImpl.lookupHandle m h = Some c ->
  (forall rate,
     let m' := MixerImpl.setChannelRate m h rate in
     MixerImpl.getChannelRate m' h = rate /\
     MixerImpl.lookupHandle m' h =
       Some (set_converter c (setInputRate (S := S) (_converter c) rate)) /\
     MixerImpl.getChannelVolume m' h = _volume c /\
     MixerImpl.getChannelBalance m' h = _balance c /\
     (forall now,
        MixerImpl.getElapsedTime (T := T) m' h now =
        MixerImpl.getElapsedTime m h now) /\
     (forall h', h' <> h ->
        MixerImpl.lookupHandle m' h' = MixerImpl.lookupHandle m h')) /\
  MixerImpl.resetChannelRate m h =
    MixerImpl.setChannelRate m h (streamRate (_stream c)) /\
  MixerImpl.getChannelRate (MixerImpl.resetChannelRate m h) h =
    streamRate (_stream c).
Proof.
  intros Hlaw Hl.
  assert (Hset : forall rate,
            let m' := MixerImpl.setChannelRate m h rate in
            MixerImpl.lookupHandle m' h = Some (Channel.setRate c rate) /\
            forall h', h' <> h ->
              MixerImpl.lookupHandle m' h' = MixerImpl.lookupHandle m h').
  { intros rate m'. unfold m', MixerImpl.setChannelRate. rewrite Hl.
    apply (lookupHandle_rewritten m h c (Channel.setRate c rate) Hl).
    reflexivity. }
  assert (Hreset : MixerImpl.resetChannelRate m h =
                   MixerImpl.setChannelRate m h (streamRate (_stream c))).
  { unfold MixerImpl.resetChannelRate, MixerImpl.setChannelRate.
    rewrite Hl. reflexivity. }
  split; [|split; [exact Hreset|]].
  - intros rate m'. destruct (Hset rate) as (Hnew & Hother). fold m' in Hnew.
    unfold MixerImpl.getChannelRate, MixerImpl.getChannelVolume,
      MixerImpl.getChannelBalance, MixerImpl.getElapsedTime.
    rewrite Hnew, Hl.
    split; [apply Hlaw|]. split; [reflexivity|].
    split; [reflexivity|]. split; [reflexivity|].
    split; [|exact Hother].
    intros now. unfold m', MixerImpl.setChannelRate. rewrite Hl.
    destruct m. reflexivity.
  - rewrite Hreset. destruct (Hset (streamRate (_stream c))) as (Hnew & _).
    unfold MixerImpl.getChannelRate. rewrite Hnew. apply Hlaw.
Qed.
End Rates.

(** * Examples on the concrete engine *)

Section Examples.
#[local] Existing Instance Demo.config.
#[local] Existing Instance Demo.stream_ops.
#[local] Existing Instance Demo.converter_ops.
#[local] Existing Instance Demo.timestamp_ops.


Lemma pause_nesting_witness :
  let c := Demo.channel 1 7 0 (Demo.mkTestStream 10 1000) in
  0 <= _pauseLevel c < INT_MAX /\
  Channel.pause c true 42 = set_pause c 1 42 0 /\
  _pauseLevel (Channel.pause c false 42) = 0.
Proof.
  intros c.
  assert (Hl : 0 <= _pauseLevel c < INT_MAX)
    by (vm_compute; split; [discriminate|reflexivity]).
  split; [exact Hl|].
  destruct (pause_nesting (T := Z * Z) c Hl) as (Hpause & Hunpause & _).
  split; [exact (Hpause 42)|].
  destruct (Hunpause 42) as (_ & Hzero & _).
  rewrite (Hzero eq_refl). reflexivity.
Defined.

(** Two pauses of 5 and 10 milliseconds without a mix in between: the
    paused duration ends as 10, not as 15. *)
Lemma pause_overwrites_pauseTime :
  let c0 := Demo.channel 1 7 0 (Demo.mkTestStream 10 1000) in
  let c2 := Channel.pause (Channel.pause c0 true 95) false 100 in
  let c4 := Channel.pause (Channel.pause c2 true 100) false 110 in
  _pauseTime c2 = 5 /\
  _pauseLevel (Channel.pause c2 true 100) = 1 /\
  _pauseStartTime (Channel.pause c2 true 100) = 100 /\
  _pauseTime c4 = 10 /\
  _pauseTime c4 <> _pauseTime c2 + (110 - 100).
Proof. vm_compute. repeat split; try reflexivity. discriminate. Qed.

Lemma handle_encoding_witness :
  let s := Demo.mkTestStream 5 1000 in
  wf Demo.recycled /\
  0 <= _handleSeed Demo.recycled < 2 ^ 32 /\
  exists m',
    MixerImpl.playStream Demo.recycled kSFXSoundType (Some 99) (Some s) 9
      255 0 YES false false = Ok (m', Some 7, []) /\
    chanAt Demo.recycled 1 = None /\
    _handleSeed Demo.recycled = 3 /\
    7 = 1 + 3 * Z.of_nat NUM_CHANNELS /\
    _handleSeed m' = 4 /\
    7 `rem` Z.of_nat NUM_CHANNELS = 1 /\
    MixerImpl.isSoundHandleActive m' 7 = true /\
    (exists c, chanAt m' 1 = Some c /\ _handle c = 7 /\ _id c = 9) /\
    MixerImpl.isSoundHandleActive m' 5 = false.
Proof.
  intros s.
  assert (Hwf : wf Demo.recycled) by reflexivity.
  assert (Hseed : 0 <= _handleSeed Demo.recycled < 2 ^ 32)
    by (vm_compute; split; [discriminate|reflexivity]).
  split; [exact Hwf|]. split; [exact Hseed|].
  destruct (handle_encoding Demo.recycled Hwf Hseed)
    as (Hplay & _ & _ & _ & Hstale).
  destruct (Hplay kSFXSoundType (Some 99) s 9 255 0 YES false false eq_refl)
    as (m' & handle' & log & Hcall & _ & _ & Hsuccess).
  destruct Hsuccess as (i & Hsuccess).
  { right. intros k c Hk Hc.
    destruct k as [|[|k]]; [|discriminate Hc|discriminate Hc].
    injection Hc as <-. discriminate. }
  { exists 1%nat. split; [vm_compute; lia|reflexivity]. }
  cbv zeta in Hsuccess.
  destruct Hsuccess
    as (Hi & Hnone & _ & Hat & Hh & _ & Hhandle & Hlog & Hs & Hvalid & _).
  assert (Ei : i = 1%nat).
  { destruct i as [|[|i]]; [discriminate Hnone|reflexivity|].
    vm_compute in Hi. lia. }
  subst i. subst handle' log.
  destruct Hvalid as (Hrem & _ & Hactive).
  { left. exists (2 ^ 31). reflexivity. }
  exists m'. split; [exact Hcall|]. split; [reflexivity|].
  split; [reflexivity|]. split; [reflexivity|]. split; [exact Hs|].
  split; [exact Hrem|]. split; [exact Hactive|].
  split; [eexists; split; [exact Hat|split; reflexivity]|].
  apply (Hstale 5
           [PlayStream kSFXSoundType (Some 99) (Some s) 9 255 0 YES false
              false] m').
  - vm_compute. reflexivity.
  - reflexivity.
  - vm_compute. reflexivity.
  - cbn [run step]. rewrite Hcall. reflexivity.
Defined.

Lemma getElapsedTime_value_witness :
  _mixerTimeStamp Demo.played <> 0 /\
  Channel.getElapsedTime Demo.busy Demo.played 150 = (54, 1000) /\
  Channel.getElapsedTime Demo.busy
    (fst (fst (Channel.mix Demo.played [0; 0; 0; 0] 4 0))) 150 = (0, 1000) /\
  Channel.getElapsedTime Demo.busy
    (fst (fst (Channel.mix Demo.played [0; 0; 0; 0] 4 120))) 150 = (38, 1000).
Proof.
  assert (Hne : _mixerTimeStamp Demo.played <> 0) by discriminate.
  split; [exact Hne|].
  destruct (getElapsedTime_value (T := Z * Z) Demo.busy Demo.played 150)
    as (_ & Hvalue & _ & _ & _ & _ & _ & _ & Hmixed).
  split; [exact (Hvalue Hne)|].
  split.
  - exact (Hmixed [0; 0; 0; 0] 4 0 eq_refl).
  - exact (Hmixed [0; 0; 0; 0] 4 120 eq_refl).
Defined.

(** A channel is played and mixed twice, four frames each time; the clock
    reads 2^32 - 4 at the first mix and, wrapped around, 0 at the second.
    Queried at 500, the channel has been mixed, is not paused and has four
    frames checkpointed, so the frames plus (now - lastMixTimestamp -
    accumulatedPause) would be 504 milliseconds; the code returns the
    zero timestamp. *)
Lemma getElapsedTime_zero_after_mix_at_clock_0 :
  let ops :=
    [MixCallback (Some []) 0 (fun _ => 0);
     PlayStream kSFXSoundType (Some 99) (Some (Demo.mkTestStream 10 1000))
       (-1) 255 0 YES false false;
     MixCallback (Some [5; 5; 5; 5]) 8 (fun _ => 4294967292);
     MixCallback (Some [5; 5; 5; 5]) 8 (fun _ => 0)] in
  match MixerImpl.ctor (S := Demo.TestStream) (R := Z) 1000 false 0 with
  | Ok m0 =>
      match run m0 ops with
      | Ok m' =>
          match MixerImpl.lookupHandle m' 0 with
          | Some c =>
              _samplesDecoded c = 8 /\
              _samplesConsumed c = 4 /\
              _mixerTimeStamp c = 0 /\
              _pauseTime c = 0 /\
              Channel.isPaused c = false /\
              MixerImpl.getElapsedTime m' 0 500 = (0, 1000) /\
              addMsecs
                (addFrames (Timestamp 0 (Mixer.getOutputRate m'))
                   (_samplesConsumed c))
                (wrap_uint32 (500 - _mixerTimeStamp c - _pauseTime c)) =
              (504, 1000) /\
              MixerImpl.getElapsedTime m' 0 500 <> (504, 1000)
          | None => False
          end
      | AssertionFailed => False
      end
  | AssertionFailed => False
  end.
Proof.
  vm_compute. repeat (split; [reflexivity|]). discriminate.
Qed.

Lemma duplicate_id_rejected_witness :
  let s := Demo.mkTestStream 3 1000 in
  MixerImpl.playStream Demo.busy kMusicSoundType (Some 99) (Some s) 7 255 0
    YES false false =
  Ok (Demo.busy, Some 99, [EvDeleteStream s]).
Proof.
  intros s.
  destruct (duplicate_id_rejected (S := Demo.TestStream) (R := Z))
    as (Hreject & _).
  apply (Hreject Demo.busy kMusicSoundType (Some 99) s 7 255 0 YES false false
           0%nat (Demo.channel 0 7 0 (Demo.mkTestStream 0 1000)));
    try reflexivity.
  - discriminate.
  - vm_compute. lia.
Defined.

Lemma capacity_exhausted_witness :
  let s := Demo.mkTestStream 3 1000 in
  wf Demo.engine /\ occupied Demo.engine = 0%nat /\
  _mixerReady Demo.engine = true /\
  exists m',
    successful_plays Demo.engine NUM_CHANNELS m' /\
    exists log,
      MixerImpl.playStream m' kSFXSoundType (Some 99) (Some s) (-1) 255 0 YES
        false false = Ok (m', Some 99, log).
Proof.
  intros s.
  assert (Hwf : wf Demo.engine) by reflexivity.
  assert (Hocc : occupied Demo.engine = 0%nat) by reflexivity.
  assert (Hready : _mixerReady Demo.engine = true) by reflexivity.
  split; [exact Hwf|]. split; [exact Hocc|]. split; [exact Hready|].
  assert (Hplays : exists m', successful_plays Demo.engine NUM_CHANNELS m').
  { eexists.
    eapply (plays_more Demo.engine kSFXSoundType (Some 0) s (-1) 255 0 YES
              false false); [reflexivity|reflexivity|].
    eapply (plays_more _ kSFXSoundType (Some 0) s (-1) 255 0 YES
              false false); [reflexivity|reflexivity|].
    apply plays_done. }
  destruct Hplays as [m' Hplays]. exists m'. split; [exact Hplays|].
  destruct (capacity_exhausted (S := Demo.TestStream) (R := Z))
    as (_ & _ & Hscenario & _).
  destruct (Hscenario Demo.engine m' Hwf Hocc Hready Hplays) as (_ & Hnext).
  apply Hnext.
Defined.

Lemma stale_handle_noop_witness :
  (forall c, chanAt Demo.busy (MixerImpl.handleIndex 5) = Some c ->
             _handle c <> 5) /\
  MixerImpl.setChannelVolume Demo.busy 5 10 = Demo.busy /\
  MixerImpl.getChannelVolume Demo.busy 5 = 0.
Proof.
  assert (Hstale : forall c,
            chanAt Demo.busy (MixerImpl.handleIndex 5) = Some c ->
            _handle c <> 5).
  { intros c Hc. vm_compute in Hc. injection Hc as <-. discriminate. }
  split; [exact Hstale|].
  destruct (stale_handle_noop (T := Z * Z) Demo.busy 5) as (Hnoop & _).
  destruct (Hnoop Hstale)
    as (Hvol & _ & _ & _ & _ & _ & _ & _ & _ & Hget & _).
  split; [exact (Hvol 10) | exact Hget].
Defined.

Lemma playStream_refused_witness :
  MixerImpl.playStream Demo.engine kSFXSoundType (Some 99) None 7 255 0 YES
    false false =
  Ok (Demo.engine, Some 99, [EvWarning "stream is 0"]).
Proof.
  destruct (playStream_refused Demo.engine kSFXSoundType (Some 99) 7 255 0
              YES false false) as (Hnull & _).
  exact Hnull.
Defined.

(** A constructed engine has seen no callback; a play request with a
    stream fails its assertion there. *)
Lemma playStream_not_ready_aborts :
  match MixerImpl.ctor (S := Demo.TestStream) (R := Z) 1000 false 0 with
  | Ok m0 =>
      _mixerReady m0 = false /\
      MixerImpl.playStream m0 kSFXSoundType (Some 99)
        (Some (Demo.mkTestStream 3 1000)) (-1) 255 0 YES false false =
      AssertionFailed
  | AssertionFailed => False
  end.
Proof. vm_compute. split; reflexivity. Qed.

Lemma pauseID_first_only_witness :
  let c0 := Demo.channel 0 (-1) 0 (Demo.mkTestStream 10 1000) in
  let c1 := Demo.channel 1 (-1) 0 (Demo.mkTestStream 10 1000) in
  (wf Demo.twins /\ (0 < NUM_CHANNELS)%nat /\
   chanAt Demo.twins 0 = Some c0 /\ _id c0 = -1) /\
  chanAt (MixerImpl.pauseID Demo.twins (-1) true 5) 0 =
    Some (set_pause c0 1 5 0) /\
  chanAt (MixerImpl.pauseID Demo.twins (-1) true 5) 1 = Some c1 /\
  chanAt (MixerImpl.pauseID Demo.twins (-1) true 5) 0 <>
    chanAt Demo.twins 0 /\
  chanAt (fst (MixerImpl.stopID Demo.twins (-1))) 0 = None /\
  chanAt (fst (MixerImpl.stopID Demo.twins (-1))) 1 = None.
Proof.
  intros c0 c1.
  assert (Hwf : wf Demo.twins) by reflexivity.
  assert (Hi : (0 < NUM_CHANNELS)%nat) by (vm_compute; lia).
  assert (Hc : chanAt Demo.twins 0 = Some c0) by reflexivity.
  assert (Hid : _id c0 = -1) by reflexivity.
  split; [auto|].
  destruct (pauseID_first_only Demo.twins (-1) true 5 0%nat c0 Hwf Hi Hc Hid)
    as (_ & _ & _ & Hlater & Hstop0 & _ & _ & Hpause & _).
  { intros j c' Hj. lia. }
  destruct (Hpause eq_refl) as (Hfirst & _ & Hone).
  { vm_compute. split; [discriminate|reflexivity]. }
  split; [exact Hfirst|].
  destruct (Hlater 1%nat c1) as [Hkept Hstopped]; try reflexivity; [lia|].
  split; [exact Hkept|].
  split; [exact (proj2 (Hone 0%nat) eq_refl)|].
  split; [exact Hstop0 | exact Hstopped].
Defined.

(** Two channels share the id -1 and neither is paused: an unpause
    through that id changes neither of them, where the claim has exactly
    one of them affected by every call. *)
Lemma pauseID_unpause_affects_none :
  let c0 := Demo.channel 0 (-1) 0 (Demo.mkTestStream 10 1000) in
  let c1 := Demo.channel 1 (-1) 0 (Demo.mkTestStream 10 1000) in
  chanAt Demo.twins 0 = Some c0 /\ _id c0 = -1 /\
  chanAt Demo.twins 1 = Some c1 /\ _id c1 = -1 /\
  MixerImpl.pauseID Demo.twins (-1) false 5 = Demo.twins /\
  ~ (exists k,
       chanAt (MixerImpl.pauseID Demo.twins (-1) false 5) k <>
       chanAt Demo.twins k).
Proof.
  intros c0 c1.
  assert (E : MixerImpl.pauseID Demo.twins (-1) false 5 = Demo.twins)
    by reflexivity.
  repeat (split; [reflexivity|]).
  rewrite E. intros [k Hk]. apply Hk. reflexivity.
Qed.

(** A stream of 1000 sample pairs played at full volume: both gains are
    256; the first cycle mixes all of it, the second one reaps the
    channel, and the handle is no longer active. *)
Example play_mix_reap :
  match
    MixerImpl.playStream Demo.engine kSFXSoundType (Some 99)
      (Some (Demo.mkTestStream 1000 1000)) (-1) 255 0 YES false false
  with
  | Ok (m1, Some h, log1) =>
      h = 0 /\ log1 = [] /\
      (exists c, chanAt m1 0 = Some c /\ _volL c = 256 /\ _volR c = 256) /\
      MixerImpl.isSoundHandleActive m1 h = true /\
      match
        MixerImpl.mixCallback m1 (Some (replicate 1000 7)) 2000 (fun _ => 10)
      with
      | Ok (m2, buf2, res2, log2) =>
          res2 = 1000 /\ log2 = [] /\ buf2 = replicate 1000 0 /\
          MixerImpl.isSoundHandleActive m2 h = true /\
          match
            MixerImpl.mixCallback m2 (Some buf2) 2000 (fun _ => 1010)
          with
          | Ok (m3, _, res3, log3) =>
              res3 = 0 /\
              log3 = [EvDeleteConverter 1000;
                      EvDeleteStream (Demo.mkTestStream 0 1000)] /\
              MixerImpl.isSoundHandleActive m3 h = false /\
              _channels m3 = [None; None]
          | AssertionFailed => False
          end
      | AssertionFailed => False
      end
  | _ => False
  end.
Proof.
  vm_compute. repeat split; try reflexivity.
  eexists. repeat split; reflexivity.
Qed.

(** The third play on the two-slot engine: the warning, the destruction of
    the channel and its stream, and the caller's handle as it was. *)
Example play_on_full_table :
  MixerImpl.playStream Demo.twins kSFXSoundType (Some 99)
    (Some (Demo.mkTestStream 5 22050)) (-1) 255 0 YES false false =
  Ok (Demo.twins, Some 99,
      [EvWarning "MixerImpl::out of mixer slots";
       EvDeleteConverter 22050;
       EvDeleteStream (Demo.mkTestStream 5 22050)]).
Proof. reflexivity. Qed.

(** A handle whose slot was freed and taken again by a later play is not
    accepted: slot 0 now holds generation 1. *)
Example reused_slot_rejects_old_handle :
  match
    MixerImpl.playStream Demo.engine kSFXSoundType (Some 99)
      (Some (Demo.mkTestStream 5 1000)) (-1) 255 0 YES false false
  with
  | Ok (m1, Some h1, _) =>
      let m2 := fst (MixerImpl.stopHandle m1 h1) in
      match
        MixerImpl.playStream m2 kSFXSoundType (Some 99)
          (Some (Demo.mkTestStream 5 1000)) (-1) 255 0 YES false false
      with
      | Ok (m3, Some h3, _) =>
          h1 = 0 /\ h3 = 2 /\
          MixerImpl.handleIndex h1 = MixerImpl.handleIndex h3 /\
          MixerImpl.isSoundHandleActive m3 h3 = true /\
          MixerImpl.isSoundHandleActive m3 h1 = false /\
          MixerImpl.getChannelVolume m3 h1 = 0
      | _ => False
      end
  | _ => False
  end.
Proof. vm_compute. repeat split; reflexivity. Qed.
Lemma stopAll_keeps_permanent_witness :
  wf Demo.guarded /\
  chanAt (fst (MixerImpl.stopAll Demo.guarded)) 0 = None /\
  chanAt (fst (MixerImpl.stopAll Demo.guarded)) 1 = Some Demo.keeper.
Proof.
  assert (Hwf : wf Demo.guarded) by reflexivity.
  split; [exact Hwf|].
  pose proof (stopAll_keeps_permanent Demo.guarded Hwf) as Hstop.
  cbv zeta in Hstop. destruct Hstop as (Hslots & _).
  split; [exact (Hslots 0%nat) | exact (Hslots 1%nat)].
Defined.

Lemma stopAll_idempotent_witness :
  wf Demo.guarded /\
  MixerImpl.stopAll (fst (MixerImpl.stopAll Demo.guarded)) =
  (fst (MixerImpl.stopAll Demo.guarded), []).
Proof.
  assert (Hwf : wf Demo.guarded) by reflexivity.
  split; [exact Hwf|]. exact (stopAll_idempotent Demo.guarded Hwf).
Defined.

Lemma stopAll_active_types_witness :
  wf Demo.guarded /\
  MixerImpl.hasActiveChannelOfType (fst (MixerImpl.stopAll Demo.guarded))
    kSFXSoundType = true.
Proof.
  assert (Hwf : wf Demo.guarded) by reflexivity.
  split; [exact Hwf|].
  apply (proj2 (stopAll_active_types Demo.guarded kSFXSoundType Hwf)).
  exists 1%nat, Demo.keeper. repeat split; reflexivity.
Defined.

Lemma pauseAll_round_trip_witness :
  let c := Demo.channel 0 (-1) 0 (Demo.mkTestStream 10 1000) in
  wf Demo.twins /\
  chanAt
    (MixerImpl.pauseAll (MixerImpl.pauseAll Demo.twins true (fun _ => 10))
       false (fun _ => 30)) 0 =
  Some (set_pause c 0 0 20).
Proof.
  intros c.
  assert (Hwf : wf Demo.twins) by reflexivity.
  split; [exact Hwf|].
  destruct (pauseAll_round_trip Demo.twins (fun _ => 10) (fun _ => 30)
              0%nat Hwf) as (_ & Hround).
  assert (Hl : 0 <= _pauseLevel c < INT_MAX)
    by (vm_compute; split; [discriminate|reflexivity]).
  destruct (Hround c eq_refl Hl) as (_ & Hback). exact Hback.
Defined.

Lemma setVolumeForSoundType_clips_witness :
  wf Demo.busy /\
  MixerImpl.getVolumeForSoundType
    (MixerImpl.setVolumeForSoundType Demo.busy kSFXSoundType 300)
    kSFXSoundType = 256.
Proof.
  assert (Hwf : wf Demo.busy) by reflexivity.
  split; [exact Hwf|].
  pose proof (setVolumeForSoundType_clips Demo.busy kSFXSoundType 300 Hwf)
    as Hclip.
  cbv zeta in Hclip. destruct Hclip as (_ & Hvol & _). exact Hvol.
Defined.

Lemma muteSoundType_silences_witness :
  wf Demo.busy /\
  exists c',
    chanAt (MixerImpl.muteSoundType Demo.busy kSFXSoundType true) 1 =
      Some c' /\
    _volL c' = 0 /\ _volR c' = 0.
Proof.
  assert (Hwf : wf Demo.busy) by reflexivity.
  split; [exact Hwf|].
  destruct (muteSoundType_silences Demo.busy kSFXSoundType Hwf)
    as (_ & Hmute).
  destruct (Hmute 1%nat (Demo.channel 1 (-1) 0 (Demo.mkTestStream 10 1000))
              eq_refl eq_refl) as (c' & Hc' & HL & HR & _).
  exists c'. auto.
Defined.

Lemma gains_never_stale_witness :
  let ops :=
    [MixCallback (Some []) 0 (fun _ => 0);
     PlayStream kSFXSoundType (Some 0) (Some (Demo.mkTestStream 10 1000))
       7 200 (-30) YES false false;
     SetVolumeForSoundType kSFXSoundType 100] in
  match MixerImpl.ctor (S := Demo.TestStream) (R := Z) 1000 false 0 with
  | Ok m0 =>
      match run m0 ops with
      | Ok m' => gains_fresh m'
      | AssertionFailed => False
      end
  | AssertionFailed => False
  end.
Proof.
  intros ops.
  destruct (gains_never_stale (S := Demo.TestStream) (R := Z))
    as (Hfresh & _).
  specialize (Hfresh 1000 false 0).
  destruct (MixerImpl.ctor (S := Demo.TestStream) (R := Z) 1000 false 0)
    as [m0|] eqn:Hctor; [|discriminate Hctor].
  specialize (Hfresh m0 ops).
  injection Hctor as <-.
  destruct (run _ ops) as [m'|] eqn:Hrun; [|discriminate Hrun].
  apply Hfresh; reflexivity.
Defined.

Lemma handle_set_get_witness :
  let c := Demo.channel 1 (-1) 0 (Demo.mkTestStream 10 1000) in
  MixerImpl.lookupHandle Demo.busy 1 = Some c /\
  MixerImpl.getChannelVolume (MixerImpl.setChannelVolume Demo.busy 1 40) 1
  = 40 /\
  MixerImpl.getChannelBalance (MixerImpl.setChannelVolume Demo.busy 1 40) 1
  = 0.
Proof.
  intros c.
  assert (Hl : MixerImpl.lookupHandle Demo.busy 1 = Some c) by reflexivity.
  split; [exact Hl|].
  destruct (handle_set_get Demo.busy 1 c Hl) as (Hvol & _).
  pose proof (Hvol 40) as Hread. cbv zeta in Hread.
  destruct Hread as (Hv & Hb & _). split; [exact Hv | exact Hb].
Defined.

Lemma play_then_query_witness :
  let s := Demo.mkTestStream 10 1000 in
  wf Demo.engine /\
  _mixerReady Demo.engine = true /\
  0 <= _handleSeed Demo.engine /\
  (Z.of_nat NUM_CHANNELS | 2 ^ 32) /\
  (occupied Demo.engine < NUM_CHANNELS)%nat /\
  exists m' h,
    MixerImpl.playStream Demo.engine kMusicSoundType (Some 99) (Some s) 7
      200 (-30) YES false false = Ok (m', Some h, []) /\
    MixerImpl.getChannelVolume m' h = 200 /\
    MixerImpl.getSoundID m' h = 7.
Proof.
  intros s.
  assert (Hwf : wf Demo.engine) by reflexivity.
  assert (Hready : _mixerReady Demo.engine = true) by reflexivity.
  assert (Hseed : 0 <= _handleSeed Demo.engine) by (vm_compute; discriminate).
  assert (Hdiv : (Z.of_nat NUM_CHANNELS | 2 ^ 32))
    by (exists (2 ^ 31); reflexivity).
  assert (Hfree : (occupied Demo.engine < NUM_CHANNELS)%nat)
    by (vm_compute; lia).
  assert (Hid : 7 = -1 \/
                (forall i c, chanAt Demo.engine i = Some c -> _id c <> 7)).
  { right. intros i c Hc. destruct i as [|[|i]]; discriminate Hc. }
  split; [exact Hwf|]. split; [exact Hready|]. split; [exact Hseed|].
  split; [exact Hdiv|]. split; [exact Hfree|].
  destruct (play_then_query Demo.engine kMusicSoundType 99 s 7 200 (-30) YES
              false false Hwf Hready Hseed (or_introl Hdiv) Hfree Hid)
    as (m' & h & Hplay & _ & Hvol & _ & _ & _ & Hsid & _).
  exists m', h. auto.
Defined.

Lemma stopHandle_removes_one_witness :
  let c := Demo.channel 1 (-1) 0 (Demo.mkTestStream 10 1000) in
  MixerImpl.lookupHandle Demo.busy 1 = Some c /\
  snd (MixerImpl.stopHandle Demo.busy 1) = Channel.dtor c /\
  occupied Demo.busy =
    Datatypes.S (occupied (fst (MixerImpl.stopHandle Demo.busy 1))).
Proof.
  intros c.
  assert (Hl : MixerImpl.lookupHandle Demo.busy 1 = Some c) by reflexivity.
  split; [exact Hl|].
  pose proof (stopHandle_removes_one Demo.busy 1 c Hl) as Hstop.
  cbv zeta in Hstop. destruct Hstop as (Hlog & _ & Hocc & _).
  split; [exact Hlog | exact Hocc].
Defined.

Lemma stopID_then_inactive_witness :
  wf Demo.busy /\
  MixerImpl.isSoundIDActive (fst (MixerImpl.stopID Demo.busy 7)) 7 = false.
Proof.
  assert (Hwf : wf Demo.busy) by reflexivity.
  split; [exact Hwf|].
  exact (proj1 (stopID_then_inactive Demo.busy 7 Hwf)).
Defined.

Lemma live_handles_valid_witness :
  let ops :=
    [MixCallback (Some []) 0 (fun _ => 0);
     PlayStream kSFXSoundType (Some 0) (Some (Demo.mkTestStream 10 1000))
       7 200 (-30) YES false false;
     PlayStream kMusicSoundType (Some 0) (Some (Demo.mkTestStream 0 1000))
       (-1) 255 0 YES false false;
     MixCallback (Some [5; 5]) 4 (fun _ => 20);
     PlayStream kSFXSoundType (Some 0) (Some (Demo.mkTestStream 3 1000))
       (-1) 255 0 NO false false] in
  (Z.of_nat NUM_CHANNELS | 2 ^ 32) /\
  match MixerImpl.ctor (S := Demo.TestStream) (R := Z) 1000 false 0 with
  | Ok m0 =>
      match run m0 ops with
      | Ok m' =>
          forall i c,
            chanAt m' i = Some c ->
            MixerImpl.isSoundHandleActive m' (_handle c) = true
      | AssertionFailed => False
      end
  | AssertionFailed => False
  end.
Proof.
  intros ops.
  assert (Hdiv : (Z.of_nat NUM_CHANNELS | 2 ^ 32))
    by (exists (2 ^ 31); reflexivity).
  split; [exact Hdiv|].
  pose proof (live_handles_valid (S := Demo.TestStream) (R := Z) 1000 false 0)
    as Hlive.
  destruct (MixerImpl.ctor (S := Demo.TestStream) (R := Z) 1000 false 0)
    as [m0|] eqn:Hctor; [|discriminate Hctor].
  specialize (Hlive m0 ops).
  injection Hctor as <-.
  destruct (run _ ops) as [m'|] eqn:Hrun; [|discriminate Hrun].
  destruct (Hlive m' Hdiv eq_refl eq_refl) as (Hall & _).
  intros i c Hc. destruct (Hall i c Hc) as (_ & _ & Hact). exact Hact.
Defined.

Lemma only_play_adds_channels_witness :
  is_play (StopAll (S := Demo.TestStream)) = false /\
  step Demo.busy StopAll = Ok (fst (MixerImpl.stopAll Demo.busy)) /\
  (occupied (fst (MixerImpl.stopAll Demo.busy)) <= occupied Demo.busy)%nat.
Proof.
  assert (Hnp : is_play (StopAll (S := Demo.TestStream)) = false)
    by reflexivity.
  assert (Hstep : step Demo.busy StopAll =
                  Ok (fst (MixerImpl.stopAll Demo.busy))) by reflexivity.
  split; [exact Hnp|]. split; [exact Hstep|].
  destruct (only_play_adds_channels Demo.busy StopAll _ Hnp Hstep)
    as (_ & _ & _ & Hocc).
  exact Hocc.
Defined.

Lemma pause_interval_excluded_witness :
  _mixerTimeStamp Demo.played = 100 /\
  _pauseLevel Demo.played = 0 /\
  _pauseTime Demo.played = 0 /\
  Channel.getElapsedTime Demo.busy Demo.played 110 = (14, 1000) /\
  Channel.getElapsedTime Demo.busy Demo.played 999 = (903, 1000) /\
  Channel.getElapsedTime Demo.busy (Channel.pause Demo.played true 110) 999
  = (14, 1000) /\
  Channel.getElapsedTime Demo.busy
    (Channel.pause (Channel.pause Demo.played true 110) false 130) 150
  = (34, 1000).
Proof.
  assert (Hl : _pauseLevel Demo.played = 0) by reflexivity.
  assert (Hp : _pauseTime Demo.played = 0) by reflexivity.
  split; [reflexivity|]. split; [exact Hl|]. split; [exact Hp|].
  split; [reflexivity|]. split; [reflexivity|].
  destruct (pause_interval_excluded (T := Z * Z) Demo.busy Demo.played
              110 130 Hl Hp) as (Hfrozen & Hcut).
  split.
  - exact (eq_trans (Hfrozen 999) eq_refl).
  - exact (eq_trans (Hcut 150) eq_refl).
Defined.

Lemma elapsed_after_cycle_witness :
  let c := Demo.channel 1 (-1) 0 (Demo.mkTestStream 10 1000) in
  wf Demo.busy /\
  aligned Demo.busy 8 /\
  MixerImpl.lookupHandle Demo.busy 1 = Some c /\
  Channel.isFinished c = false /\
  Channel.isPaused c = false /\
  negb (endOfData (_stream c)) || needsDraining (_converter c) = true /\
  match
    MixerImpl.mixCallback Demo.busy (Some [5; 5; 5; 5]) 8 (fun _ => 100)
  with
  | AssertionFailed => False
  | Ok (m', _, _, _) => MixerImpl.getElapsedTime m' 1 150 = (50, 1000)
  end.
Proof.
  intros c.
  assert (Hwf : wf Demo.busy) by reflexivity.
  assert (Hal : aligned Demo.busy 8) by reflexivity.
  assert (Hl : MixerImpl.lookupHandle Demo.busy 1 = Some c) by reflexivity.
  assert (Hnf : Channel.isFinished c = false) by reflexivity.
  assert (Hnp : Channel.isPaused c = false) by reflexivity.
  assert (Hw : negb (endOfData (_stream c)) || needsDraining (_converter c)
               = true) by reflexivity.
  repeat (split; [assumption|]).
  pose proof (elapsed_after_cycle (T := Z * Z) Demo.busy [5; 5; 5; 5] 8
                (fun _ => 100) 1 c Hwf Hal Hl Hnf Hnp Hw) as Hcycle.
  destruct (MixerImpl.mixCallback Demo.busy (Some [5; 5; 5; 5]) 8
              (fun _ => 100)) as [[[[m' buf] res] log]|]; [|exact Hcycle].
  exact (Hcycle 150).
Defined.

Lemma rate_set_get_witness :
  let c := Demo.channel 1 (-1) 0 (Demo.mkTestStream 10 1000) in
  (forall (r : Z) x,
     getInputRate (S := Demo.TestStream)
       (setInputRate (S := Demo.TestStream) r x) = x) /\
  MixerImpl.lookupHandle Demo.busy 1 = Some c /\
  MixerImpl.getChannelRate (MixerImpl.setChannelRate Demo.busy 1 8000) 1 =
  8000 /\
  MixerImpl.getChannelRate (MixerImpl.resetChannelRate Demo.busy 1) 1 = 1000.
Proof.
  intros c.
  assert (Hlaw : forall (r : Z) x,
            getInputRate (S := Demo.TestStream)
              (setInputRate (S := Demo.TestStream) r x) = x)
    by (intros r x; reflexivity).
  assert (Hl : MixerImpl.lookupHandle Demo.busy 1 = Some c) by reflexivity.
  split; [exact Hlaw|]. split; [exact Hl|].
  destruct (rate_set_get (T := Z * Z) Demo.busy 1 c Hlaw Hl)
    as (Hset & _ & Hreset).
  pose proof (Hset 8000) as Hread. cbv zeta in Hread.
  destruct Hread as (Hrate & _).
  split; [exact Hrate | exact Hreset].
Defined.
End Examples.

(** * Examples on an engine of reels *)

Section ReelExamples.
#[local] Existing Instance Demo.config.
#[local] Existing Instance Demo.tape_ops.
#[local] Existing Instance Demo.tape_converter_ops.
#[local] Existing Instance Demo.timestamp_ops.

Lemma mixCallback_idle_witness :
  wf Demo.waiting /\
  aligned Demo.waiting 8 /\
  (forall i c,
     chanAt Demo.waiting i = Some c ->
     Channel.isFinished c = false /\
     (Channel.isPaused c = true \/
      (endOfData (_stream c) = true /\
       needsDraining (_converter c) = false))) /\
  MixerImpl.mixCallback Demo.waiting (Some [5; 5; 5; 5]) 8 (fun _ => 100) =
  Ok (set_mixerReady Demo.waiting true, [0; 0; 0; 0], 0, []).
Proof.
  assert (Hwf : wf Demo.waiting) by reflexivity.
  assert (Hal : aligned Demo.waiting 8) by reflexivity.
  assert (Hidle : forall i c,
            chanAt Demo.waiting i = Some c ->
            Channel.isFinished c = false /\
            (Channel.isPaused c = true \/
             (endOfData (_stream c) = true /\
              needsDraining (_converter c) = false))).
  { intros i c Hc. destruct i as [|[|i]]; [| |discriminate Hc];
      injection Hc as <-; (split; [reflexivity|]).
    - right. split; reflexivity.
    - left. reflexivity. }
  split; [exact Hwf|]. split; [exact Hal|]. split; [exact Hidle|].
  exact (mixCallback_idle Demo.waiting [5; 5; 5; 5] 8 (fun _ => 100)
           Hwf Hal Hidle).
Defined.

Lemma loopChannel_wraps_witness :
  let c := Demo.tape_channel 0 0 (Demo.Reel 0 5 true) NO in
  MixerImpl.lookupHandle Demo.waiting 0 = Some c /\
  isRewindable (_stream c) = true /\
  snd (MixerImpl.stopHandle (MixerImpl.loopChannel Demo.waiting 0) 0) =
    [EvDeleteConverter 1000;
     EvDeleteStream (Demo.Endless (Demo.Reel 0 5 true) NO)].
Proof.
  intros c.
  assert (Hl : MixerImpl.lookupHandle Demo.waiting 0 = Some c)
    by reflexivity.
  assert (Hr : isRewindable (_stream c) = true) by reflexivity.
  split; [exact Hl|]. split; [exact Hr|].
  pose proof (loopChannel_wraps Demo.waiting 0 c Hl) as Hloop.
  cbv zeta in Hloop. destruct Hloop as (_ & Hwrap & _).
  destruct (Hwrap Hr) as (_ & Hlog). exact Hlog.
Defined.
End ReelExamples.
